(** * POS-system: currency subsystem and discount pricing

    A shallow embedding of the multi-currency code of the repository:

    - the PostgreSQL side ([multi_currency] schema: tables
      [exchange_rates], [exchange_rate_history], [currency_config] and the
      PL/pgSQL functions [get_current_exchange_rate] and
      [update_exchange_rate]);
    - the TypeScript side (class [CurrencyUtils] of [lib/currencyUtils.ts]
      with its static rate cache);
    - the discount engine, of which the sources only have the type
      declarations ([Discount], [DiscountCondition], [Sale]).

    Numbers.  Finite SQL [numeric] values and finite JavaScript numbers are
    both represented by rationals [Q].  What the code does to a value when
    it is stored in a [DECIMAL(p,s)] column or PL/pgSQL variable (rounding
    to [s] decimals, overflow) is written out in [to_decimal], and the
    rounding of a numeric quotient to its result scale in [numeric_div].
    The numeric NaN is not a value of the model: the rates of this
    repository reach the database as JSON numbers, which have no NaN.
    Binary floating point rounding of JavaScript numbers is not
    represented: a product of two numbers is the exact product, which is
    what the code computes when one factor is 1.0, and no theorem states a
    product elsewhere.  The numbers [toFixed] has to print include NaN and
    the infinities ([Js.Number]). *)

From Stdlib Require Import ZArith QArith Qround Qabs Qminmax Lia Lqa List Bool.
From Stdlib Require Import Sorting.Sorted Sorting.Permutation Ascii DecimalString.
From stdpp Require Import base option strings gmap.
Import ListNotations.

Local Open Scope Z_scope.

(** ** Errors and the error monad *)

Inductive error : Type :=
  | numeric_field_overflow          (* SQLSTATE 22003 *)
  | division_by_zero                (* SQLSTATE 22012 *)
  | check_violation (constraint : string)   (* SQLSTATE 23514 *)
  | unique_violation (constraint : string)  (* SQLSTATE 23505 *)
  | PGRST116                        (* PostgREST: .single() on 0 or many rows *)
  | RangeError                      (* JavaScript: toFixed digits out of range *)
  | InvalidCartError.

Inductive result (A : Type) : Type :=
  | Ok (a : A)
  | Err (e : error).
Arguments Ok {A} a.
Arguments Err {A} e.

#[global] Instance result_ret : MRet result := fun A a => Ok a.

#[global] Instance result_bind : MBind result := fun A B k r =>
  match r with
  | Ok a => k a
  | Err e => Err e
  end.

Definition check (b : bool) (e : error) : result unit :=
  if b then Ok tt else Err e.

(** ** SQL numerics *)

Module Numeric.

(** Rounding to the nearest integer, ties away from zero (the rounding of
    PostgreSQL's [numeric]). *)
Definition round_half_away (q : Q) : Z :=
  if Qle_bool 0 q then Qfloor (q + (1 # 2))
  else - Qfloor (- q + (1 # 2)).

Definition pow10 (n : nat) : Z := 10 ^ Z.of_nat n.

(** Coercion of a numeric value to [DECIMAL(p,s)]: the value is rounded to
    [s] decimals; it is an error when the rounded value needs more than
    [p] digits. *)
Definition to_decimal (p s : nat) (q : Q) : result Q :=
  let n := round_half_away (q * inject_Z (pow10 s)) in
  if Z.abs n <? pow10 p
  then Ok (Qred (n # Z.to_pos (pow10 s)))
  else Err numeric_field_overflow.

(** *** Division

    [numeric / numeric] is not exact.  PostgreSQL chooses a result scale
    ([select_div_scale] of its numeric.c) and rounds the quotient to that
    many decimals, ties away from zero.  The scale gives the quotient at
    least [NUMERIC_MIN_SIG_DIGITS] significant digits, estimated from the
    base-10000 digits numerics are stored in, and is no less than the
    display scale of either operand. *)

Definition NBASE : Z := 10000.
Definition DEC_DIGITS : Z := 4.
Definition NUMERIC_MIN_SIG_DIGITS : Z := 16.
Definition NUMERIC_MAX_DISPLAY_SCALE : Z := 1000.

(** The weight (power of [NBASE]) of the first base-10000 digit of an
    integer [i >= 1], and that digit.  The fuel [Z.log2 i] is more than the
    number of divisions needed. *)
Fixpoint first_digit_int (fuel : nat) (i : Z) : Z * Z :=
  match fuel with
  | O => (0, i)
  | S fuel' =>
      if i <? NBASE then (0, i)
      else let '(w, d) := first_digit_int fuel' (i / NBASE) in (w + 1, d)
  end.

(** The same for a fraction [0 < x < 1]; the size of the denominator is
    more than the number of multiplications needed. *)
Fixpoint first_digit_frac (fuel : nat) (x : Q) : Z * Z :=
  let y := (x * inject_Z NBASE)%Q in
  match fuel with
  | O => (-1, Qfloor y)
  | S fuel' =>
      if Qle_bool 1 y then (-1, Qfloor y)
      else let '(w, d) := first_digit_frac fuel' y in (w - 1, d)
  end.

(** Weight and first digit of a numeric; both 0 for zero. *)
Definition first_digit (x : Q) : Z * Z :=
  let a := Qabs x in
  if Qeq_bool a 0 then (0, 0)
  else if Qle_bool 1 a
       then first_digit_int (Z.to_nat (Z.log2 (Qfloor a))) (Qfloor a)
       else first_digit_frac (Pos.size_nat (Qden a)) a.

(** [select_div_scale(var1, var2)]; [dscale1] and [dscale2] are the
    display scales of the operands. *)
Definition select_div_scale (x1 : Q) (dscale1 : nat) (x2 : Q) (dscale2 : nat)
  : nat :=
  let '(weight1, firstdigit1) := first_digit x1 in
  let '(weight2, firstdigit2) := first_digit x2 in
  let qweight :=
    weight1 - weight2 - (if firstdigit1 <=? firstdigit2 then 1 else 0) in
  let rscale := NUMERIC_MIN_SIG_DIGITS - qweight * DEC_DIGITS in
  let rscale := Z.max rscale (Z.of_nat dscale1) in
  let rscale := Z.max rscale (Z.of_nat dscale2) in
  let rscale := Z.max rscale 0 in
  let rscale := Z.min rscale NUMERIC_MAX_DISPLAY_SCALE in
  Z.to_nat rscale.

(** Rounding to [s] decimals. *)
Definition round_to_scale (s : nat) (q : Q) : Q :=
  Qred (round_half_away (q * inject_Z (pow10 s)) # Z.to_pos (pow10 s)).

(** [x1 / x2] for [x2] other than zero. *)
Definition numeric_div (x1 : Q) (dscale1 : nat) (x2 : Q) (dscale2 : nat) : Q :=
  round_to_scale (select_div_scale x1 dscale1 x2 dscale2) (x1 / x2).

Definition is_integer (q : Q) : bool := (Qnum q mod Z.pos (Qden q)) =? 0.

Fixpoint decimals_from (fuel k : nat) (q : Q) : nat :=
  match fuel with
  | O => k
  | S fuel' =>
      if is_integer q then k else decimals_from fuel' (S k) (q * 10)%Q
  end.

(** The display scale of a numeric that arrives as a JSON number written
    by JavaScript: the digits after the point of its shortest decimal
    form, which has no trailing zero, so the least number of decimals
    that writes the value.  A JavaScript number has fewer than 400; the
    search ends at 1000. *)
Definition display_scale (q : Q) : nat := decimals_from 1000 0 q.

End Numeric.
Import Numeric.

(** ** The database *)

Module Schema.

(** Table [exchange_rates].  The columns [id], [created_at] and
    [updated_at] play no role in the functions below and are left out.
    Timestamps ([timestamp with time zone]) are instants, counted on the
    UTC clock. *)
Record ExchangeRateRow : Type := {
  base_currency : string;
  target_currency : string;
  rate : Q;                        (* DECIMAL(15,8) NOT NULL *)
  source : string;
  is_manual_override : bool;
  effective_from : Z;
  effective_to : option Z          (* NULL means currently active *)
}.

(** Table [exchange_rate_history]. *)
Record HistoryRow : Type := {
  h_base_currency : string;
  h_target_currency : string;
  h_rate : Q;                      (* DECIMAL(15,8) NOT NULL *)
  previous_rate : option Q;        (* DECIMAL(15,8) *)
  change_percentage : option Q;    (* DECIMAL(8,4) *)
  h_source : string;
  h_is_manual_override : bool;
  recorded_at : Z
}.

Inductive SymbolPosition : Type := before | after.

(** Table [currency_config]. *)
Record CurrencyRow : Type := {
  code : string;
  name : string;
  symbol : string;
  symbol_position : SymbolPosition;
  decimal_places : Z;
  is_active : bool;
  is_base_currency : bool
}.

(** The three tables, and the [TimeZone] setting of the database
    sessions: the map from a wall-clock time (a [timestamp], written as
    the instant at which the UTC clock shows it) to the instant at which
    the clocks of the zone show it.  It is what a cast from [timestamp] to
    [timestamp with time zone] applies. *)
Record Db : Type := {
  exchange_rates : list ExchangeRateRow;
  exchange_rate_history : list HistoryRow;
  currency_config : list CurrencyRow;
  time_zone : Z -> Z
}.

(** [TimeZone = 'UTC'] *)
Definition utc : Z -> Z := fun wall_clock => wall_clock.

(** A zone whose clocks are [offset] ahead of UTC. *)
Definition fixed_offset (offset : Z) : Z -> Z :=
  fun wall_clock => wall_clock - offset.

Definition empty_db : Db :=
  {| exchange_rates := []; exchange_rate_history := []; currency_config := [];
     time_zone := utc |}.

(** The empty database of a session in another time zone. *)
Definition empty_db_in (zone : Z -> Z) : Db :=
  {| exchange_rates := []; exchange_rate_history := []; currency_config := [];
     time_zone := zone |}.

(** [base_currency = b AND target_currency = t] *)
Definition for_pair (b t : string) (r : ExchangeRateRow) : bool :=
  String.eqb (base_currency r) b && String.eqb (target_currency r) t.

(** [effective_to IS NULL OR effective_to > NOW()] *)
Definition is_current (now : Z) (r : ExchangeRateRow) : bool :=
  match effective_to r with
  | None => true
  | Some t => now <? t
  end.

(** [ORDER BY effective_from DESC LIMIT 1] *)
Fixpoint newest (rows : list ExchangeRateRow) : option ExchangeRateRow :=
  match rows with
  | [] => None
  | r :: rest =>
      match newest rest with
      | None => Some r
      | Some r' =>
          if effective_from r <? effective_from r' then Some r' else Some r
      end
  end.

(** The query shared by both functions:
    [SELECT ... FROM exchange_rates WHERE base_currency = b AND
     target_currency = t AND (effective_to IS NULL OR effective_to > NOW())
     ORDER BY effective_from DESC LIMIT 1]. *)
Definition select_current (db : Db) (now : Z) (b t : string)
  : option ExchangeRateRow :=
  newest (List.filter (fun r => for_pair b t r && is_current now r)
                      (exchange_rates db)).

(** [get_current_exchange_rate(p_base_currency, p_target_currency)].
    The local [current_rate] is declared [DECIMAL(15,8)], so the
    reciprocal of the reverse rate is coerced on assignment; the direct
    rate comes from a column of that very type.  The division [1.0 / rate]
    rounds its quotient to twelve decimals or more before that; for a
    divisor with eight decimals the quotient is further from every tie
    between two neighbours at eight decimals than this first rounding
    moves it, so the value assigned is the exact quotient rounded to eight
    decimals. *)
Definition get_current_exchange_rate (db : Db) (now : Z)
    (p_base_currency p_target_currency : string) : result Q :=
  if String.eqb p_base_currency p_target_currency then Ok 1%Q
  else
    match select_current db now p_base_currency p_target_currency with
    | Some r => Ok (rate r)
    | None =>
        match select_current db now p_target_currency p_base_currency with
        | Some r =>
            if Qeq_bool (rate r) 0 then Err division_by_zero
            else to_decimal 15 8 (1 / rate r)
        | None => Ok 1%Q
        end
    end.

(** One row of [UPDATE exchange_rates SET effective_to = NOW()], checked
    against the table constraint [exchange_rates_effective_dates]
    ([effective_to IS NULL OR effective_to > effective_from]). *)
Definition close_row (now : Z) (r : ExchangeRateRow) : result ExchangeRateRow :=
  check (effective_from r <? now)
        (check_violation "exchange_rates_effective_dates");;
  Ok {| base_currency := base_currency r;
        target_currency := target_currency r;
        rate := rate r;
        source := source r;
        is_manual_override := is_manual_override r;
        effective_from := effective_from r;
        effective_to := Some now |}.

(** [UPDATE exchange_rates SET effective_to = NOW()
     WHERE base_currency = b AND target_currency = t
       AND (effective_to IS NULL OR effective_to > NOW())] *)
Fixpoint close_current (now : Z) (b t : string)
    (rows : list ExchangeRateRow) : result (list ExchangeRateRow) :=
  match rows with
  | [] => Ok []
  | r :: rest =>
      r' ← (if for_pair b t r && is_current now r
            then close_row now r else Ok r);
      rest' ← close_current now b t rest;
      Ok (r' :: rest')
  end.

(** [UNIQUE (base_currency, target_currency, effective_from)] *)
Definition same_key (b t : string) (from : Z) (r : ExchangeRateRow) : bool :=
  for_pair b t r && (effective_from r =? from).

(** [((p_rate - previous_rate) / previous_rate) * 100].  The local
    [previous_rate] is a [DECIMAL(15,8)], of display scale 8; the
    difference has the larger of the two display scales; the quotient is
    rounded to the scale of the division; the product with the integer
    100 is exact. *)
Definition percent_change (prev p_rate : Q) : Q :=
  let difference := (p_rate - prev)%Q in
  let quotient :=
    numeric_div difference (Nat.max (display_scale p_rate) 8) prev 8 in
  (quotient * 100)%Q.

(** [IF previous_rate IS NOT NULL AND previous_rate > 0 THEN
      change_percentage := ((p_rate - previous_rate) / previous_rate) * 100;]
    The local [change_percentage] is declared [DECIMAL(8,4)], so the value
    is rounded once more on assignment; it stays NULL when the branch is
    not taken. *)
Definition compute_change (previous : option Q) (p_rate : Q)
  : result (option Q) :=
  match previous with
  | Some prev =>
      if negb (Qle_bool prev 0)
      then c ← to_decimal 8 4 (percent_change prev p_rate); Ok (Some c)
      else Ok None
  | None => Ok None
  end.

(** The row of [INSERT INTO exchange_rates (base_currency,
    target_currency, rate, source, is_manual_override, effective_from)
    VALUES (..., NOW())]; [effective_to] is NULL. *)
Definition new_row (b t : string) (stored : Q) (src : string)
    (manual : bool) (now : Z) : ExchangeRateRow :=
  {| base_currency := b;
     target_currency := t;
     rate := stored;
     source := src;
     is_manual_override := manual;
     effective_from := now;
     effective_to := None |}.

(** The INSERT into [exchange_rates], with the
    constraints [exchange_rates_rate_positive] and
    [exchange_rates_unique_active].  [p_rate] is a finite numeric (see
    Numbers at the head of the file). *)
Definition insert_rate (rows : list ExchangeRateRow) (now : Z)
    (b t : string) (p_rate : Q) (src : string) (manual : bool)
  : result (list ExchangeRateRow) :=
  stored ← to_decimal 15 8 p_rate;
  check (negb (Qle_bool stored 0))
        (check_violation "exchange_rates_rate_positive");;
  check (negb (existsb (same_key b t now) rows))
        (unique_violation "exchange_rates_unique_active");;
  Ok (rows ++ [ new_row b t stored src manual now ]).

(** [INSERT INTO exchange_rate_history (...)] with the constraints
    [exchange_rate_history_rate_positive] and
    [exchange_rate_history_previous_rate_positive].  The column list does
    not name [recorded_at], which takes its default
    [timezone('utc'::text, now())]: the UTC wall clock at [NOW()], a
    [timestamp], which the [timestamp with time zone] column reads in the
    time zone of the session. *)
Definition insert_history (zone : Z -> Z) (rows : list HistoryRow) (now : Z)
    (b t : string) (p_rate : Q) (previous change : option Q)
    (src : string) (manual : bool) : result (list HistoryRow) :=
  stored ← to_decimal 15 8 p_rate;
  check (negb (Qle_bool stored 0))
        (check_violation "exchange_rate_history_rate_positive");;
  check (match previous with
         | Some prev => negb (Qle_bool prev 0)
         | None => true
         end)
        (check_violation "exchange_rate_history_previous_rate_positive");;
  Ok (rows ++ [ {| h_base_currency := b;
                   h_target_currency := t;
                   h_rate := stored;
                   previous_rate := previous;
                   change_percentage := change;
                   h_source := src;
                   h_is_manual_override := manual;
                   recorded_at := zone now |} ]).

(** [update_exchange_rate(p_base_currency, p_target_currency, p_rate,
    p_source, p_is_manual_override)].  The type modifier of the parameter
    [p_rate DECIMAL(15,8)] is dropped by [CREATE FUNCTION], so [p_rate] is
    any numeric; it is coerced when it reaches a column.  [NOW()] is the
    start of the transaction, the same instant throughout the call.  An
    error aborts the call and leaves the database as it was. *)
Definition update_exchange_rate (db : Db) (now : Z)
    (p_base_currency p_target_currency : string) (p_rate : Q)
    (p_source : string) (p_is_manual_override : bool) : result Db :=
  let previous :=
    rate <$> select_current db now p_base_currency p_target_currency in
  change ← compute_change previous p_rate;
  closed ← close_current now p_base_currency p_target_currency
                         (exchange_rates db);
  rates ← insert_rate closed now p_base_currency p_target_currency
                      p_rate p_source p_is_manual_override;
  history ← insert_history (time_zone db) (exchange_rate_history db) now
                           p_base_currency p_target_currency p_rate
                           previous change p_source p_is_manual_override;
  Ok {| exchange_rates := rates;
        exchange_rate_history := history;
        currency_config := currency_config db;
        time_zone := time_zone db |}.

End Schema.
Import Schema.

(** ** JavaScript numbers and [Number.prototype.toFixed] *)

Module Js.

(** A finite number. *)
Definition number : Type := Q.

(** A Number value as [toFixed] can meet it.  A finite one is given by the
    exact value of the double. *)
Inductive Number : Type :=
  | Finite (x : number)
  | NaN
  | Infinity
  | NegInfinity.

Definition digit (d : Z) : string :=
  match d with
  | 0 => "0" | 1 => "1" | 2 => "2" | 3 => "3" | 4 => "4"
  | 5 => "5" | 6 => "6" | 7 => "7" | 8 => "8" | _ => "9"
  end.

(** The [f] low decimal digits of [n], most significant first. *)
Fixpoint low_digits (f : nat) (n : Z) : string :=
  match f with
  | O => ""
  | S f' => low_digits f' (n / 10) +:+ digit (n mod 10)
  end.

(** The decimal digits of a natural number, "0" for zero. *)
Definition digits (n : Z) : string :=
  DecimalString.NilZero.string_of_uint (N.to_uint (Z.to_N n)).

(** The digits of [x.toFixed(k)] for a finite [x] below 10^21 in
    magnitude: [x] is rounded to [k] decimals, ties going up in magnitude,
    and printed with exactly [k] digits after the point (no point when [k]
    is 0); a negative [x] prints its sign even when it rounds to zero. *)
Definition fixed (x : number) (k : nat) : string :=
  let s := if Qle_bool 0 x then "" else "-" in
  let n := Qfloor (Qabs x * inject_Z (pow10 k) + (1 # 2)) in
  let int_part := digits (n / pow10 k) in
  match k with
  | O => s +:+ int_part
  | S _ => s +:+ int_part +:+ "." +:+ low_digits k (n mod pow10 k)
  end.

(** Rounding to the nearest integer, ties to the even one. *)
Definition round_half_even (q : Q) : Z :=
  let n := Qfloor q in
  match (q - inject_Z n ?= 1 # 2)%Q with
  | Lt => n
  | Gt => n + 1
  | Eq => if Z.even n then n else n + 1
  end.

(** The double nearest to [q], for [q >= 1]: 53 significant bits, ties to
    even; [None] when that is beyond the largest double. *)
Definition nearest_double (q : Q) : option Q :=
  let e := Z.log2 (Qfloor q) - 52 in
  let m := round_half_even (q / inject_Z 2 ^ e)%Q in
  let d := (inject_Z m * inject_Z 2 ^ e)%Q in
  if Qle_bool (inject_Z (2 ^ 1024)) d then None else Some d.

Definition reads_as (s e : Z) (x : Q) : bool :=
  match nearest_double (inject_Z (s * 10 ^ e)) with
  | Some d => Qeq_bool d x
  | None => false
  end.

(** The candidates with [k] digits for a number [x] of [n] integer digits:
    the two multiples of 10^(n-k) next to [x].  The result is [(s, n)] for
    the one that reads back as [x], the nearer one when both do, the even
    one on a tie. *)
Definition with_digits (x : Q) (n k : Z) : option (Z * Z) :=
  let e := n - k in
  let lo := Qfloor (x / inject_Z (10 ^ e))%Q in
  let hi := lo + 1 in
  let nearer_lo :=
    match (x - inject_Z (lo * 10 ^ e) ?= inject_Z (hi * 10 ^ e) - x)%Q with
    | Lt => true
    | Gt => false
    | Eq => Z.even lo
    end in
  let pick (s : Z) := if s =? 10 ^ k then (10 ^ (k - 1), n + 1) else (s, n) in
  match reads_as lo e x, reads_as hi e x with
  | true, true => Some (pick (if nearer_lo then lo else hi))
  | true, false => Some (pick lo)
  | false, true => Some (pick hi)
  | false, false => None
  end.

(** The shortest digits: the least [k] from [k] on with a candidate.  A
    double needs 17 digits at most; the search ends there. *)
Fixpoint shortest_digits (fuel : nat) (x : Q) (n k : Z) : Z * Z :=
  match fuel with
  | O =>
      let e := n - k in
      (round_half_even (x / inject_Z (10 ^ e))%Q, n)
  | S fuel' =>
      match with_digits x n k with
      | Some sn => sn
      | None => shortest_digits fuel' x n (k + 1)
      end
  end.

(** [Number::toString(x)] for a finite [x >= 10^21]: the shortest digits
    [s] that read back as [x], then the exponent, as d.ddde+NN. *)
Definition exponential (x : Q) : string :=
  let n := Z.of_nat (String.length (digits (Qfloor x))) in
  let '(s, n) := shortest_digits 16 x n 1 in
  let exponent := "e+" +:+ digits (n - 1) in
  match digits s with
  | String d EmptyString => String d exponent
  | String d rest => String d ("." +:+ rest +:+ exponent)
  | EmptyString => exponent
  end.

(** [x.toFixed(f)]: a RangeError unless [0 <= f <= 100]; then the name of
    a value that is not finite, the exponential form from 10^21 on, and
    the fixed digits below. *)
Definition toFixed (x : Number) (f : Z) : result string :=
  if (f <? 0) || (100 <? f) then Err RangeError
  else
    Ok match x with
       | NaN => "NaN"
       | Infinity => "Infinity"
       | NegInfinity => "-Infinity"
       | Finite x =>
           if Qle_bool (inject_Z (10 ^ 21)) (Qabs x)
           then (if Qle_bool 0 x then "" else "-") +:+ exponential (Qabs x)
           else fixed x (Z.to_nat f)
       end.

Definition is_digit (c : Ascii.ascii) : bool :=
  existsb (Ascii.eqb c) ["0"; "1"; "2"; "3"; "4"; "5"; "6"; "7"; "8"; "9"]%char.

Fixpoint all_digits (s : string) : bool :=
  match s with
  | EmptyString => true
  | String c s' => is_digit c && all_digits s'
  end.

End Js.
Import Js.

(** ** [CurrencyUtils] (lib/currencyUtils.ts)

    The static methods are modelled as they run when called on the class,
    [CurrencyUtils.f(...)], where [this] is the class and
    [this.cachedRates] its static field. *)

Module CurrencyUtils.

(** [interface CurrencyConfig] ([id], [createdAt], [updatedAt] left out,
    as in the table). *)
Record CurrencyConfig : Type := {
  code : string;
  name : string;
  symbol : string;
  symbolPosition : SymbolPosition;
  decimalPlaces : Z;
  isActive : bool;
  isBaseCurrency : bool
}.

(** [interface CurrencyConversion]; [timestamp] is the client clock. *)
Record CurrencyConversion : Type := {
  originalAmount : number;
  convertedAmount : number;
  fromCurrency : string;
  toCurrency : string;
  exchangeRate : number;
  timestamp : Z
}.

(** The values of the static [cachedRates] map. *)
Record CacheEntry : Type := {
  cached_rate : number;
  cached_timestamp : Z
}.

(** The state the class works on: the database behind [supabase] and the
    static field [cachedRates]. *)
Record State : Type := {
  db : Db;
  cachedRates : gmap string CacheEntry
}.

Definition initial_state : State :=
  {| db := empty_db; cachedRates := ∅ |}.

(** [CACHE_DURATION = 5 * 60 * 1000], in milliseconds. *)
Definition CACHE_DURATION : Z := 5 * 60 * 1000.

(** The template string [`${baseCurrency}_${targetCurrency}`]. *)
Definition cacheKey (baseCurrency targetCurrency : string) : string :=
  baseCurrency +:+ "_" +:+ targetCurrency.

(** The row mapping of [data.map(currency => ({...}))]. *)
Definition to_config (r : CurrencyRow) : CurrencyConfig :=
  {| code := Schema.code r;
     name := Schema.name r;
     symbol := Schema.symbol r;
     symbolPosition := symbol_position r;
     decimalPlaces := decimal_places r;
     isActive := is_active r;
     isBaseCurrency := is_base_currency r |}.

(** [.order('code')]: ascending order of the [code] column, here the
    code point order of [String.leb]. *)
Fixpoint insert_by_code (r : CurrencyRow) (rows : list CurrencyRow)
  : list CurrencyRow :=
  match rows with
  | [] => [r]
  | r' :: rest =>
      if String.leb (Schema.code r) (Schema.code r')
      then r :: rows
      else r' :: insert_by_code r rest
  end.

Definition order_by_code (rows : list CurrencyRow) : list CurrencyRow :=
  fold_right insert_by_code [] rows.

(** [getSupportedCurrencies()]:
    [from('currency_config').select('*').eq('is_active', true).order('code')]
    and the row mapping.  The query itself is taken to succeed. *)
Definition getSupportedCurrencies (st : State) : result (list CurrencyConfig) :=
  let data := order_by_code (List.filter is_active (currency_config (db st))) in
  Ok (map to_config data).

(** [.single()]: exactly one row, or the error PGRST116. *)
Definition single {A} (rows : list A) : result A :=
  match rows with
  | [r] => Ok r
  | _ => Err PGRST116
  end.

(** [getBaseCurrency()]:
    [.eq('is_base_currency', true).eq('is_active', true).single()];
    [if (error) throw error]. *)
Definition getBaseCurrency (st : State) : result CurrencyConfig :=
  data ← single (List.filter (fun r => is_base_currency r && is_active r)
                             (currency_config (db st)));
  Ok (to_config data).

(** [getCurrentExchangeRate(baseCurrency, targetCurrency)] called on the
    class.  [now] is [Date.now()] on the client, [db_now] the instant at
    which the database runs the remote procedure.  The function returns
    a number on every path: an error of the procedure is caught and
    becomes [1.0]. *)
Definition getCurrentExchangeRate (st : State) (now db_now : Z)
    (baseCurrency targetCurrency : string) : number * State :=
  if String.eqb baseCurrency targetCurrency then (1%Q, st)
  else
    let key := cacheKey baseCurrency targetCurrency in
    let fetch :=
      match get_current_exchange_rate (db st) db_now
              baseCurrency targetCurrency with
      | Ok data =>
          let rate := if Qeq_bool data 0 then 1%Q else data in   (* data || 1.0 *)
          (rate,
           {| db := db st;
              cachedRates :=
                <[key := {| cached_rate := rate; cached_timestamp := now |}]>
                  (cachedRates st) |})
      | Err _ => (1%Q, st)
      end in
    match cachedRates st !! key with
    | Some cached =>
        if now - cached_timestamp cached <? CACHE_DURATION
        then (cached_rate cached, st)
        else fetch
    | None => fetch
    end.

(** [convertCurrency(amount, fromCurrency, toCurrency)].  The product is
    the exact one (see Numbers at the head of the file). *)
Definition convertCurrency (st : State) (now db_now : Z)
    (amount : number) (fromCurrency toCurrency : string)
  : CurrencyConversion * State :=
  let '(exchangeRate, st') :=
    getCurrentExchangeRate st now db_now fromCurrency toCurrency in
  let convertedAmount := (amount * exchangeRate)%Q in
  ({| originalAmount := amount;
      convertedAmount := convertedAmount;
      fromCurrency := fromCurrency;
      toCurrency := toCurrency;
      exchangeRate := exchangeRate;
      timestamp := now |}, st').

(** [formatCurrency(amount, currencyCode)] *)
Definition formatCurrency (st : State) (amount : Number)
    (currencyCode : string) : result string :=
  currencies ← getSupportedCurrencies st;
  match List.find (fun c => String.eqb (code c) currencyCode) currencies with
  | None =>
      a ← toFixed amount 2;
      Ok (currencyCode +:+ " " +:+ a)
  | Some currency =>
      formattedAmount ← toFixed amount (decimalPlaces currency);
      match symbolPosition currency with
      | before => Ok (symbol currency +:+ formattedAmount)
      | after => Ok (formattedAmount +:+ " " +:+ symbol currency)
      end
  end.

(** [updateExchangeRate(baseCurrency, targetCurrency, rate, source,
    isManualOverride)] called on the class.  An error of the remote
    procedure is logged and thrown again; the cache entry is deleted only
    after the procedure has succeeded. *)
Definition updateExchangeRate (st : State) (db_now : Z)
    (baseCurrency targetCurrency : string) (rate : number)
    (source : string) (isManualOverride : bool) : result State :=
  db' ← update_exchange_rate (db st) db_now baseCurrency targetCurrency
                             rate source isManualOverride;
  let key := cacheKey baseCurrency targetCurrency in
  Ok {| db := db'; cachedRates := delete key (cachedRates st) |}.

(** [clearCache()] *)
Definition clearCache (st : State) : State :=
  {| db := db st; cachedRates := ∅ |}.

End CurrencyUtils.

(** ** The discount engine

    The sources declare the types ([CartItem], [Discount],
    [DiscountCondition], [Sale], [AppliedDiscount]) but hold no code that
    evaluates conditions or prices a cart.  The records below follow the
    declarations; the functions follow the specification. *)

Module DiscountEngine.

Inductive DiscountType : Type := percentage | fixed | bogo | free_gift.

Inductive ConditionType : Type :=
  | min_amount | specific_products | payment_method
  | customer_tier | card_type | bank_name.

Inductive Operator : Type := equals | greater_than | less_than | in_array.

(** The field [value: any] of a condition. *)
Inductive Value : Type :=
  | VNum (q : Q)
  | VStr (s : string)
  | VList (l : list string).

Record DiscountCondition : Type := {
  c_type : ConditionType;
  c_value : Value;
  operator : option Operator;
  minQuantity : option Q
}.

Record Discount : Type := {
  id : string;
  name : string;
  type : DiscountType;
  value : Q;
  conditions : list DiscountCondition;
  freeGiftProducts : list string;
  minAmount : option Q;
  maxDiscount : option Q;
  validFrom : Z;
  validTo : Z;
  validDays : option (list Z);
  active : bool
}.

Inductive LineDiscountType : Type := line_percentage | line_fixed.

(** [interface CartItem]: [product] is reduced to its reference and unit
    price; [batchId] is left out. *)
Record CartLine : Type := {
  productRef : string;
  unitPrice : Q;
  quantity : Q;
  weight : option Q;               (* for weight-based products *)
  lineDiscount : Q;
  lineDiscountType : LineDiscountType;
  computedSubtotal : Q
}.

(** The cart with the customer and payment data the conditions read, the
    instant of the sale and its tax rate. *)
Record Cart : Type := {
  lines : list CartLine;
  paymentMethod : option string;
  customerTier : option string;
  cardType : option string;
  bankName : option string;
  instant : Z;
  weekday : Z;
  taxRate : Q
}.

Record AppliedDiscount : Type := {
  discountId : string;
  discountName : string;
  a_discountAmount : Q;
  a_type : DiscountType
}.

Record PricedCartSnapshot : Type := {
  subtotal : Q;
  discountAmount : Q;
  taxAmount : Q;
  total : Q;
  appliedDiscounts : list AppliedDiscount;
  freeGifts : list CartLine
}.

(** The sum of a list of amounts. *)
Definition Qsum (l : list Q) : Q := fold_right Qplus 0%Q l.

(** Modelled from the spec: step 1 of the pricing algorithm counts a
    line by its quantity, or by its weight when it is weight-based. *)
Definition line_units (l : CartLine) : Q :=
  match weight l with
  | Some w => w
  | None => quantity l
  end.

(** Modelled from the spec: the raw subtotal of the cart, before any
    discount. *)
Definition raw_subtotal (c : Cart) : Q :=
  Qsum (map (fun l => line_units l * unitPrice l)%Q (lines c)).

(** Modelled from the spec: the cart is structurally invalid when it has
    no lines or a negative quantity or weight. *)
Definition valid_cart (c : Cart) : bool :=
  negb (Nat.eqb (length (lines c)) 0)
  && forallb (fun l => Qle_bool 0 (line_units l)) (lines c).

(** Modelled from the spec: the product set a [specific_products]
    condition refers to. *)
Definition referenced_products (v : Value) : list string :=
  match v with
  | VList l => l
  | VStr s => [s]
  | VNum _ => []
  end.

(** Membership of a string in a list of strings. *)
Definition in_set (s : string) (l : list string) : bool :=
  existsb (String.eqb s) l.

(** Modelled from the spec: the total units in the cart across a product
    set. *)
Definition matched_units (c : Cart) (products : list string) : Q :=
  Qsum (map quantity
            (List.filter (fun l => in_set (productRef l) products) (lines c))).

(** Modelled from the spec: comparison of a present field with the
    condition's value, directed by the operator (equality by default). *)
Definition compare_field (op : option Operator) (field : string) (v : Value)
  : bool :=
  match op, v with
  | (None | Some equals), VStr s => String.eqb field s
  | Some in_array, VList l => in_set field l
  | Some greater_than, VStr s => String.ltb s field
  | Some less_than, VStr s => String.ltb field s
  | _, _ => false
  end.

(** Modelled from the spec: the condition types that compare a customer
    or payment field, which the context may lack. *)
Definition reads_context_field (t : ConditionType) : bool :=
  match t with
  | payment_method | customer_tier | card_type | bank_name => true
  | min_amount | specific_products => false
  end.

(** Modelled from the spec: the cart, customer or payment field a
    condition reads; [None] when the context does not have it. *)
Definition context_field (t : ConditionType) (c : Cart) : option string :=
  match t with
  | payment_method => paymentMethod c
  | customer_tier => customerTier c
  | card_type => cardType c
  | bank_name => bankName c
  | min_amount | specific_products => None
  end.

(** Modelled from the spec: the condition evaluator, which is not among
    the sources: [matches(condition, cartContext)] of the
    DiscountConditionEvaluator; the context is the cart and its subtotal
    before discounts. *)
Definition matches (cond : DiscountCondition) (c : Cart) (sub : Q) : bool :=
  match c_type cond with
  | min_amount =>
      match c_value cond with
      | VNum v => Qle_bool v sub
      | _ => false
      end
  | specific_products =>
      Qle_bool (default 1%Q (minQuantity cond))
               (matched_units c (referenced_products (c_value cond)))
  | t =>
      match context_field t c with
      | Some field => compare_field (operator cond) field (c_value cond)
      | None => false
      end
  end.

(** Modelled from the spec: step 2, the applicability window. *)
Definition in_window (d : Discount) (c : Cart) : bool :=
  active d
  && (validFrom d <=? instant c) && (instant c <=? validTo d)
  && match validDays d with
     | Some days => existsb (Z.eqb (weekday c)) days
     | None => true
     end.

(** Modelled from the spec: step 3, the conditions combined with AND. *)
Definition conditions_hold (d : Discount) (c : Cart) (sub : Q) : bool :=
  forallb (fun cond => matches cond c sub) (conditions d).

(** Modelled from the spec: the safety check of [minAmount] in step 4. *)
Definition meets_min_amount (d : Discount) (sub : Q) : bool :=
  match minAmount d with
  | Some m => Qle_bool m sub
  | None => true
  end.

(** Modelled from the spec: the discounts that survive steps 2 to 4. *)
Definition applicable (d : Discount) (c : Cart) (sub : Q) : bool :=
  in_window d c && conditions_hold d c sub && meets_min_amount d sub.

(** Modelled from the spec: the free units of a buy-N-get-one discount,
    line by line over the products of its [specific_products] condition;
    a remainder below N gives nothing. *)
Definition bogo_amount (d : Discount) (c : Cart) : Q :=
  match List.find (fun cond => match c_type cond with
                               | specific_products => true
                               | _ => false
                               end) (conditions d) with
  | Some cond =>
      let n := default 1%Q (minQuantity cond) in
      if Qle_bool n 0 then 0%Q
      else
        Qsum (map (fun l => inject_Z (Qfloor (quantity l / n)) * unitPrice l)%Q
                  (List.filter
                     (fun l => in_set (productRef l)
                                      (referenced_products (c_value cond)))
                     (lines c)))
  | None => 0%Q
  end.

(** Modelled from the spec: step 4, the contribution of one discount,
    given the subtotal and what remains of it after the discounts before
    this one. *)
Definition contribution (d : Discount) (c : Cart) (sub remaining : Q) : Q :=
  match type d with
  | percentage =>
      let raw := (sub * value d / 100)%Q in
      let capped := match maxDiscount d with
                    | Some m => Qmin raw m
                    | None => raw
                    end in
      Qmin capped sub
  | fixed => Qmin (value d) remaining
  | bogo => bogo_amount d c
  | free_gift => 0%Q
  end.

(** Modelled from the spec: the zero-price lines a [free_gift] discount
    adds to [freeGifts]. *)
Definition gift_lines (d : Discount) : list CartLine :=
  match type d with
  | free_gift =>
      map (fun p => {| productRef := p; unitPrice := 0%Q;
                       quantity := 1%Q; weight := None;
                       lineDiscount := 0%Q; lineDiscountType := line_fixed;
                       computedSubtotal := 0%Q |})
          (freeGiftProducts d)
  | _ => []
  end.

(** Modelled from the spec: steps 4 and 6 over the surviving discounts, in
    declaration order; a discount is recorded when its amount is not zero
    or it adds a free gift. *)
Fixpoint apply_discounts (ds : list Discount) (c : Cart) (sub remaining : Q)
  : list AppliedDiscount * list CartLine :=
  match ds with
  | [] => ([], [])
  | d :: rest =>
      let amount := contribution d c sub remaining in
      let gifts := gift_lines d in
      let '(applied, more_gifts) :=
        apply_discounts rest c sub (remaining - amount)%Q in
      if negb (Qeq_bool amount 0) || negb (Nat.eqb (length gifts) 0)
      then ({| discountId := id d; discountName := name d;
               a_discountAmount := amount; a_type := type d |} :: applied,
            gifts ++ more_gifts)
      else (applied, more_gifts)
  end.

(** Modelled from the spec: the pricing function, which is not among the
    sources: [price(cart, appliedContext)] of the DiscountEngine, steps 1
    to 6. *)
Definition price (c : Cart) (discounts : list Discount)
  : result PricedCartSnapshot :=
  check (valid_cart c) InvalidCartError;;
  let sub := raw_subtotal c in
  let surviving := List.filter (fun d => applicable d c sub) discounts in
  let '(applied, gifts) := apply_discounts surviving c sub sub in
  let discountAmount := Qsum (map a_discountAmount applied) in
  let taxAmount := ((sub - discountAmount) * taxRate c)%Q in
  Ok {| subtotal := sub;
        discountAmount := discountAmount;
        taxAmount := taxAmount;
        total := Qmax 0 (sub - discountAmount + taxAmount);
        appliedDiscounts := applied;
        freeGifts := gifts |}.

End DiscountEngine.

(** The scenario of the specification: a subtotal of 150.00, one 10 percent
    discount under the condition [min_amount = 100], tax at 8.75 percent;
    and a discount for card payments on a cash sale. *)
Module DiscountScenario.
Import DiscountEngine.

Definition cash_cart : Cart :=
  {| lines := [ {| productRef := "P"; unitPrice := 50%Q; quantity := 3%Q;
                   weight := None; lineDiscount := 0%Q;
                   lineDiscountType := line_fixed;
                   computedSubtotal := 150%Q |} ];
     paymentMethod := Some "cash";
     customerTier := None;
     cardType := None;
     bankName := None;
     instant := 5;
     weekday := 1;
     taxRate := 0.0875%Q |}.

Definition ten_percent : Discount :=
  {| id := "d1"; name := "Ten percent over 100"; type := percentage;
     value := 10%Q;
     conditions := [ {| c_type := min_amount; c_value := VNum 100%Q;
                        operator := None; minQuantity := None |} ];
     freeGiftProducts := []; minAmount := None; maxDiscount := None;
     validFrom := 0; validTo := 10; validDays := None; active := true |}.

Definition visa_only : DiscountCondition :=
  {| c_type := card_type; c_value := VStr "visa";
     operator := Some equals; minQuantity := None |}.

Definition visa_discount : Discount :=
  {| id := "d2"; name := "Visa 5 off"; type := fixed; value := 5%Q;
     conditions := [ visa_only ];
     freeGiftProducts := []; minAmount := None; maxDiscount := None;
     validFrom := 0; validTo := 10; validDays := None; active := true |}.

End DiscountScenario.

Import CurrencyUtils.

(** ** Vocabulary of the properties *)

Module Store.

(** A record is active, in the sense of the data model, when its
    [effective_to] is NULL. *)
Definition is_open (b t : string) (r : ExchangeRateRow) : bool :=
  for_pair b t r && match effective_to r with None => true | Some _ => false end.

Definition open_records (db : Db) (b t : string) : list ExchangeRateRow :=
  List.filter (is_open b t) (exchange_rates db).

(** Supersession: at most one active record per pair. *)
Definition supersession_inv (db : Db) : Prop :=
  forall b t, (length (open_records db b t) <= 1)%nat.

(** No record has a closing instant after [now]. *)
Definition closed_in_past (db : Db) (now : Z) : Prop :=
  forall r t', In r (exchange_rates db) -> effective_to r = Some t' -> t' <= now.

(** One call of [update_exchange_rate], with the instant at which the
    database runs it. *)
Record UpdateCall : Type := {
  u_now : Z;
  u_base : string;
  u_target : string;
  u_rate : Q;
  u_source : string;
  u_manual : bool
}.

(** A call that raises leaves the database as it was. *)
Definition apply_update (db : Db) (c : UpdateCall) : Db :=
  match update_exchange_rate db (u_now c) (u_base c) (u_target c)
                             (u_rate c) (u_source c) (u_manual c) with
  | Ok db' => db'
  | Err _ => db
  end.

Definition run_updates (db : Db) (calls : list UpdateCall) : Db :=
  fold_left apply_update calls db.

(** The calls run at instants that do not go back, from [now] on. *)
Fixpoint chronological (now : Z) (calls : list UpdateCall) : Prop :=
  match calls with
  | [] => True
  | c :: rest => now <= u_now c /\ chronological (u_now c) rest
  end.

Definition last_instant (now : Z) (calls : list UpdateCall) : Z :=
  fold_left (fun _ c => u_now c) calls now.

(** What the column type DECIMAL(15,8) and the constraint
    [exchange_rates_rate_positive] say of every stored rate. *)
Definition valid_rates (db : Db) : Prop :=
  forall r, In r (exchange_rates db) -> (0 < rate r)%Q /\ (rate r < 10000000)%Q.

(** The store as updates at successive instants leave it, seen at [now]. *)
Definition store_ok (db : Db) (now : Z) : Prop :=
  supersession_inv db /\ closed_in_past db now /\ valid_rates db.

(** [r] is the active record of the pair. *)
Definition active_record (db : Db) (b t : string) (r : ExchangeRateRow) : Prop :=
  In r (exchange_rates db) /\ is_open b t r = true.

(** The static cache holds no entry for the pair that is younger than
    [CACHE_DURATION] at client time [now]. *)
Definition cache_miss (st : State) (now : Z) (b t : string) : Prop :=
  match cachedRates st !! cacheKey b t with
  | Some cached => CACHE_DURATION <= now - cached_timestamp cached
  | None => True
  end.

(** The order of [.order('code')] on rows. *)
Definition code_le (r1 r2 : CurrencyRow) : Prop :=
  String.le (Schema.code r1) (Schema.code r2).

(** The rows [getSupportedCurrencies] and [getBaseCurrency] select. *)
Definition active_currencies (st : State) : list CurrencyRow :=
  List.filter is_active (currency_config (db st)).

Definition active_bases (st : State) : list CurrencyRow :=
  List.filter (fun r => is_base_currency r && is_active r)
              (currency_config (db st)).

(** The constraint [UNIQUE] on [currency_config.code]. *)
Definition unique_codes (st : State) : Prop :=
  List.NoDup (map Schema.code (currency_config (db st))).

End Store.
Import Store.

(** ** Concrete runs used as examples *)

Module Scenario.

Definition usd_eur_085 : UpdateCall :=
  {| u_now := 10; u_base := "USD"; u_target := "EUR"; u_rate := 0.85%Q;
     u_source := "api"; u_manual := false |}.

Definition usd_eur_090 : UpdateCall :=
  {| u_now := 20; u_base := "USD"; u_target := "EUR"; u_rate := 0.9%Q;
     u_source := "manual"; u_manual := true |}.

(** The same two updates in a session whose time zone is five and a
    half hours ahead of UTC (19800 seconds), at instants 30000 and 40000. *)
Definition colombo_085 : UpdateCall :=
  {| u_now := 30000; u_base := "USD"; u_target := "EUR"; u_rate := 0.85%Q;
     u_source := "api"; u_manual := false |}.

Definition colombo_090 : UpdateCall :=
  {| u_now := 40000; u_base := "USD"; u_target := "EUR"; u_rate := 0.9%Q;
     u_source := "manual"; u_manual := true |}.

Definition db_colombo_once : Db :=
  apply_update (empty_db_in (fixed_offset 19800)) colombo_085.

Definition db_colombo_twice : Db := apply_update db_colombo_once colombo_090.

Definition st_colombo : State := {| db := db_colombo_twice; cachedRates := ∅ |}.

(** A jump from 0.85 to 100. *)
Definition usd_eur_100 : UpdateCall :=
  {| u_now := 20; u_base := "USD"; u_target := "EUR"; u_rate := 100%Q;
     u_source := "manual"; u_manual := true |}.

(** The empty store after [update('USD','EUR',0.85)] at instant 10, and
    after [update('USD','EUR',0.9)] at instant 20. *)
Definition db_once : Db := apply_update empty_db usd_eur_085.
Definition db_twice : Db := apply_update db_once usd_eur_090.

(** The same two updates through [CurrencyUtils], with a read of the
    reverse direction in between: the read at client time 0 fills the cache
    entry "EUR_USD". *)
Definition st_once : State := {| db := db_once; cachedRates := ∅ |}.

Definition st_read : State :=
  snd (getCurrentExchangeRate st_once 0 15 "EUR" "USD").

Definition st_updated : State :=
  match updateExchangeRate st_read 20 "USD" "EUR" 0.9%Q "manual" true with
  | Ok st => st
  | Err _ => st_read
  end.

(** A read of USD to EUR at client time 0, which caches 0.85 under
    "USD_EUR", and the update of that pair to 0.9 after it. *)
Definition st_cached : State :=
  snd (getCurrentExchangeRate st_once 0 15 "USD" "EUR").

Definition st_cached_updated : State :=
  match updateExchangeRate st_cached 20 "USD" "EUR" 0.9%Q "manual" true with
  | Ok st => st
  | Err _ => st_cached
  end.

(** A same-currency update, as the rate refresh issues for the base
    currency itself. *)
Definition st_usd_usd : State :=
  match updateExchangeRate initial_state 10 "USD" "USD" 2%Q "api" false with
  | Ok st => st
  | Err _ => initial_state
  end.

(** A read of EUR to USD on the empty store at client time 0 (it caches
    the fallback 1.0 under "EUR_USD"), then [update('USD','EUR',0.85)]. *)
Definition st_early_read : State :=
  snd (getCurrentExchangeRate initial_state 0 5 "EUR" "USD").

Definition st_then_updated : State :=
  match updateExchangeRate st_early_read 10 "USD" "EUR" 0.85%Q "api" false with
  | Ok st => st
  | Err _ => st_early_read
  end.

(** A currency table with the three shapes of row the seed data has. *)
Definition st_config : State :=
  {| db := {| exchange_rates := [];
              exchange_rate_history := [];
              currency_config :=
                [ {| Schema.code := "USD"; Schema.name := "US Dollar";
                     Schema.symbol := "$"; symbol_position := before;
                     decimal_places := 2; is_active := true;
                     is_base_currency := true |};
                  {| Schema.code := "JPY"; Schema.name := "Japanese Yen";
                     Schema.symbol := "Y"; symbol_position := before;
                     decimal_places := 0; is_active := true;
                     is_base_currency := false |};
                  {| Schema.code := "CHF"; Schema.name := "Swiss Franc";
                     Schema.symbol := "CHF"; symbol_position := after;
                     decimal_places := 2; is_active := true;
                     is_base_currency := false |} ];
              time_zone := utc |};
     cachedRates := ∅ |}.

End Scenario.
Import Scenario.

(** ** The rest of the schema functions *)

Module Amounts.

(** [convert_currency_amount(p_amount, p_from_currency, p_to_currency)].
    The locals are [exchange_rate DECIMAL(15,8)] and [converted_amount
    DECIMAL(12,2)]; the type modifier of the parameter [p_amount] is
    dropped, as for [p_rate]. *)
Definition convert_currency_amount (db : Db) (now : Z) (p_amount : Q)
    (p_from_currency p_to_currency : string) : result Q :=
  r ← get_current_exchange_rate db now p_from_currency p_to_currency;
  exchange_rate ← to_decimal 15 8 r;
  to_decimal 12 2 (p_amount * exchange_rate)%Q.

End Amounts.

(** ** [ORDER BY]: insertion in order *)

Module Ordering.

Fixpoint insert_by {A} (leb : A -> A -> bool) (x : A) (l : list A) : list A :=
  match l with
  | [] => [x]
  | y :: rest => if leb x y then x :: l else y :: insert_by leb x rest
  end.

Definition order_by {A} (leb : A -> A -> bool) (l : list A) : list A :=
  fold_right (insert_by leb) [] l.

End Ordering.

(** ** [CurrencyUtils]: the queries and helpers *)

Module CurrencyQueries.
Import Ordering.

(** [interface ExchangeRate] ([id], [createdAt], [updatedAt] left out, as
    in the table); a [Date] is the instant it holds. *)
Record ExchangeRate : Type := {
  baseCurrency : string;
  targetCurrency : string;
  rate : number;
  source : string;
  isManualOverride : bool;
  effectiveFrom : Z;
  effectiveTo : option Z
}.

(** The row mapping of [getAllCurrentRates]. *)
Definition to_exchange_rate (r : ExchangeRateRow) : ExchangeRate :=
  {| baseCurrency := base_currency r;
     targetCurrency := target_currency r;
     rate := Schema.rate r;
     source := Schema.source r;
     isManualOverride := is_manual_override r;
     effectiveFrom := effective_from r;
     effectiveTo := effective_to r |}.

(** [.eq('base_currency', baseCurrency).is('effective_to', null)] *)
Definition open_for_base (b : string) (r : ExchangeRateRow) : bool :=
  String.eqb (base_currency r) b
  && match effective_to r with None => true | Some _ => false end.

(** [.order('target_currency')] *)
Definition target_leb (r1 r2 : ExchangeRateRow) : bool :=
  String.leb (target_currency r1) (target_currency r2).

(** [getAllCurrentRates(baseCurrency)]; the query is taken to succeed. *)
Definition getAllCurrentRates (st : State) (b : string)
  : result (list ExchangeRate) :=
  let data := order_by target_leb
                (List.filter (open_for_base b) (exchange_rates (db st))) in
  Ok (map to_exchange_rate data).

(** [interface ExchangeRateHistory] ([id] left out). *)
Record ExchangeRateHistory : Type := {
  hBaseCurrency : string;
  hTargetCurrency : string;
  hRate : number;
  previousRate : option number;
  changePercentage : option number;
  hSource : string;
  hIsManualOverride : bool;
  recordedAt : Z
}.

(** The row mapping of [getExchangeRateHistory]. *)
Definition to_history (h : HistoryRow) : ExchangeRateHistory :=
  {| hBaseCurrency := h_base_currency h;
     hTargetCurrency := h_target_currency h;
     hRate := h_rate h;
     previousRate := previous_rate h;
     changePercentage := change_percentage h;
     hSource := h_source h;
     hIsManualOverride := h_is_manual_override h;
     recordedAt := recorded_at h |}.

(** [.eq('base_currency', b).eq('target_currency', t)] on the history. *)
Definition history_for_pair (b t : string) (h : HistoryRow) : bool :=
  String.eqb (h_base_currency h) b && String.eqb (h_target_currency h) t.

(** [.order('recorded_at', { ascending: false })] *)
Definition newer_leb (h1 h2 : HistoryRow) : bool :=
  recorded_at h2 <=? recorded_at h1.

(** [getExchangeRateHistory(baseCurrency, targetCurrency, limit)], for a
    limit that is a natural number; the query is taken to succeed. *)
Definition getExchangeRateHistory (st : State) (b t : string) (limit : nat)
  : result (list ExchangeRateHistory) :=
  let data := firstn limit
                (order_by newer_leb
                   (List.filter (history_for_pair b t)
                                (exchange_rate_history (db st)))) in
  Ok (map to_history data).

(** [isValidCurrency(currencyCode)] *)
Definition isValidCurrency (st : State) (currencyCode : string) : result bool :=
  currencies ← getSupportedCurrencies st;
  Ok (existsb (fun c => String.eqb (code c) currencyCode) currencies).

(** [getCurrencyByCode(currencyCode)]; [None] is [null]. *)
Definition getCurrencyByCode (st : State) (currencyCode : string)
  : result (option CurrencyConfig) :=
  currencies ← getSupportedCurrencies st;
  Ok (List.find (fun c => String.eqb (code c) currencyCode) currencies).

(** [getCurrencySymbol(currencyCode)]: [currency?.symbol || currencyCode];
    the empty string is falsy. *)
Definition getCurrencySymbol (st : State) (currencyCode : string)
  : result string :=
  currency ← getCurrencyByCode st currencyCode;
  Ok (match currency with
      | Some c => if String.eqb (symbol c) "" then currencyCode else symbol c
      | None => currencyCode
      end).

(** One element of the argument of [batchConvert]. *)
Record BatchItem : Type := {
  amount : number;
  itemFrom : string;               (* fromCurrency *)
  itemTo : string                  (* toCurrency *)
}.

(** What the two clocks read while one call runs. *)
Record Tick : Type := {
  client_now : Z;                  (* Date.now() *)
  server_now : Z                   (* NOW() *)
}.

(** [batchConvert(amounts)]: the loop awaits one [convertCurrency] after
    the other; each item comes with the clock readings of its turn. *)
Fixpoint batchConvert (st : State) (amounts : list (Tick * BatchItem))
  : list CurrencyConversion * State :=
  match amounts with
  | [] => ([], st)
  | (tk, item) :: rest =>
      let '(conversion, st1) :=
        convertCurrency st (client_now tk) (server_now tk)
                        (amount item) (itemFrom item) (itemTo item) in
      let '(conversions, st2) := batchConvert st1 rest in
      (conversion :: conversions, st2)
  end.

Section Staleness.

(** [new Date(ts).getTime()]: the milliseconds of a database timestamp. *)
Variable getTime : Z -> Z.


End Staleness.

End CurrencyQueries.

(** ** The module-level exports of [currencyUtils.ts]

    The file ends with [export const { getSupportedCurrencies, ...,
    updateExchangeRate, ... } = CurrencyUtils;].  A method taken out of the
    class this way and called as a plain function runs with [this]
    undefined (module code is strict), so reading [this.cachedRates] throws
    a TypeError.  The methods below take their receiver as an argument. *)

Module Exports.

Inductive This : Type :=
  | the_class                      (* CurrencyUtils.f(...) *)
  | undefined.                     (* f(...), the destructured export *)

Inductive thrown : Type :=
  | TypeError                      (* reading a property of undefined *)
  | Raised (e : error).            (* an error of the remote procedure *)

Inductive outcome (A : Type) : Type :=
  | Returned (a : A)
  | Thrown (e : thrown).
Arguments Returned {A} a.
Arguments Thrown {A} e.

(** [updateExchangeRate] with its receiver.  The remote procedure runs
    first; [this.cachedRates.delete(cacheKey)] comes after it, inside the
    [try], and what it throws is logged and thrown again. *)
Definition updateExchangeRate_on (this : This) (st : State) (db_now : Z)
    (baseCurrency targetCurrency : string) (rate : number)
    (source : string) (isManualOverride : bool) : outcome unit * State :=
  match update_exchange_rate (db st) db_now baseCurrency targetCurrency
                             rate source isManualOverride with
  | Err e => (Thrown (Raised e), st)
  | Ok db' =>
      match this with
      | the_class =>
          (Returned tt,
           {| db := db';
              cachedRates := delete (cacheKey baseCurrency targetCurrency)
                                    (cachedRates st) |})
      | undefined =>
          (Thrown TypeError, {| db := db'; cachedRates := cachedRates st |})
      end
  end.

(** [getCurrentExchangeRate] with its receiver: the same-currency guard
    comes before the first use of [this], which is outside the [try]. *)
Definition getCurrentExchangeRate_on (this : This) (st : State)
    (now db_now : Z) (baseCurrency targetCurrency : string)
  : outcome number * State :=
  if String.eqb baseCurrency targetCurrency then (Returned 1%Q, st)
  else
    match this with
    | the_class =>
        let '(rate, st') :=
          getCurrentExchangeRate st now db_now baseCurrency targetCurrency in
        (Returned rate, st')
    | undefined => (Thrown TypeError, st)
    end.

(** [convertCurrency] with its receiver: it starts with
    [this.getCurrentExchangeRate(...)]. *)
Definition convertCurrency_on (this : This) (st : State) (now db_now : Z)
    (amount : number) (fromCurrency toCurrency : string)
  : outcome CurrencyConversion * State :=
  match this with
  | the_class =>
      let '(conversion, st') :=
        convertCurrency st now db_now amount fromCurrency toCurrency in
      (Returned conversion, st')
  | undefined => (Thrown TypeError, st)
  end.

End Exports.

(** ** [ExchangeRateService] (lib/exchangeRateService.ts)

    The service imports the destructured [updateExchangeRate]. *)

Module ExchangeRateService.
Import Exports.

Inductive Provider : Type := fixer | currencylayer | exchangerate | manual.

(** The fields of the service that its update reads and writes. *)
Record Service : Type := {
  provider : Provider;
  fallbackRates : list (string * number);   (* config.fallbackRates *)
  isUpdating : bool;
  lastUpdateTime : option Z
}.

(** [updateRatesInDatabase(rates, source)]: one call of the exported
    [updateExchangeRate] per entry of [rates], base 'USD'; what a call
    throws is logged and the loop goes on.  [clock i] is the instant at
    which the database runs the [i]-th call. *)
Fixpoint updateRatesInDatabase (clock : nat -> Z) (i : nat) (st : State)
    (rates : list (string * number)) (source : string) : State :=
  match rates with
  | [] => st
  | (targetCurrency, rate) :: rest =>
      let st1 := snd (updateExchangeRate_on undefined st (clock i)
                        "USD" targetCurrency rate source false) in
      updateRatesInDatabase clock (S i) st1 rest source
  end.

(** [updateManualRate(baseCurrency, targetCurrency, rate)] *)
Definition updateManualRate (st : State) (db_now : Z)
    (baseCurrency targetCurrency : string) (rate : number)
  : outcome unit * State :=
  updateExchangeRate_on undefined st db_now baseCurrency targetCurrency
                        rate "manual" true.

(** [updateExchangeRates()].  [fetched] is what the provider call of the
    [switch] yields: the rates, or [None] when it throws; for the provider
    [manual] the rates are the configured fallback rates.  [now] is the
    client clock at [new Date()]. *)
Definition updateExchangeRates (svc : Service) (st : State)
    (fetched : option (list (string * number))) (clock : nat -> Z) (now : Z)
  : bool * Service * State :=
  if isUpdating svc then (false, svc, st)
  else
    let rates := match provider svc with
                 | manual => Some (fallbackRates svc)
                 | _ => fetched
                 end in
    match rates with
    | Some rates =>
        let st' := updateRatesInDatabase clock 0 st rates "api" in
        (true,
         {| provider := provider svc; fallbackRates := fallbackRates svc;
            isUpdating := false; lastUpdateTime := Some now |},
         st')
    | None =>
        let st' := updateRatesInDatabase clock 0 st (fallbackRates svc)
                                         "fallback" in
        (false,
         {| provider := provider svc; fallbackRates := fallbackRates svc;
            isUpdating := false; lastUpdateTime := lastUpdateTime svc |},
         st')
    end.

(** The calls of [update_exchange_rate] a run of [updateRatesInDatabase]
    issues. *)
Fixpoint calls_of (clock : nat -> Z) (i : nat)
    (rates : list (string * number)) (source : string) : list UpdateCall :=
  match rates with
  | [] => []
  | (targetCurrency, rate) :: rest =>
      {| u_now := clock i; u_base := "USD"; u_target := targetCurrency;
         u_rate := rate; u_source := source; u_manual := false |}
      :: calls_of clock (S i) rest source
  end.

End ExchangeRateService.

(** ** [currencyReducer] (context/CurrencyContext.tsx) *)

Module CurrencyContext.
Import CurrencyQueries.

Record CurrencyState : Type := {
  supportedCurrencies : list CurrencyConfig;
  baseCurrency : option CurrencyConfig;
  displayCurrency : string;
  exchangeRates : list ExchangeRate;
  isLoading : bool;
  error_message : option string;   (* error *)
  lastUpdateTime : option Z
}.

Inductive CurrencyAction : Type :=
  | SET_LOADING (payload : bool)
  | SET_ERROR (payload : option string)
  | SET_SUPPORTED_CURRENCIES (payload : list CurrencyConfig)
  | SET_BASE_CURRENCY (payload : CurrencyConfig)
  | SET_DISPLAY_CURRENCY (payload : string)
  | SET_EXCHANGE_RATES (payload : list ExchangeRate)
  | SET_LAST_UPDATE_TIME (payload : option Z)
  | UPDATE_EXCHANGE_RATE (base target : string) (new_rate : number).

(** [{ ...rate, rate: action.payload.rate }] for a matching entry. *)
Definition with_rate (base target : string) (new_rate : number)
    (r : ExchangeRate) : ExchangeRate :=
  if String.eqb (CurrencyQueries.baseCurrency r) base
     && String.eqb (targetCurrency r) target
  then {| CurrencyQueries.baseCurrency := CurrencyQueries.baseCurrency r;
          targetCurrency := targetCurrency r;
          rate := new_rate;
          source := source r;
          isManualOverride := isManualOverride r;
          effectiveFrom := effectiveFrom r;
          effectiveTo := effectiveTo r |}
  else r.

Definition currencyReducer (state : CurrencyState) (action : CurrencyAction)
  : CurrencyState :=
  match action with
  | SET_LOADING payload =>
      {| supportedCurrencies := supportedCurrencies state;
         baseCurrency := baseCurrency state;
         displayCurrency := displayCurrency state;
         exchangeRates := exchangeRates state;
         isLoading := payload;
         error_message := error_message state;
         lastUpdateTime := lastUpdateTime state |}
  | SET_ERROR payload =>
      {| supportedCurrencies := supportedCurrencies state;
         baseCurrency := baseCurrency state;
         displayCurrency := displayCurrency state;
         exchangeRates := exchangeRates state;
         isLoading := false;
         error_message := payload;
         lastUpdateTime := lastUpdateTime state |}
  | SET_SUPPORTED_CURRENCIES payload =>
      {| supportedCurrencies := payload;
         baseCurrency := baseCurrency state;
         displayCurrency := displayCurrency state;
         exchangeRates := exchangeRates state;
         isLoading := isLoading state;
         error_message := error_message state;
         lastUpdateTime := lastUpdateTime state |}
  | SET_BASE_CURRENCY payload =>
      {| supportedCurrencies := supportedCurrencies state;
         baseCurrency := Some payload;
         displayCurrency := displayCurrency state;
         exchangeRates := exchangeRates state;
         isLoading := isLoading state;
         error_message := error_message state;
         lastUpdateTime := lastUpdateTime state |}
  | SET_DISPLAY_CURRENCY payload =>
      {| supportedCurrencies := supportedCurrencies state;
         baseCurrency := baseCurrency state;
         displayCurrency := payload;
         exchangeRates := exchangeRates state;
         isLoading := isLoading state;
         error_message := error_message state;
         lastUpdateTime := lastUpdateTime state |}
  | SET_EXCHANGE_RATES payload =>
      {| supportedCurrencies := supportedCurrencies state;
         baseCurrency := baseCurrency state;
         displayCurrency := displayCurrency state;
         exchangeRates := payload;
         isLoading := isLoading state;
         error_message := error_message state;
         lastUpdateTime := lastUpdateTime state |}
  | SET_LAST_UPDATE_TIME payload =>
      {| supportedCurrencies := supportedCurrencies state;
         baseCurrency := baseCurrency state;
         displayCurrency := displayCurrency state;
         exchangeRates := exchangeRates state;
         isLoading := isLoading state;
         error_message := error_message state;
         lastUpdateTime := payload |}
  | UPDATE_EXCHANGE_RATE base target new_rate =>
      {| supportedCurrencies := supportedCurrencies state;
         baseCurrency := baseCurrency state;
         displayCurrency := displayCurrency state;
         exchangeRates := map (with_rate base target new_rate)
                              (exchangeRates state);
         isLoading := isLoading state;
         error_message := error_message state;
         lastUpdateTime := lastUpdateTime state |}
  end.

(** The pair an entry of the rate list is for. *)
Definition pair_of (r : ExchangeRate) : string * string :=
  (CurrencyQueries.baseCurrency r, targetCurrency r).

End CurrencyContext.

(** ** [CurrencyProvider] (context/CurrencyContext.tsx)

    The provider imports the destructured [getCurrentExchangeRate] and
    [convertCurrency] and calls them as plain functions. *)

Module CurrencyProvider.
Import Exports.

(** [getCurrentRate(baseCurrency, targetCurrency)] *)
Definition getCurrentRate (st : State) (now db_now : Z)
    (baseCurrency targetCurrency : string) : outcome number * State :=
  getCurrentExchangeRate_on undefined st now db_now baseCurrency targetCurrency.

(** [convertAmount(amount, fromCurrency, toCurrency)] *)
Definition convertAmount (st : State) (now db_now : Z)
    (amount : number) (fromCurrency toCurrency : string)
  : outcome CurrencyConversion * State :=
  convertCurrency_on undefined st now db_now amount fromCurrency toCurrency.

End CurrencyProvider.

(** ** Vocabulary for the two rate tables *)

Module Ledger.
Import CurrencyQueries.

(** Two rows that differ at most in [effective_to]. *)
Definition same_rate_record (r r' : ExchangeRateRow) : Prop :=
  base_currency r' = base_currency r /\ target_currency r' = target_currency r /\
  Schema.rate r' = Schema.rate r /\ Schema.source r' = Schema.source r /\
  is_manual_override r' = is_manual_override r /\
  effective_from r' = effective_from r.

(** The history entries of a pair, in the order they were appended. *)
Definition pair_history (db : Db) (b t : string) : list HistoryRow :=
  List.filter (history_for_pair b t) (exchange_rate_history db).

(** Each entry names the rate of the entry before it as its previous
    rate; [prev] is what the first entry should name. *)
Fixpoint chained (prev : option Q) (hs : list HistoryRow) : Prop :=
  match hs with
  | [] => True
  | h :: rest => previous_rate h = prev /\ chained (Some (h_rate h)) rest
  end.

(** The history of every pair is a chain from NULL, and its last entry
    carries the rate of the pair's active record. *)
Definition ledger_inv (db : Db) : Prop :=
  forall b t,
    chained None (pair_history db b t) /\
    h_rate <$> last (pair_history db b t)
      = Schema.rate <$> head (open_records db b t).

(** A time zone in which a later wall-clock time is a later instant (no
    clock is set back). *)
Definition increasing (zone : Z -> Z) : Prop :=
  forall w1 w2, w1 < w2 -> zone w1 < zone w2.

(** The history entries of every pair carry increasing instants, the last
    one the start of the pair's active record as the time zone of the
    session reads its UTC wall clock. *)
Definition dated_inv (db : Db) : Prop :=
  forall b t,
    StronglySorted (fun h1 h2 => recorded_at h1 < recorded_at h2)
                   (pair_history db b t) /\
    recorded_at <$> last (pair_history db b t)
      = (fun r => time_zone db (effective_from r))
          <$> head (open_records db b t).

(** Every cached rate is positive. *)
Definition cache_positive (st : State) : Prop :=
  forall k cached, cachedRates st !! k = Some cached -> (0 < cached_rate cached)%Q.

End Ledger.

(** * Proofs *)

(** ** The error monad *)

Lemma bind_ok {A B} (r : result A) (k : A -> result B) (b : B) :
  (r ≫= k) = Ok b -> exists a, r = Ok a /\ k a = Ok b.
Proof.
  destruct r as [a|e]; cbn; intros H; [eauto | discriminate].
Qed.

Lemma check_ok (c : bool) (e : error) (u : unit) : check c e = Ok u -> c = true.
Proof. destruct c; cbn; [reflexivity | discriminate]. Qed.

(** Inversion of a successful monadic computation, one bind at a time. *)
Ltac inv_ok H :=
  repeat match type of H with
         | (_ ≫= _) = Ok _ =>
             let a := fresh "a" in
             let Ha := fresh "Hstep" in
             apply bind_ok in H; destruct H as (a & Ha & H)
         end.

(** ** Coercion to DECIMAL(p,s) *)

Lemma Qfloor_plus_half (m : Z) : Qfloor (inject_Z m + (1 # 2)) = m.
Proof.
  unfold Qfloor, Qplus, inject_Z. cbn [Qnum Qden].
  change (Z.pos (1 * 2)) with 2.
  symmetry. apply Z.div_unique with (r := 1); lia.
Qed.

Lemma round_half_away_Z (m : Z) : round_half_away (inject_Z m) = m.
Proof.
  unfold round_half_away.
  destruct (Qle_bool 0 (inject_Z m)) eqn:E.
  - apply Qfloor_plus_half.
  - assert (H : (- inject_Z m == inject_Z (- m))%Q) by (now rewrite inject_Z_opp).
    rewrite H, Qfloor_plus_half. lia.
Qed.

Lemma round_half_away_comp (x y : Q) :
  (x == y)%Q -> round_half_away x = round_half_away y.
Proof.
  intros E. unfold round_half_away. rewrite E.
  destruct (Qle_bool 0 y); now rewrite E.
Qed.

Lemma pow10_pos (s : nat) : 0 < pow10 s.
Proof. unfold pow10. apply Z.pow_pos_nonneg; lia. Qed.

(** A value that has at most [s] decimals and fits is stored as it is. *)
Lemma to_decimal_exact (p s : nat) (n : Z) :
  Z.abs n < pow10 p ->
  exists v, to_decimal p s (n # Z.to_pos (pow10 s)) = Ok v /\
            (v == n # Z.to_pos (pow10 s))%Q.
Proof.
  intros Hfit. unfold to_decimal.
  assert (E : ((n # Z.to_pos (pow10 s)) * inject_Z (pow10 s) == inject_Z n)%Q).
  { pose proof (pow10_pos s) as Hpos.
    unfold Qeq, Qmult, inject_Z. cbn [Qnum Qden].
    rewrite Pos.mul_1_r, Z.mul_1_r, Z2Pos.id by exact Hpos. reflexivity. }
  cbv zeta. rewrite (round_half_away_comp _ _ E), round_half_away_Z.
  apply Z.ltb_lt in Hfit. rewrite Hfit.
  eexists. split; [reflexivity | apply Qred_correct].
Qed.

(** What is stored in a DECIMAL(15,8) column is below 10^7. *)
Lemma to_decimal_15_8_bound (q v : Q) :
  to_decimal 15 8 q = Ok v -> (v < 10000000)%Q.
Proof.
  unfold to_decimal. destruct (_ <? _) eqn:E; [|discriminate].
  intros [= <-]. apply Z.ltb_lt in E. rewrite Qred_correct.
  unfold Qlt. cbn [Qnum Qden].
  change (Z.pos (Z.to_pos (pow10 8))) with 100000000.
  change (pow10 15) with 1000000000000000 in E. lia.
Qed.

(** ** How far a coercion moves a value *)

Lemma round_half_away_error (x : Q) :
  (Qabs (inject_Z (round_half_away x) - x) <= 1 # 2)%Q.
Proof.
  unfold round_half_away. apply Qabs_Qle_condition.
  destruct (Qle_bool 0 x).
  - pose proof (Qfloor_le (x + (1 # 2))) as Hlo.
    pose proof (Qlt_floor (x + (1 # 2))) as Hhi.
    rewrite inject_Z_plus in Hhi. change (inject_Z 1) with 1%Q in Hhi.
    set (m := inject_Z _) in *. split; lra.
  - pose proof (Qfloor_le (- x + (1 # 2))) as Hlo.
    pose proof (Qlt_floor (- x + (1 # 2))) as Hhi.
    rewrite inject_Z_plus in Hhi. change (inject_Z 1) with 1%Q in Hhi.
    rewrite inject_Z_opp. set (m := inject_Z _) in *. split; lra.
Qed.

Lemma scaled_error (n : Z) (q : Q) (P : positive) :
  (Qabs (inject_Z n - q * inject_Z (Z.pos P)) <= 1 # 2)%Q ->
  (Qabs ((n # P) - q) <= 1 # (2 * P))%Q.
Proof.
  intros H.
  assert (E : ((n # P) - q == (inject_Z n - q * inject_Z (Z.pos P)) * (1 # P))%Q).
  { rewrite (Qmake_Qdiv n P), (Qmake_Qdiv 1 P).
    change (inject_Z 1) with 1%Q. field. discriminate. }
  rewrite E, Qabs_Qmult.
  assert (E2 : (1 # (2 * P) == (1 # 2) * (1 # P))%Q) by reflexivity.
  rewrite E2. apply Qmult_le_compat_r; [exact H|]. discriminate.
Qed.

(** A coercion to [DECIMAL(p,s)] moves a value by at most half a unit of
    the last decimal. *)
Lemma to_decimal_error (p s : nat) (q v : Q) :
  to_decimal p s q = Ok v ->
  (Qabs (v - q) <= 1 # (2 * Z.to_pos (pow10 s)))%Q.
Proof.
  unfold to_decimal. destruct (_ <? _); [|discriminate]. intros [= <-].
  rewrite Qred_correct. apply scaled_error.
  rewrite Z2Pos.id by apply pow10_pos. apply round_half_away_error.
Qed.

(** The integer of hundred-millionths (or of any last decimal) behind a
    coerced value. *)
Lemma to_decimal_units (p s : nat) (q v : Q) :
  to_decimal p s q = Ok v ->
  exists n, Z.abs n < pow10 p /\
            (v == n # Z.to_pos (pow10 s))%Q /\
            (Qabs (inject_Z n - q * inject_Z (pow10 s)) <= 1 # 2)%Q.
Proof.
  unfold to_decimal. destruct (_ <? _) eqn:E; [|discriminate]. intros [= <-].
  eexists. split; [apply Z.ltb_lt; exact E|].
  split; [apply Qred_correct | apply round_half_away_error].
Qed.

(** ** Division of numerics *)

Lemma pow10_le (a b : nat) : (a <= b)%nat -> pow10 a <= pow10 b.
Proof. intros H. unfold pow10. apply Z.pow_le_mono_r; lia. Qed.

(** The scale of a quotient is no less than the display scale of the
    divisor. *)
Lemma select_div_scale_ge (x1 x2 : Q) (dscale1 dscale2 : nat) :
  (dscale2 <= 1000)%nat ->
  (dscale2 <= select_div_scale x1 dscale1 x2 dscale2)%nat.
Proof.
  intros H. unfold select_div_scale.
  destruct (first_digit x1) as [weight1 firstdigit1].
  destruct (first_digit x2) as [weight2 firstdigit2].
  unfold NUMERIC_MAX_DISPLAY_SCALE. lia.
Qed.

Lemma round_to_scale_error (s : nat) (q : Q) :
  (Qabs (round_to_scale s q - q) <= 1 # (2 * Z.to_pos (pow10 s)))%Q.
Proof.
  unfold round_to_scale. rewrite Qred_correct. apply scaled_error.
  rewrite Z2Pos.id by apply pow10_pos. apply round_half_away_error.
Qed.

(** The division moves the quotient by at most half a unit of the eighth
    decimal when the divisor has display scale 8. *)
Lemma numeric_div_error (x1 x2 : Q) (dscale1 : nat) :
  (Qabs (numeric_div x1 dscale1 x2 8 - x1 / x2) <= 1 # 200000000)%Q.
Proof.
  unfold numeric_div.
  pose proof (select_div_scale_ge x1 x2 dscale1 8 ltac:(lia)) as Hs.
  eapply Qle_trans; [apply round_to_scale_error|].
  apply pow10_le in Hs. pose proof (pow10_pos (select_div_scale x1 dscale1 x2 8)).
  change (pow10 8) with 100000000 in Hs.
  unfold Qle. cbn [Qnum Qden]. lia.
Qed.

(** The scales PostgreSQL is known for: [1.0 / 3] has twenty decimals,
    [10.0 / 3] sixteen; and the scale at work in the percentage from
    9876543.21987653 to 6230533.33964174. *)
Example division_scales :
  numeric_div 1 1 3 0 = (33333333333333333333 # 100000000000000000000)%Q /\
  numeric_div 10 1 3 0 = (33333333333333333 # 10000000000000000)%Q /\
  select_div_scale (6230533.33964174 - 9876543.21987653) 8
                   9876543.21987653 8 = 20%nat.
Proof. repeat split; vm_compute; reflexivity. Qed.

(** The percentage before it is assigned is within 0.0000005 of the exact
    one. *)
Lemma percent_change_error (prev p : Q) :
  (Qabs (percent_change prev p - ((p - prev) / prev) * 100) <= 1 # 2000000)%Q.
Proof.
  unfold percent_change. cbv zeta.
  pose proof (numeric_div_error (p - prev) prev (Nat.max (display_scale p) 8)) as H.
  set (r := numeric_div _ _ _ _) in *. set (q := ((p - prev) / prev)%Q) in *.
  apply Qabs_Qle_condition in H as [Hlo Hhi].
  apply Qabs_Qle_condition. split; lra.
Qed.

(** ** [update_exchange_rate] *)

Section UpdateFacts.

Variables (now : Z) (b t : string).

Lemma for_pair_eq r : for_pair b t r = true <-> base_currency r = b /\ target_currency r = t.
Proof.
  unfold for_pair. rewrite andb_true_iff, !String.eqb_eq. reflexivity.
Qed.

Lemma close_row_ok r r' :
  close_row now r = Ok r' ->
  effective_from r < now /\
  base_currency r' = base_currency r /\ target_currency r' = target_currency r /\
  rate r' = rate r /\ effective_from r' = effective_from r /\
  effective_to r' = Some now.
Proof.
  unfold close_row. intros H. inv_ok H.
  apply check_ok in Hstep. apply Z.ltb_lt in Hstep.
  injection H as <-. cbn. repeat split; assumption.
Qed.

Lemma is_open_closed b2 t2 r x :
  effective_to r = Some x -> is_open b2 t2 r = false.
Proof. unfold is_open. intros ->. apply andb_false_r. Qed.

Lemma is_open_other_pair b2 t2 r :
  for_pair b t r = true ->
  String.eqb b2 b && String.eqb t2 t = false ->
  is_open b2 t2 r = false.
Proof.
  intros [Hb Ht]%for_pair_eq E. unfold is_open, for_pair.
  rewrite Hb, Ht, (String.eqb_sym b b2), (String.eqb_sym t t2), E.
  reflexivity.
Qed.

(** After the UPDATE no record of the pair is open, and the open records
    of every other pair are what they were. *)
Lemma close_current_open rows rows' b2 t2 :
  close_current now b t rows = Ok rows' ->
  List.filter (is_open b2 t2) rows' =
    if String.eqb b2 b && String.eqb t2 t then []
    else List.filter (is_open b2 t2) rows.
Proof.
  revert rows'. induction rows as [|r rows IH]; intros rows' H; cbn in H.
  - injection H as <-. cbn. destruct (_ && _); reflexivity.
  - inv_ok H. injection H as <-. cbn [List.filter].
    rewrite (IH _ Hstep0). clear IH Hstep0.
    destruct (for_pair b t r && is_current now r) eqn:Hsel.
    + apply andb_true_iff in Hsel as [Hp _].
      apply close_row_ok in Hstep as (_ & _ & _ & _ & _ & Hto).
      rewrite (is_open_closed _ _ _ _ Hto).
      destruct (String.eqb b2 b && String.eqb t2 t) eqn:E; [reflexivity|].
      rewrite (is_open_other_pair _ _ _ Hp E). reflexivity.
    + injection Hstep as <-.
      destruct (String.eqb b2 b && String.eqb t2 t) eqn:E; [|reflexivity].
      apply andb_true_iff in E as [->%String.eqb_eq ->%String.eqb_eq].
      unfold is_open.
      destruct (for_pair b t r) eqn:Hp; [|reflexivity].
      cbn in Hsel. unfold is_current in Hsel.
      destruct (effective_to r); [reflexivity | discriminate].
Qed.

(** After the UPDATE every record of the pair is closed at or before
    [now]. *)
Lemma close_current_closed rows rows' :
  close_current now b t rows = Ok rows' ->
  forall r', In r' rows' -> for_pair b t r' = true ->
  exists t', effective_to r' = Some t' /\ t' <= now.
Proof.
  revert rows'. induction rows as [|r rows IH]; intros rows' H; cbn in H.
  - injection H as <-. intros r' [].
  - inv_ok H. injection H as <-. intros r' [<-|Hin] Hp; [|eauto].
    destruct (for_pair b t r && is_current now r) eqn:Hsel.
    + apply close_row_ok in Hstep as (_ & _ & _ & _ & _ & Hto).
      exists now. split; [assumption | lia].
    + injection Hstep as <-. rewrite Hp in Hsel. cbn in Hsel.
      unfold is_current in Hsel.
      destruct (effective_to r) as [t'|]; [|discriminate].
      exists t'. split; [reflexivity|]. apply Z.ltb_ge in Hsel. lia.
Qed.

End UpdateFacts.

Lemma filter_none {A} (P : A -> bool) (l : list A) :
  (forall x, In x l -> P x = false) -> List.filter P l = [].
Proof.
  induction l as [|x l IH]; intros H; [reflexivity|]. cbn.
  rewrite (H x (or_introl eq_refl)). apply IH. intros y Hy. apply H. now right.
Qed.

Lemma close_current_checked now b t rows rows' :
  close_current now b t rows = Ok rows' ->
  forall r, In r rows -> for_pair b t r = true -> is_current now r = true ->
  effective_from r < now.
Proof.
  revert rows'. induction rows as [|r0 rows IH]; intros rows' H; cbn in H.
  - intros r [].
  - inv_ok H. intros r [->|Hin] Hp Hc; [|eauto].
    rewrite Hp, Hc in Hstep. now apply close_row_ok in Hstep.
Qed.

(** What a successful call of [update_exchange_rate] has done. *)
Lemma update_ok_inv db now b t p src m db' :
  update_exchange_rate db now b t p src m = Ok db' ->
  exists change closed stored,
    compute_change (rate <$> select_current db now b t) p = Ok change /\
    close_current now b t (exchange_rates db) = Ok closed /\
    to_decimal 15 8 p = Ok stored /\
    Qle_bool stored 0 = false /\
    exchange_rates db' = closed ++ [ new_row b t stored src m now ] /\
    exchange_rate_history db' =
      exchange_rate_history db ++
      [ {| h_base_currency := b; h_target_currency := t; h_rate := stored;
           previous_rate := rate <$> select_current db now b t;
           change_percentage := change;
           h_source := src; h_is_manual_override := m;
           recorded_at := time_zone db now |} ] /\
    currency_config db' = currency_config db.
Proof.
  unfold update_exchange_rate. intros H. inv_ok H.
  unfold insert_rate in Hstep1. inv_ok Hstep1.
  unfold insert_history in Hstep2. inv_ok Hstep2.
  rewrite Hstep3 in Hstep6. injection Hstep6 as <-.
  apply check_ok, negb_true_iff in Hstep4.
  injection Hstep1 as <-. injection Hstep2 as <-. injection H as <-.
  exists a, a0, a3. cbn. repeat split; assumption.
Qed.

Lemma for_pair_new_row b t stored src m now b2 t2 :
  for_pair b2 t2 (new_row b t stored src m now) = String.eqb b2 b && String.eqb t2 t.
Proof.
  unfold for_pair. cbn. now rewrite (String.eqb_sym b b2), (String.eqb_sym t t2).
Qed.

Lemma is_open_new_row b t stored src m now b2 t2 :
  is_open b2 t2 (new_row b t stored src m now) = String.eqb b2 b && String.eqb t2 t.
Proof. unfold is_open. rewrite for_pair_new_row. cbn. apply andb_true_r. Qed.

(** The open records after a successful update: the new record alone for
    the updated pair, unchanged for every other pair. *)
Lemma update_open_records db now b t p src m db' b2 t2 :
  update_exchange_rate db now b t p src m = Ok db' ->
  exists stored,
    to_decimal 15 8 p = Ok stored /\
    open_records db' b2 t2 =
      if String.eqb b2 b && String.eqb t2 t
      then [ new_row b t stored src m now ]
      else open_records db b2 t2.
Proof.
  intros (change & closed & stored & _ & Hclose & Hst & _ & Hrows & _)%update_ok_inv.
  exists stored. split; [exact Hst|].
  unfold open_records.
  rewrite Hrows, List.filter_app, (close_current_open _ _ _ _ _ _ _ Hclose).
  cbn [List.filter]. rewrite is_open_new_row.
  destruct (String.eqb b2 b && String.eqb t2 t); [reflexivity|].
  now rewrite app_nil_r.
Qed.

Lemma update_preserves_inv db now b t p src m db' :
  update_exchange_rate db now b t p src m = Ok db' ->
  supersession_inv db -> supersession_inv db'.
Proof.
  intros H Hinv b2 t2.
  destruct (update_open_records _ _ _ _ _ _ _ _ b2 t2 H) as (stored & _ & ->).
  destruct (String.eqb b2 b && String.eqb t2 t); [cbn; lia | apply Hinv].
Qed.

Lemma apply_update_inv db c : supersession_inv db -> supersession_inv (apply_update db c).
Proof.
  unfold apply_update. intros Hinv.
  destruct update_exchange_rate eqn:H; [|exact Hinv].
  eapply update_preserves_inv; eassumption.
Qed.

Lemma run_updates_inv calls : forall db,
  supersession_inv db -> supersession_inv (run_updates db calls).
Proof.
  induction calls as [|c calls IH]; intros db Hinv; [exact Hinv|].
  cbn. apply IH, apply_update_inv, Hinv.
Qed.

(** The query for the current rate of a pair right after an update of
    that pair finds the record the update has inserted. *)
Lemma select_after_update db now b t p src m db' now' :
  update_exchange_rate db now b t p src m = Ok db' ->
  now <= now' ->
  exists stored,
    to_decimal 15 8 p = Ok stored /\
    select_current db' now' b t = Some (new_row b t stored src m now).
Proof.
  intros (change & closed & stored & _ & Hclose & Hst & _ & Hrows & _)%update_ok_inv Hle.
  exists stored. split; [exact Hst|].
  unfold select_current. rewrite Hrows, List.filter_app, filter_none.
  - cbn. rewrite for_pair_new_row, !String.eqb_refl. reflexivity.
  - intros r Hin. destruct (for_pair b t r) eqn:Hp; [|reflexivity].
    destruct (close_current_closed _ _ _ _ _ Hclose r Hin Hp) as (t' & Hto & Hle').
    unfold is_current. rewrite Hto. cbn. apply Z.ltb_ge. lia.
Qed.

(** A second update of the same pair can only succeed at a later instant. *)
Lemma update_twice_later db now1 now2 b t p1 src1 m1 p2 src2 m2 db1 db2 :
  update_exchange_rate db now1 b t p1 src1 m1 = Ok db1 ->
  update_exchange_rate db1 now2 b t p2 src2 m2 = Ok db2 ->
  now1 < now2.
Proof.
  intros (_ & closed & stored & _ & _ & _ & _ & Hrows & _)%update_ok_inv
         (_ & closed2 & _ & _ & Hclose2 & _)%update_ok_inv.
  rewrite Hrows in Hclose2.
  apply (close_current_checked _ _ _ _ _ Hclose2 (new_row b t stored src1 m1 now1)).
  - apply in_or_app. right. now left.
  - rewrite for_pair_new_row, !String.eqb_refl. reflexivity.
  - reflexivity.
Qed.

(** An update keeps the time zone of the database. *)
Lemma update_time_zone db now b t p src m db' :
  update_exchange_rate db now b t p src m = Ok db' ->
  time_zone db' = time_zone db.
Proof.
  unfold update_exchange_rate. intros H. inv_ok H. now injection H as <-.
Qed.

Lemma compute_change_some prev p change :
  Qle_bool prev 0 = false ->
  compute_change (Some prev) p = Ok change ->
  exists c, to_decimal 8 4 (percent_change prev p) = Ok c /\ change = Some c.
Proof.
  unfold compute_change. intros ->. cbn [negb]. intros H. inv_ok H.
  injection H as <-. eauto.
Qed.

(** The change percentage a history entry holds is within 0.0000505 of the
    exact one: the quotient is rounded by the division, the percentage
    once more to the four decimals of DECIMAL(8,4). *)
Lemma stored_change_error (prev p c : Q) :
  to_decimal 8 4 (percent_change prev p) = Ok c ->
  (Qabs (c - ((p - prev) / prev) * 100) <= 101 # 2000000)%Q.
Proof.
  intros Hc. apply to_decimal_error in Hc.
  change (1 # 2 * Z.to_pos (pow10 4))%Q with (1 # 20000)%Q in Hc.
  pose proof (percent_change_error prev p) as Hp.
  set (x := percent_change prev p) in *.
  set (q := (((p - prev) / prev) * 100)%Q) in *.
  apply Qabs_Qle_condition in Hc as [Hc1 Hc2].
  apply Qabs_Qle_condition in Hp as [Hp1 Hp2].
  apply Qabs_Qle_condition. split; lra.
Qed.

(** C1 (amended).  Supersession: from a store with at most one record per
    pair whose [effective_to] is NULL, every sequence of
    [update_exchange_rate] calls, failed ones included, leads to such a
    store.  When two updates of one pair, with rates [r1] then
    [r2], both succeed, the pair has exactly one such record (the second
    one), the history has grown by exactly two entries, and the second entry
    has [previous_rate] equal to [r1] as stored (coerced to DECIMAL(15,8))
    and a [change_percentage] within 0.0000505 of (r2 - previous_rate) /
    previous_rate * 100: it is that expression as PostgreSQL computes it,
    the quotient rounded to the scale of the division and the result to
    the four decimals of DECIMAL(8,4). *)
Theorem update_supersession :
  (forall db calls, supersession_inv db -> supersession_inv (run_updates db calls)) /\
  (forall db now1 now2 b t r1 r2 src1 m1 src2 m2 db1 db2,
     update_exchange_rate db now1 b t r1 src1 m1 = Ok db1 ->
     update_exchange_rate db1 now2 b t r2 src2 m2 = Ok db2 ->
     exists s1 s2 c h1 h2,
       to_decimal 15 8 r1 = Ok s1 /\
       to_decimal 15 8 r2 = Ok s2 /\
       to_decimal 8 4 (percent_change s1 r2) = Ok c /\
       (Qabs (c - ((r2 - s1) / s1) * 100) <= 101 # 2000000)%Q /\
       open_records db2 b t = [ new_row b t s2 src2 m2 now2 ] /\
       exchange_rate_history db2 = exchange_rate_history db ++ [h1; h2] /\
       h_rate h2 = s2 /\
       previous_rate h2 = Some s1 /\
       change_percentage h2 = Some c).
Proof.
  split; [intros db calls; apply run_updates_inv|].
  intros db now1 now2 b t r1 r2 src1 m1 src2 m2 db1 db2 H1 H2.
  pose proof (update_twice_later _ _ _ _ _ _ _ _ _ _ _ _ _ H1 H2) as Hlt.
  destruct (select_after_update _ _ _ _ _ _ _ _ now2 H1) as (s1 & Hs1 & Hsel); [lia|].
  destruct (update_open_records _ _ _ _ _ _ _ _ b t H2) as (s2 & Hs2 & Hopen).
  rewrite !String.eqb_refl in Hopen. cbn in Hopen.
  pose proof H1 as (ch1 & cl1 & s1' & _ & _ & Hs1' & Hpos & _ & Hh1 & _)%update_ok_inv.
  assert (s1' = s1) by congruence. subst s1'.
  pose proof H2 as (ch & cl2 & s2' & Hch & _ & Hs2' & _ & _ & Hh2 & _)%update_ok_inv.
  assert (s2' = s2) by congruence. subst s2'.
  rewrite Hsel in Hch, Hh2. cbn in Hch, Hh2.
  destruct (compute_change_some _ _ _ Hpos Hch) as (c & Hc & ->).
  eexists s1, s2, c, _, _. rewrite Hh2, Hh1, <- app_assoc. cbn.
  split; [assumption|]. split; [assumption|]. split; [assumption|].
  split; [exact (stored_change_error _ _ _ Hc)|].
  repeat split; assumption.
Qed.

Lemma update_supersession_witness :
  supersession_inv (run_updates empty_db [usd_eur_085; usd_eur_090]) /\
  exists s1 s2 c h1 h2,
    to_decimal 15 8 0.85%Q = Ok s1 /\
    to_decimal 15 8 0.9%Q = Ok s2 /\
    to_decimal 8 4 (percent_change s1 0.9) = Ok c /\
    (Qabs (c - ((0.9 - s1) / s1) * 100) <= 101 # 2000000)%Q /\
    open_records db_twice "USD" "EUR" = [ new_row "USD" "EUR" s2 "manual" true 20 ] /\
    exchange_rate_history db_twice = exchange_rate_history empty_db ++ [h1; h2] /\
    h_rate h2 = s2 /\
    previous_rate h2 = Some s1 /\
    change_percentage h2 = Some c.
Proof.
  split.
  - apply (proj1 update_supersession). intros b t. cbn. lia.
  - apply (proj2 update_supersession empty_db 10 20 "USD" "EUR"
             0.85%Q 0.9%Q "api" false "manual" true db_once db_twice);
      vm_compute; reflexivity.
Defined.

(** Counterexample to C1 as the specification words it, for every two
    rates.  After [update('USD','EUR',0.85)] the call
    [update('USD','EUR',100)] is refused: the change of 11664.7 percent
    does not fit the DECIMAL(8,4) of [change_percentage].  The two calls
    leave one history entry, not two, and the active record is still the
    first one. *)
Lemma update_large_jump_refused :
  update_exchange_rate empty_db 10 "USD" "EUR" 0.85%Q "api" false = Ok db_once /\
  update_exchange_rate db_once 20 "USD" "EUR" 100%Q "manual" true
    = Err numeric_field_overflow /\
  length (exchange_rate_history
            (run_updates empty_db [usd_eur_085; usd_eur_100])) = 1%nat /\
  open_records (run_updates empty_db [usd_eur_085; usd_eur_100]) "USD" "EUR"
    = [ new_row "USD" "EUR" (17 # 20)%Q "api" false 10 ].
Proof. repeat split; vm_compute; reflexivity. Qed.

(** The two roundings at work.  From 0.85 to 0.9 the entry holds 5.8824.
    From 9876543.21987653 to 6230533.33964174 the quotient
    -0.36915849999999999999949... becomes -0.36915850000000000000 at the
    twenty decimals of the division and the entry holds -36.9159, where
    the exact percentage rounds to -36.9158. *)
Example change_percentage_roundings :
  compute_change (Some 0.85%Q) 0.9%Q = Ok (Some (7353 # 1250)%Q) /\
  compute_change (Some 9876543.21987653%Q) 6230533.33964174%Q
    = Ok (Some (-369159 # 10000)%Q) /\
  to_decimal 8 4 (((6230533.33964174 - 9876543.21987653)
                   / 9876543.21987653) * 100)%Q = Ok (-184579 # 5000)%Q.
Proof. repeat split; vm_compute; reflexivity. Qed.

(** ** The store stays well formed *)

Lemma close_current_rows now b t rows rows' :
  close_current now b t rows = Ok rows' ->
  forall r', In r' rows' ->
  exists r, In r rows /\ rate r' = rate r /\
            (effective_to r' = effective_to r \/ effective_to r' = Some now).
Proof.
  revert rows'. induction rows as [|r0 rows IH]; intros rows' H; cbn in H.
  - injection H as <-. intros r' [].
  - inv_ok H. injection H as <-. intros r' [<-|Hin].
    + exists r0. split; [now left|].
      destruct (for_pair b t r0 && is_current now r0).
      * apply close_row_ok in Hstep as (_ & _ & _ & Hr & _ & Hto). auto.
      * injection Hstep as <-. auto.
    + destruct (IH _ Hstep0 r' Hin) as (r & ? & ?). exists r. split; [now right | assumption].
Qed.

Lemma store_ok_later db now now' : store_ok db now -> now <= now' -> store_ok db now'.
Proof.
  intros (Hinv & Hpast & Hvalid) Hle. repeat split; try assumption; try apply Hvalid; auto.
  intros r t' Hin Hto. specialize (Hpast r t' Hin Hto). lia.
Qed.

Lemma store_ok_empty now : store_ok empty_db now.
Proof.
  repeat split; cbn; try easy. intros b t. cbn. lia.
Qed.

(** A successful update at instant [now] of a well formed store leaves a
    well formed store. *)
Lemma update_store_ok db now b t p src m db' :
  store_ok db now ->
  update_exchange_rate db now b t p src m = Ok db' ->
  store_ok db' now.
Proof.
  intros (Hinv & Hpast & Hvalid) H.
  split; [eapply update_preserves_inv; eassumption|].
  apply update_ok_inv in H as (ch & closed & stored & _ & Hclose & Hst & Hpos & Hrows & _).
  split.
  - intros r t'. rewrite Hrows. intros [Hin|[<-|[]]]%in_app_or Hto; [|discriminate].
    destruct (close_current_rows _ _ _ _ _ Hclose r Hin) as (r0 & Hin0 & _ & [E|E]).
    + apply (Hpast r0 t' Hin0). congruence.
    + assert (t' = now) by congruence. lia.
  - intros r. rewrite Hrows. intros [Hin|[<-|[]]]%in_app_or.
    + destruct (close_current_rows _ _ _ _ _ Hclose r Hin) as (r0 & Hin0 & -> & _).
      now apply Hvalid.
    + cbn. split; [|eapply to_decimal_15_8_bound; eassumption].
      apply Qnot_le_lt. intros Hle. apply Qle_bool_iff in Hle. congruence.
Qed.

(** Every store that updates at successive instants build from the empty
    one is well formed. *)
Lemma run_updates_store_ok calls : forall db now,
  store_ok db now -> chronological now calls ->
  store_ok (run_updates db calls) (last_instant now calls).
Proof.
  induction calls as [|c calls IH]; intros db now Hok Hchrono; [exact Hok|].
  destruct Hchrono as [Hle Hrest]. cbn. apply IH; [|exact Hrest].
  apply (store_ok_later _ _ _ Hok) in Hle.
  unfold apply_update. destruct update_exchange_rate eqn:E; [|exact Hle].
  eapply update_store_ok; eassumption.
Qed.

(** ** [CurrencyUtils]: same currency *)

Lemma Qmult_1_r_eq (a : Q) : (a * 1)%Q = a.
Proof.
  destruct a as [n d]. unfold Qmult. cbn [Qnum Qden].
  now rewrite Z.mul_1_r, Pos.mul_1_r.
Qed.

(** C3.  For every currency code X, [getCurrentExchangeRate(X, X)] is 1.0
    whatever the store and the cache hold, and leaves both untouched (no
    lookup, nothing cached); the database function returns 1.0 as well; and
    for every amount a, [convertCurrency(a, X, X).convertedAmount] is a. *)
Theorem same_currency_identity (st : State) (now db_now : Z) (X : string) (a : number) :
  getCurrentExchangeRate st now db_now X X = (1%Q, st) /\
  get_current_exchange_rate (db st) db_now X X = Ok 1%Q /\
  convertedAmount (fst (convertCurrency st now db_now a X X)) = a /\
  exchangeRate (fst (convertCurrency st now db_now a X X)) = 1%Q.
Proof.
  assert (H : getCurrentExchangeRate st now db_now X X = (1%Q, st)).
  { unfold getCurrentExchangeRate. now rewrite String.eqb_refl. }
  repeat split.
  - exact H.
  - unfold get_current_exchange_rate. now rewrite String.eqb_refl.
  - unfold convertCurrency. rewrite H. cbn. apply Qmult_1_r_eq.
  - unfold convertCurrency. rewrite H. reflexivity.
Qed.

(** ** [CurrencyUtils]: the rate cache *)

Lemma Qle_bool_false_neq0 (q : Q) : Qle_bool q 0 = false -> Qeq_bool q 0 = false.
Proof.
  intros H. destruct (Qeq_bool q 0) eqn:E; [|reflexivity].
  apply Qeq_bool_iff in E.
  assert (Hle : Qle_bool q 0 = true) by (apply Qle_bool_iff; rewrite E; apply Qle_refl).
  congruence.
Qed.

Lemma updateExchangeRate_ok st db_now b t rate src m st' :
  updateExchangeRate st db_now b t rate src m = Ok st' ->
  update_exchange_rate (db st) db_now b t rate src m = Ok (db st') /\
  cachedRates st' = delete (cacheKey b t) (cachedRates st).
Proof.
  unfold updateExchangeRate. intros H. inv_ok H. injection H as <-. auto.
Qed.

(** A read that misses the cache returns what the database function
    returns, with [data || 1.0] and the catch-all of errors applied. *)
Lemma getCurrentExchangeRate_miss st now db_now b t :
  b <> t -> cache_miss st now b t ->
  fst (getCurrentExchangeRate st now db_now b t) =
    match get_current_exchange_rate (db st) db_now b t with
    | Ok data => if Qeq_bool data 0 then 1%Q else data
    | Err _ => 1%Q
    end.
Proof.
  intros Hne Hmiss. unfold getCurrentExchangeRate, cache_miss in *.
  apply String.eqb_neq in Hne. rewrite Hne.
  destruct (cachedRates st !! cacheKey b t) as [c|].
  - apply Z.ltb_ge in Hmiss. rewrite Hmiss.
    destruct get_current_exchange_rate; reflexivity.
  - destruct get_current_exchange_rate; reflexivity.
Qed.

(** C5.  After a successful [updateExchangeRate(base, target, rate)] the
    cache has no entry under the key of (base, target), and a following
    [getCurrentExchangeRate(base, target)] of a pair of two currencies
    returns the rate of the record the update has stored (the rate coerced
    to DECIMAL(15,8)), whatever the client clock says and whatever the
    cache held before. *)
Theorem update_invalidates_cache st db_now b t rate src m st' :
  updateExchangeRate st db_now b t rate src m = Ok st' ->
  cachedRates st' !! cacheKey b t = None /\
  exists stored,
    to_decimal 15 8 rate = Ok stored /\
    open_records (db st') b t = [ new_row b t stored src m db_now ] /\
    forall now' db_now',
      b <> t -> db_now <= db_now' ->
      fst (getCurrentExchangeRate st' now' db_now' b t) = stored.
Proof.
  intros [Hdb Hcache]%updateExchangeRate_ok.
  assert (Hnone : cachedRates st' !! cacheKey b t = None).
  { rewrite Hcache. apply lookup_delete_eq. }
  split; [exact Hnone|].
  destruct (update_open_records _ _ _ _ _ _ _ _ b t Hdb) as (stored & Hst & Hopen).
  rewrite !String.eqb_refl in Hopen. cbn in Hopen.
  exists stored. repeat split; [exact Hst | exact Hopen |].
  intros now' db_now' Hne Hle.
  rewrite getCurrentExchangeRate_miss; [|exact Hne|].
  - destruct (select_after_update _ _ _ _ _ _ _ _ db_now' Hdb Hle)
      as (stored' & Hst' & Hsel).
    assert (stored' = stored) by congruence. subst stored'.
    unfold get_current_exchange_rate.
    apply String.eqb_neq in Hne. rewrite Hne, Hsel. cbn.
    apply update_ok_inv in Hdb as (ch & cl & s' & _ & _ & Hs' & Hpos & _).
    assert (s' = stored) by congruence. subst s'.
    now rewrite (Qle_bool_false_neq0 _ Hpos).
  - unfold cache_miss. now rewrite Hnone.
Qed.

Lemma update_invalidates_cache_witness :
  cachedRates st_cached !! cacheKey "USD" "EUR"
    = Some {| cached_rate := (17 # 20)%Q; cached_timestamp := 0 |} /\
  fst (getCurrentExchangeRate st_cached 1000 18 "USD" "EUR") = (17 # 20)%Q /\
  cachedRates st_cached_updated !! cacheKey "USD" "EUR" = None /\
  fst (getCurrentExchangeRate st_cached_updated 1000 25 "USD" "EUR") = (9 # 10)%Q.
Proof.
  split; [vm_compute; reflexivity|]. split; [vm_compute; reflexivity|].
  destruct (update_invalidates_cache st_cached 20 "USD" "EUR" 0.9%Q "manual" true
              st_cached_updated ltac:(vm_compute; reflexivity))
    as (Hnone & stored & Hstored & _ & Hread).
  split; [exact Hnone|].
  rewrite (Hread 1000 25 ltac:(discriminate) ltac:(lia)).
  vm_compute in Hstored. now injection Hstored as <-.
Defined.

(** An update of a currency against itself is stored, and never read: the
    guard of [getCurrentExchangeRate] answers 1.0 before any lookup. *)
Example same_currency_update_not_read :
  updateExchangeRate initial_state 10 "USD" "USD" 2%Q "api" false = Ok st_usd_usd /\
  open_records (db st_usd_usd) "USD" "USD"
    = [ new_row "USD" "USD" 2%Q "api" false 10 ] /\
  fst (getCurrentExchangeRate st_usd_usd 0 11 "USD" "USD") = 1%Q.
Proof. repeat split; vm_compute; reflexivity. Qed.

Lemma append_same_length (s1 s2 r1 r2 : string) :
  String.length s1 = String.length s2 ->
  s1 +:+ r1 = s2 +:+ r2 -> s1 = s2 /\ r1 = r2.
Proof.
  revert s2. induction s1 as [|c1 s1 IH]; intros [|c2 s2] Hlen H;
    try discriminate Hlen.
  - auto.
  - change (String c1 (s1 +:+ r1) = String c2 (s2 +:+ r2)) in H.
    injection H as -> H. injection Hlen as Hlen.
    destruct (IH s2 Hlen H) as [-> ->]. auto.
Qed.

(** Codes of one length, such as the three-letter codes of the currency
    table, never share a cache key: the two directions of a pair of distinct
    codes have keys of their own. *)
Lemma cacheKey_reverse_ne (b t : string) :
  String.length b = String.length t -> t <> b -> cacheKey t b <> cacheKey b t.
Proof.
  intros Hlen Hne E. unfold cacheKey in E.
  apply append_same_length in E as [E _]; [contradiction | now symmetry].
Qed.

(** C10.  A successful [updateExchangeRate(base, target, rate)] deletes the
    cache entry under the key of (base, target) and leaves the entry under
    every other key as it was.  So when the reverse direction has a key of
    its own holding an entry younger than [CACHE_DURATION], a following
    [getCurrentExchangeRate(target, base)] still returns that cached
    rate, computed from the superseded record, and leaves the state as
    it is. *)
Theorem update_cache_frame st db_now b t rate src m st' :
  updateExchangeRate st db_now b t rate src m = Ok st' ->
  cachedRates st' = delete (cacheKey b t) (cachedRates st) /\
  (forall k, k <> cacheKey b t -> cachedRates st' !! k = cachedRates st !! k) /\
  (forall cached now db_now',
     cacheKey t b <> cacheKey b t ->
     cachedRates st !! cacheKey t b = Some cached ->
     now - cached_timestamp cached < CACHE_DURATION ->
     getCurrentExchangeRate st' now db_now' t b = (cached_rate cached, st')).
Proof.
  intros [Hdb Hcache]%updateExchangeRate_ok.
  split; [exact Hcache|]. split.
  - intros k Hk. rewrite Hcache. now apply lookup_delete_ne.
  - intros cached now db_now' Hkey Hlook Hfresh.
    assert (Hne : t <> b) by (intros ->; now apply Hkey).
    unfold getCurrentExchangeRate.
    apply String.eqb_neq in Hne. rewrite Hne, Hcache.
    rewrite lookup_delete_ne by (intros E; apply Hkey; now symmetry).
    rewrite Hlook. apply Z.ltb_lt in Hfresh. now rewrite Hfresh.
Qed.

Lemma update_cache_frame_witness :
  cachedRates st_updated !! cacheKey "EUR" "USD"
    = cachedRates st_read !! cacheKey "EUR" "USD" /\
  getCurrentExchangeRate st_updated 1000 25 "EUR" "USD"
    = ((117647059 # 100000000)%Q, st_updated).
Proof.
  destruct (update_cache_frame st_read 20 "USD" "EUR" 0.9%Q "manual" true
              st_updated ltac:(vm_compute; reflexivity))
    as (_ & Hframe & Hread).
  split.
  - apply Hframe. discriminate.
  - apply (Hread {| cached_rate := (117647059 # 100000000)%Q;
                    cached_timestamp := 0 |} 1000 25).
    + discriminate.
    + vm_compute. reflexivity.
    + reflexivity.
Defined.

(** The run behind C10: USD to EUR is 0.85, EUR to USD is read (and cached
    as 1.17647059), USD to EUR is overridden to 0.9.  One second later the
    class still answers 1.17647059 for EUR to USD, while the database
    function answers 1.11111111. *)
Example reverse_direction_stale :
  (fst (getCurrentExchangeRate st_updated 1000 25 "EUR" "USD") == 1.17647059)%Q /\
  exists fresh, get_current_exchange_rate (db st_updated) 25 "EUR" "USD" = Ok fresh /\
                (fresh == 1.11111111)%Q.
Proof.
  split; [vm_compute; reflexivity|].
  eexists. split; vm_compute; reflexivity.
Qed.

(** ** [getCurrentExchangeRate]: direct rate, reverse rate, fallback *)

Lemma singleton_of_short {A} (x : A) (l : list A) :
  In x l -> (length l <= 1)%nat -> l = [x].
Proof.
  destruct l as [|y [|z l]]; cbn; intros Hin Hlen; [easy | | lia].
  destruct Hin as [->|[]]. reflexivity.
Qed.

Lemma active_record_open db b t r :
  supersession_inv db -> active_record db b t r -> open_records db b t = [r].
Proof.
  intros Hinv [Hin Hopen]. apply singleton_of_short; [|apply Hinv].
  unfold open_records. apply List.filter_In. auto.
Qed.

(** When no record closes in the future, the query for the current rate
    sees exactly the records whose [effective_to] is NULL. *)
Lemma select_current_open db now b t :
  closed_in_past db now -> supersession_inv db ->
  select_current db now b t = head (open_records db b t).
Proof.
  intros Hpast Hinv. unfold select_current.
  rewrite (List.filter_ext_in _ (is_open b t)).
  - fold (open_records db b t). specialize (Hinv b t).
    destruct (open_records db b t) as [|r [|r' l]]; cbn in *; [reflexivity..|lia].
  - intros r Hin. unfold is_open, is_current. f_equal.
    destruct (effective_to r) as [t'|] eqn:E; [|reflexivity].
    apply Z.ltb_ge. eapply Hpast; eassumption.
Qed.

Lemma Qlt_0_neq0 (q : Q) : (0 < q)%Q -> Qeq_bool q 0 = false.
Proof.
  intros H. destruct (Qeq_bool q 0) eqn:E; [|reflexivity].
  apply Qeq_bool_iff in E. rewrite E in H. now apply Qlt_irrefl in H.
Qed.

(** The reciprocal of a rate that fits DECIMAL(15,8) does not round to
    zero at eight decimals. *)
Lemma reciprocal_nonzero (q v : Q) :
  (0 < q)%Q -> (q < 10000000)%Q ->
  to_decimal 15 8 (1 / q) = Ok v -> Qeq_bool v 0 = false.
Proof.
  intros Hpos Hlt. unfold to_decimal.
  set (x := (1 / q * inject_Z (pow10 8))%Q).
  assert (Hx : (1 <= x)%Q).
  { subst x.
    assert (E : (1 / q * inject_Z (pow10 8) == inject_Z (pow10 8) / q)%Q)
      by (unfold Qdiv; ring).
    rewrite E. apply Qle_shift_div_l; [exact Hpos|].
    rewrite Qmult_1_l. apply Qlt_le_weak.
    eapply Qlt_trans; [exact Hlt|]. vm_compute. reflexivity. }
  assert (Hn : 1 <= round_half_away x).
  { unfold round_half_away.
    assert (H0 : Qle_bool 0 x = true).
    { apply Qle_bool_iff. eapply Qle_trans; [|exact Hx]. discriminate. }
    rewrite H0. change 1 with (Qfloor 1). apply Qfloor_resp_le.
    assert (E : (1 == (1 # 2) + (1 # 2))%Q) by reflexivity.
    rewrite E at 1. apply Qplus_le_l. eapply Qle_trans; [|exact Hx]. discriminate. }
  destruct (Z.abs (round_half_away x) <? pow10 15); [|discriminate].
  intros [= <-]. destruct (Qeq_bool _ 0) eqn:E; [|reflexivity].
  apply Qeq_bool_iff in E. rewrite Qred_correct in E.
  unfold Qeq in E. cbn in E. lia.
Qed.

(** C2 (amended).  For distinct codes, on a store that meets its table
    constraints, and when the cache holds no entry for (base, target)
    younger than [CACHE_DURATION], [getCurrentExchangeRate(base, target)]
    returns the rate of the active (base, target) record if there is one;
    otherwise, if there is an active (target, base) record whose reciprocal
    fits DECIMAL(15,8), that reciprocal rounded to eight decimals; and 1.0
    if neither direction has an active record.  The function returns a
    number on every path. *)
Theorem current_rate_fallback st now db_now b t :
  b <> t -> cache_miss st now b t -> store_ok (db st) db_now ->
  (forall r, active_record (db st) b t r ->
     fst (getCurrentExchangeRate st now db_now b t) = rate r) /\
  (forall r recip,
     open_records (db st) b t = [] -> active_record (db st) t b r ->
     to_decimal 15 8 (1 / rate r) = Ok recip ->
     fst (getCurrentExchangeRate st now db_now b t) = recip) /\
  (open_records (db st) b t = [] -> open_records (db st) t b = [] ->
     fst (getCurrentExchangeRate st now db_now b t) = 1%Q).
Proof.
  intros Hne Hmiss (Hinv & Hpast & Hvalid).
  rewrite (getCurrentExchangeRate_miss _ _ _ _ _ Hne Hmiss).
  unfold get_current_exchange_rate.
  apply String.eqb_neq in Hne. rewrite Hne.
  rewrite !(select_current_open _ _ _ _ Hpast Hinv).
  repeat split.
  - intros r Hr. rewrite (active_record_open _ _ _ _ Hinv Hr). cbn.
    destruct (Hvalid r (proj1 Hr)) as [Hpos _].
    now rewrite (Qlt_0_neq0 _ Hpos).
  - intros r recip -> Hr Hrecip.
    rewrite (active_record_open _ _ _ _ Hinv Hr). cbn.
    destruct (Hvalid r (proj1 Hr)) as [Hpos Hlt].
    rewrite (Qlt_0_neq0 _ Hpos), Hrecip.
    now rewrite (reciprocal_nonzero _ _ Hpos Hlt Hrecip).
  - intros -> ->. reflexivity.
Qed.

Lemma current_rate_fallback_witness :
  fst (getCurrentExchangeRate st_once 0 15 "USD" "EUR") = (17 # 20)%Q /\
  fst (getCurrentExchangeRate st_once 0 15 "EUR" "USD") = (117647059 # 100000000)%Q /\
  fst (getCurrentExchangeRate initial_state 0 15 "EUR" "USD") = 1%Q.
Proof.
  assert (E : exchange_rates (db st_once)
              = [ new_row "USD" "EUR" (17 # 20)%Q "api" false 10 ])
    by (vm_compute; reflexivity).
  assert (Hok : store_ok (db st_once) 15).
  { split; [|split].
    - intros b t. unfold open_records. rewrite E. cbn [List.filter].
      destruct (is_open b t _); cbn; lia.
    - intros r t'. rewrite E. intros [<-|[]]. discriminate.
    - intros r. rewrite E. intros [<-|[]]. split; reflexivity. }
  assert (Hrec : active_record (db st_once) "USD" "EUR"
                   (new_row "USD" "EUR" (17 # 20)%Q "api" false 10)).
  { split; [rewrite E; now left | reflexivity]. }
  split; [|split].
  - apply (proj1 (current_rate_fallback st_once 0 15 "USD" "EUR"
                    ltac:(discriminate) I Hok) _ Hrec).
  - apply (proj1 (proj2 (current_rate_fallback st_once 0 15 "EUR" "USD"
                           ltac:(discriminate) I Hok)) _ _ eq_refl Hrec).
    vm_compute. reflexivity.
  - apply (proj2 (proj2 (current_rate_fallback initial_state 0 15 "EUR" "USD"
                           ltac:(discriminate) I (store_ok_empty 15))));
      reflexivity.
Defined.

(** The claim's own example on the store alone: with USD to EUR at 0.85 and
    nothing else stored, an uncached read of EUR to USD gives 1.17647059. *)
Example reverse_rate_example :
  (fst (getCurrentExchangeRate st_once 0 15 "EUR" "USD") == 1.17647059)%Q.
Proof. vm_compute. reflexivity. Qed.

(** A reverse rate below 10^-7 has a reciprocal that does not fit
    DECIMAL(15,8): the database function raises, the class catches the
    error and answers 1.0. *)
Example tiny_reverse_rate :
  exists db1,
    update_exchange_rate empty_db 10 "BTC" "SAT" 0.00000001%Q "api" false = Ok db1 /\
    get_current_exchange_rate db1 11 "SAT" "BTC" = Err numeric_field_overflow /\
    fst (getCurrentExchangeRate {| db := db1; cachedRates := ∅ |} 0 11 "SAT" "BTC")
      = 1%Q.
Proof. eexists. repeat split; vm_compute; reflexivity. Qed.

(** Counterexample to C2 as the specification words it, for every state
    of the cache.  Here EUR to USD is read
    while the store is empty (the fallback 1.0 is cached), then
    [update('USD','EUR',0.85)] succeeds: the reverse record is active, no
    EUR to USD record exists, and one second after the first read
    [getCurrentExchangeRate('EUR','USD')] still returns 1.0, which is not
    close to 1/0.85. *)
Lemma current_rate_served_from_cache :
  updateExchangeRate st_early_read 10 "USD" "EUR" 0.85%Q "api" false
    = Ok st_then_updated /\
  active_record (db st_then_updated) "USD" "EUR"
    (new_row "USD" "EUR" (17 # 20)%Q "api" false 10) /\
  open_records (db st_then_updated) "EUR" "USD" = [] /\
  fst (getCurrentExchangeRate st_then_updated 1000 11 "EUR" "USD") = 1%Q /\
  (17 # 100 < 1 / 0.85 - 1)%Q.
Proof.
  repeat split; try (vm_compute; reflexivity).
  vm_compute. left. reflexivity.
Qed.

(** ** The currency registry *)

Lemma insert_by_code_perm r rows : Permutation (insert_by_code r rows) (r :: rows).
Proof.
  induction rows as [|r' rows IH]; cbn; [reflexivity|].
  destruct (String.leb _ _); [reflexivity|].
  rewrite IH. apply perm_swap.
Qed.

Lemma order_by_code_perm rows : Permutation (order_by_code rows) rows.
Proof.
  induction rows as [|r rows IH]; cbn; [reflexivity|].
  rewrite insert_by_code_perm. now apply perm_skip.
Qed.

Lemma code_le_total r1 r2 : String.leb (Schema.code r1) (Schema.code r2) = false -> code_le r2 r1.
Proof.
  intros H. unfold code_le, String.le.
  destruct (String.leb_total (Schema.code r1) (Schema.code r2)) as [E|E];
    [congruence | now rewrite E].
Qed.

Lemma insert_by_code_sorted r rows :
  Sorted code_le rows -> Sorted code_le (insert_by_code r rows).
Proof.
  induction 1 as [|r' rows Hs IH Hhd]; cbn.
  - repeat constructor.
  - destruct (String.leb (Schema.code r) (Schema.code r')) eqn:E.
    + constructor; [now constructor|]. constructor.
      unfold code_le, String.le. now rewrite E.
    + constructor; [exact IH|].
      destruct Hhd as [|r'' rows Hle]; cbn.
      * constructor. now apply code_le_total.
      * destruct (String.leb (Schema.code r) (Schema.code r''));
          constructor; [now apply code_le_total | exact Hle].
Qed.

Lemma order_by_code_sorted rows : Sorted code_le (order_by_code rows).
Proof.
  induction rows as [|r rows IH]; cbn; [constructor|].
  now apply insert_by_code_sorted.
Qed.

Lemma code_le_trans : Transitive code_le.
Proof. intros r1 r2 r3. unfold code_le. apply transitivity. Qed.

(** C6 (amended).  [getSupportedCurrencies] always succeeds; the sequence
    it returns holds exactly the active rows of [currency_config], each
    once, in ascending order of code; when no currency is active it is the
    empty sequence, returned without an error. *)
Theorem supported_currencies_ordered (st : State) :
  exists rows,
    getSupportedCurrencies st = Ok (map to_config rows) /\
    Permutation rows (active_currencies st) /\
    StronglySorted code_le rows /\
    (active_currencies st = [] -> getSupportedCurrencies st = Ok []).
Proof.
  exists (order_by_code (active_currencies st)). repeat split.
  - apply order_by_code_perm.
  - apply Sorted_StronglySorted; [exact code_le_trans | apply order_by_code_sorted].
  - unfold getSupportedCurrencies. fold (active_currencies st). now intros ->.
Qed.

Lemma supported_currencies_ordered_witness :
  exists rows,
    getSupportedCurrencies initial_state = Ok (map to_config rows) /\
    Permutation rows (active_currencies initial_state) /\
    StronglySorted code_le rows /\
    (active_currencies initial_state = [] ->
     getSupportedCurrencies initial_state = Ok []).
Proof. apply (supported_currencies_ordered initial_state). Defined.

(** Counterexample to C6 as the specification words it, with a
    ConfigurationError when no currency is active.  On the empty table the
    call returns the empty sequence. *)
Lemma supported_currencies_empty_ok :
  active_currencies initial_state = [] /\
  getSupportedCurrencies initial_state = Ok [] /\
  forall e, getSupportedCurrencies initial_state <> Err e.
Proof. repeat split. intros e. discriminate. Qed.

(** C7.  [getBaseCurrency] returns the configuration of the one active row
    with [is_base_currency] set when there is exactly one; with none, and
    with more than one, it throws the error of [.single()]; so whenever it
    returns, the result is that unique row, active and flagged as base. *)
Theorem base_currency_unique_or_error (st : State) :
  (forall r, active_bases st = [r] -> getBaseCurrency st = Ok (to_config r)) /\
  (active_bases st = [] -> getBaseCurrency st = Err PGRST116) /\
  ((2 <= length (active_bases st))%nat -> getBaseCurrency st = Err PGRST116) /\
  (forall c, getBaseCurrency st = Ok c ->
     exists r, active_bases st = [r] /\ c = to_config r /\
               isBaseCurrency c = true /\ isActive c = true).
Proof.
  unfold getBaseCurrency. fold (active_bases st).
  repeat split.
  - now intros r ->.
  - now intros ->.
  - destruct (active_bases st) as [|r1 [|r2 l]]; cbn; intros; [lia | lia | reflexivity].
  - intros c H.
    assert (Hall : forall r, In r (active_bases st) ->
                             is_base_currency r && is_active r = true).
    { intros r Hin. now apply List.filter_In in Hin. }
    destruct (active_bases st) as [|r [|r2 l]]; cbn in H; try discriminate.
    injection H as <-. exists r.
    destruct (andb_prop _ _ (Hall r (or_introl eq_refl))) as [Hb Ha].
    repeat split; assumption.
Qed.

Lemma base_currency_unique_or_error_witness :
  getBaseCurrency st_config
  = Ok {| code := "USD"; name := "US Dollar"; symbol := "$";
          symbolPosition := before; decimalPlaces := 2;
          isActive := true; isBaseCurrency := true |} /\
  getBaseCurrency initial_state = Err PGRST116.
Proof.
  split.
  - apply (proj1 (base_currency_unique_or_error st_config)
             {| Schema.code := "USD"; Schema.name := "US Dollar";
                Schema.symbol := "$"; symbol_position := before;
                decimal_places := 2; is_active := true;
                is_base_currency := true |}).
    reflexivity.
  - apply (proj1 (proj2 (base_currency_unique_or_error initial_state))).
    reflexivity.
Defined.

(** Two active rows flagged as base: the ambiguity is an error. *)
Example two_bases_raise :
  getBaseCurrency
    {| db := {| exchange_rates := []; exchange_rate_history := [];
                currency_config :=
                  map (fun c => {| Schema.code := c; Schema.name := c;
                                   Schema.symbol := c; symbol_position := before;
                                   decimal_places := 2; is_active := true;
                                   is_base_currency := true |})
                      ["USD"; "EUR"];
                time_zone := utc |};
       cachedRates := ∅ |}
  = Err PGRST116.
Proof. reflexivity. Qed.

(** ** [formatCurrency] *)

Lemma find_to_config rows x :
  List.find (fun c => String.eqb (code c) x) (map to_config rows) =
  option_map to_config (List.find (fun r => String.eqb (Schema.code r) x) rows).
Proof.
  induction rows as [|r rows IH]; cbn; [reflexivity|].
  destruct (String.eqb (Schema.code r) x); [reflexivity | exact IH].
Qed.

Lemma unique_code_row rows r r' :
  List.NoDup (map Schema.code rows) -> In r rows -> In r' rows ->
  Schema.code r = Schema.code r' -> r = r'.
Proof.
  induction rows as [|r0 rows IH]; cbn; [easy|].
  intros Hnd [->|Hr] [->|Hr'] Hcode; inversion Hnd as [|? ? Hnotin Hnd']; subst.
  - reflexivity.
  - exfalso. apply Hnotin. rewrite Hcode. now apply in_map.
  - exfalso. apply Hnotin. rewrite <- Hcode. now apply in_map.
  - now apply IH.
Qed.

Lemma in_ordered_active st r :
  In r (order_by_code (active_currencies st)) <->
  In r (currency_config (db st)) /\ is_active r = true.
Proof.
  unfold active_currencies. rewrite <- List.filter_In.
  split; apply Permutation_in;
    [apply order_by_code_perm | symmetry; apply order_by_code_perm].
Qed.

Lemma find_known st r x :
  unique_codes st ->
  In r (currency_config (db st)) -> is_active r = true -> Schema.code r = x ->
  List.find (fun r' => String.eqb (Schema.code r') x)
            (order_by_code (active_currencies st)) = Some r.
Proof.
  intros Huniq Hin Hact Hcode.
  destruct (List.find _ _) as [r'|] eqn:E.
  - apply List.find_some in E as [Hin' Heq].
    apply in_ordered_active in Hin' as [Hin' _].
    apply String.eqb_eq in Heq. f_equal.
    apply (unique_code_row _ _ _ Huniq Hin' Hin). congruence.
  - apply List.find_none with (x := r) in E.
    + apply String.eqb_neq in E. contradiction.
    + apply in_ordered_active. auto.
Qed.

Lemma find_unknown st x :
  (forall r, In r (currency_config (db st)) -> is_active r = true ->
             Schema.code r <> x) ->
  List.find (fun r' => String.eqb (Schema.code r') x)
            (order_by_code (active_currencies st)) = None.
Proof.
  intros Hnone. destruct (List.find _ _) as [r'|] eqn:E; [|reflexivity].
  apply List.find_some in E as [[Hin Hact]%in_ordered_active Heq].
  apply String.eqb_eq in Heq. now destruct (Hnone r' Hin Hact).
Qed.

Lemma length_append (s1 s2 : string) :
  String.length (s1 +:+ s2) = (String.length s1 + String.length s2)%nat.
Proof.
  induction s1 as [|c s1 IH]; [reflexivity|].
  change (String c s1 +:+ s2) with (String c (s1 +:+ s2)).
  cbn. now rewrite IH.
Qed.

Lemma all_digits_append (s1 s2 : string) :
  all_digits (s1 +:+ s2) = all_digits s1 && all_digits s2.
Proof.
  induction s1 as [|c s1 IH]; [reflexivity|].
  change (String c s1 +:+ s2) with (String c (s1 +:+ s2)).
  cbn. now rewrite IH, andb_assoc.
Qed.

Lemma digit_is_digit d : all_digits (digit d) = true.
Proof.
  unfold digit.
  destruct d as [|p|p]; try reflexivity.
  do 4 (destruct p as [p|p|]; try reflexivity).
Qed.

Lemma low_digits_shape k n :
  String.length (low_digits k n) = k /\ all_digits (low_digits k n) = true.
Proof.
  revert n. induction k as [|k IH]; intros n; cbn; [auto|].
  destruct (IH (n / 10)) as [Hlen Hdig].
  rewrite length_append, all_digits_append, Hlen, Hdig, digit_is_digit.
  split; [|reflexivity].
  assert (String.length (digit (n mod 10)) = 1%nat); [|lia].
  unfold digit. destruct (n mod 10) as [|p|p]; try reflexivity.
  do 4 (destruct p as [p|p|]; try reflexivity).
Qed.

(** [toFixed] prints exactly [k] digits after the point, and no point when
    [k] is 0. *)
Lemma fixed_shape x k :
  exists sign int_part frac,
    fixed x k = sign +:+ int_part +:+ match k with
                                      | O => ""
                                      | S _ => "." +:+ frac
                                      end /\
    String.length frac = k /\ all_digits frac = true.
Proof.
  unfold fixed.
  set (n := Qfloor _).
  exists (if Qle_bool 0 x then "" else "-"), (digits (n / pow10 k)),
         (low_digits k (n mod pow10 k)).
  split; [|apply low_digits_shape].
  destruct k; [|reflexivity].
  f_equal. induction (digits _) as [|c s IH]; [reflexivity|].
  change (String c s +:+ "") with (String c (s +:+ "")). now rewrite <- IH.
Qed.

(** Below 10^21 in magnitude [toFixed] prints the fixed digits. *)
Lemma toFixed_fixed (amount : number) (f : Z) :
  (Qabs amount < inject_Z (10 ^ 21))%Q -> 0 <= f <= 100 ->
  toFixed (Finite amount) f = Ok (fixed amount (Z.to_nat f)).
Proof.
  intros Hsmall [Hlo Hhi]. unfold toFixed.
  apply Z.ltb_ge in Hlo. apply Z.ltb_ge in Hhi. rewrite Hlo, Hhi. cbn [orb].
  destruct (Qle_bool _ (Qabs amount)) eqn:E; [|reflexivity].
  apply Qle_bool_iff in E. apply Qle_not_lt in E. contradiction.
Qed.

(** C8 (amended).  With codes unique in [currency_config] and a finite
    amount below 10^21 in magnitude: for the code of
    an active currency whose [decimal_places] is between 0 and 100,
    [formatCurrency] returns the symbol immediately followed by the amount
    when the position is [before], and the amount, one space, then the
    symbol when the position is [after]; for a code of no active currency it
    returns the code, one space, and the amount with two decimals.  The
    amount is printed by [toFixed]: with exactly [decimal_places] digits
    after the point (2 for an unknown code). *)
Theorem format_currency (st : State) (amount : number) (x : string) :
  unique_codes st ->
  (Qabs amount < inject_Z (10 ^ 21))%Q ->
  (forall r,
     In r (currency_config (db st)) -> is_active r = true -> Schema.code r = x ->
     0 <= decimal_places r <= 100 ->
     formatCurrency st (Finite amount) x =
       Ok (match symbol_position r with
           | before => Schema.symbol r +:+ fixed amount (Z.to_nat (decimal_places r))
           | after => fixed amount (Z.to_nat (decimal_places r)) +:+ " " +:+ Schema.symbol r
           end)) /\
  ((forall r, In r (currency_config (db st)) -> is_active r = true ->
              Schema.code r <> x) ->
   formatCurrency st (Finite amount) x = Ok (x +:+ " " +:+ fixed amount 2)) /\
  (forall k, exists sign int_part frac,
     fixed amount k = sign +:+ int_part +:+ match k with
                                            | O => ""
                                            | S _ => "." +:+ frac
                                            end /\
     String.length frac = k /\ all_digits frac = true).
Proof.
  intros Huniq Hsmall. unfold formatCurrency, getSupportedCurrencies.
  fold (active_currencies st). cbn [mbind result_bind].
  rewrite find_to_config. repeat split.
  - intros r Hin Hact Hcode Hplaces.
    rewrite (find_known _ _ _ Huniq Hin Hact Hcode). cbn [option_map decimalPlaces to_config].
    change (decimalPlaces (to_config r)) with (decimal_places r).
    rewrite (toFixed_fixed _ _ Hsmall Hplaces). cbn.
    destruct (symbol_position r); reflexivity.
  - intros Hnone. rewrite (find_unknown _ _ Hnone).
    rewrite (toFixed_fixed _ 2 Hsmall ltac:(lia)). reflexivity.
  - intros k. apply fixed_shape.
Qed.

Lemma format_currency_witness :
  formatCurrency st_config (Finite (25 # 2)%Q) "USD" = Ok "$12.50" /\
  formatCurrency st_config (Finite (12345 # 10)%Q) "JPY" = Ok "Y1235" /\
  formatCurrency st_config (Finite (25 # 2)%Q) "CHF" = Ok "12.50 CHF" /\
  formatCurrency st_config (Finite (25 # 2)%Q) "XXX" = Ok "XXX 12.50".
Proof.
  assert (Huniq : unique_codes st_config).
  { unfold unique_codes. cbn. repeat constructor; cbn; intuition discriminate. }
  split; [|split; [|split]].
  - apply (proj1 (format_currency st_config (25 # 2)%Q "USD" Huniq
                    ltac:(reflexivity))
             {| Schema.code := "USD"; Schema.name := "US Dollar";
                Schema.symbol := "$"; symbol_position := before;
                decimal_places := 2; is_active := true;
                is_base_currency := true |});
      cbn; auto; lia.
  - apply (proj1 (format_currency st_config (12345 # 10)%Q "JPY" Huniq
                    ltac:(reflexivity))
             {| Schema.code := "JPY"; Schema.name := "Japanese Yen";
                Schema.symbol := "Y"; symbol_position := before;
                decimal_places := 0; is_active := true;
                is_base_currency := false |});
      cbn; auto; lia.
  - apply (proj1 (format_currency st_config (25 # 2)%Q "CHF" Huniq
                    ltac:(reflexivity))
             {| Schema.code := "CHF"; Schema.name := "Swiss Franc";
                Schema.symbol := "CHF"; symbol_position := after;
                decimal_places := 2; is_active := true;
                is_base_currency := false |});
      cbn; auto; lia.
  - apply (proj1 (proj2 (format_currency st_config (25 # 2)%Q "XXX" Huniq
                           ltac:(reflexivity)))).
    cbn. intros r [<-|[<-|[<-|[]]]] _; discriminate.
Defined.

(** Counterexample to C8 as the specification words it, with the symbol
    right after the amount.  For the Swiss franc (position [after]) the
    code puts a space in between. *)
Lemma format_after_has_space :
  formatCurrency st_config (Finite 100%Q) "CHF" = Ok "100.00 CHF" /\
  formatCurrency st_config (Finite 100%Q) "CHF" <> Ok ("100.00" +:+ "CHF").
Proof. split; [vm_compute; reflexivity | vm_compute; discriminate]. Qed.

(** From 10^21 on [toFixed] answers in exponential form, without the
    decimals asked for, and a value that is not finite is printed by its
    name. *)
Example format_beyond_fixed :
  formatCurrency st_config (Finite (inject_Z (10 ^ 21))) "USD" = Ok "$1e+21" /\
  formatCurrency st_config (Finite (- inject_Z 1234567890123456774144)%Q) "CHF"
    = Ok "-1.2345678901234568e+21 CHF" /\
  formatCurrency st_config (Finite (inject_Z (10 ^ 21 - 131072))) "USD"
    = Ok "$999999999999999868928.00" /\
  formatCurrency st_config NaN "USD" = Ok "$NaN" /\
  formatCurrency st_config NegInfinity "XXX" = Ok "XXX -Infinity".
Proof. repeat split; vm_compute; reflexivity. Qed.

(** [decimal_places] is an INTEGER with no upper bound in the schema;
    [toFixed] refuses more than 100 digits. *)
Example format_too_many_decimals :
  formatCurrency
    {| db := {| exchange_rates := []; exchange_rate_history := [];
                currency_config :=
                  [ {| Schema.code := "BTC"; Schema.name := "Bitcoin";
                       Schema.symbol := "B"; symbol_position := before;
                       decimal_places := 101; is_active := true;
                       is_base_currency := false |} ];
                time_zone := utc |};
       cachedRates := ∅ |} (Finite 1%Q) "BTC"
  = Err RangeError.
Proof. vm_compute. reflexivity. Qed.

(** ** The discount engine *)

Module DiscountFacts.
Import DiscountEngine DiscountScenario.

(** Every recorded discount is one of the discounts handed to
    [apply_discounts]. *)
Lemma apply_discounts_from ds c sub : forall remaining a,
  In a (fst (apply_discounts ds c sub remaining)) ->
  exists d, In d ds /\ id d = discountId a /\ type d = a_type a.
Proof.
  induction ds as [|d ds IH]; intros remaining a; cbn; [easy|].
  destruct (apply_discounts ds c sub _) as [applied gifts] eqn:E.
  specialize (IH (remaining - contribution d c sub remaining)%Q a).
  rewrite E in IH. cbn in IH.
  destruct (_ || _); cbn.
  - intros [<-|Hin]; [exists d; cbn; auto|].
    destruct (IH Hin) as (d' & ? & ?). exists d'. auto.
  - intros Hin. destruct (IH Hin) as (d' & ? & ?). exists d'. auto.
Qed.

Lemma price_ok c ds snap :
  price c ds = Ok snap ->
  valid_cart c = true /\
  subtotal snap = raw_subtotal c /\
  appliedDiscounts snap =
    fst (apply_discounts
           (List.filter (fun d => applicable d c (raw_subtotal c)) ds)
           c (raw_subtotal c) (raw_subtotal c)).
Proof.
  unfold price. intros H. inv_ok H. apply check_ok in Hstep.
  destruct (apply_discounts _ _ _ _) as [applied gifts].
  injection H as <-. auto.
Qed.

(** C9.  A discount applies only if every one of its conditions evaluates
    true: this holds of the applicability test and of every discount the
    engine records in [appliedDiscounts].  A condition on a customer or
    payment field that the context lacks evaluates to false, whatever its
    operator and value. *)
Theorem conditions_conjunctive :
  (forall d c sub,
     applicable d c sub = true ->
     forall cond, In cond (conditions d) -> matches cond c sub = true) /\
  (forall c ds snap a,
     price c ds = Ok snap -> In a (appliedDiscounts snap) ->
     exists d, In d ds /\ id d = discountId a /\
       forall cond, In cond (conditions d) -> matches cond c (subtotal snap) = true) /\
  (forall cond c sub,
     reads_context_field (c_type cond) = true ->
     context_field (c_type cond) c = None ->
     matches cond c sub = false).
Proof.
  assert (Happ : forall d c sub, applicable d c sub = true ->
            forall cond, In cond (conditions d) -> matches cond c sub = true).
  { intros d c sub H cond Hin. unfold applicable in H.
    apply andb_true_iff in H as [[_ H]%andb_true_iff _].
    unfold conditions_hold in H. rewrite forallb_forall in H. now apply H. }
  split; [exact Happ|]. split.
  - intros c ds snap a (_ & Hsub & Happlied)%price_ok Hin.
    rewrite Happlied in Hin.
    apply apply_discounts_from in Hin as (d & [Hd Hok]%List.filter_In & Hid & _).
    exists d. rewrite Hsub. eauto.
  - intros cond c sub Hreads Hnone. unfold matches.
    destruct (c_type cond); try discriminate; now rewrite Hnone.
Qed.

Lemma conditions_conjunctive_witness :
  matches visa_only cash_cart 150%Q = false /\
  price cash_cart [visa_discount; ten_percent] = price cash_cart [ten_percent].
Proof.
  split.
  - apply (proj2 (proj2 conditions_conjunctive) visa_only cash_cart 150%Q);
      reflexivity.
  - vm_compute. reflexivity.
Defined.

(** C4.  For a structurally valid cart and any list of discounts the
    engine returns a snapshot; its tax is the tax rate applied to the
    subtotal after discounts, its total is subtotal - discountAmount +
    taxAmount floored at zero, and so the total is never negative.  A cart
    that is not valid is refused. *)
Theorem total_non_negative (c : Cart) (ds : list Discount) :
  (valid_cart c = true ->
   exists snap,
     price c ds = Ok snap /\
     (0 <= total snap)%Q /\
     taxAmount snap = ((subtotal snap - discountAmount snap) * taxRate c)%Q /\
     total snap = Qmax 0 (subtotal snap - discountAmount snap + taxAmount snap)) /\
  (valid_cart c = false -> price c ds = Err InvalidCartError).
Proof.
  unfold price. split; intros ->; [|reflexivity]. cbn [check mbind result_bind].
  destruct (apply_discounts _ _ _ _) as [applied gifts].
  eexists. split; [reflexivity|]. cbn. repeat split. apply Q.le_max_l.
Qed.

Lemma total_non_negative_witness :
  exists snap,
    price cash_cart [ten_percent] = Ok snap /\
    (0 <= total snap)%Q /\
    taxAmount snap = ((subtotal snap - discountAmount snap) * taxRate cash_cart)%Q /\
    total snap = Qmax 0 (subtotal snap - discountAmount snap + taxAmount snap).
Proof.
  apply (proj1 (total_non_negative cash_cart [ten_percent])). reflexivity.
Defined.

(** The scenario in numbers: discount 15.00, tax 11.8125, total 146.8125. *)
Example priced_scenario :
  exists snap,
    price cash_cart [ten_percent] = Ok snap /\
    (subtotal snap == 150)%Q /\ (discountAmount snap == 15)%Q /\
    (taxAmount snap == 11.8125)%Q /\ (total snap == 146.8125)%Q.
Proof. eexists. split; [vm_compute; reflexivity|]. repeat split. Qed.

(** Two buy-one-get-one discounts on the same product give away more than
    the cart is worth: the total is floored at 0. *)
Example total_floored :
  let free_p := fun i =>
    {| id := i; name := "Free P"; type := bogo; value := 0%Q;
       conditions := [ {| c_type := specific_products; c_value := VStr "P";
                          operator := None; minQuantity := Some 1%Q |} ];
       freeGiftProducts := []; minAmount := None; maxDiscount := None;
       validFrom := 0; validTo := 10; validDays := None; active := true |} in
  exists snap,
    price cash_cart [ free_p "d3"; free_p "d4" ] = Ok snap /\
    (discountAmount snap == 300)%Q /\ (total snap == 0)%Q.
Proof. eexists. split; [vm_compute; reflexivity|]. split; reflexivity. Qed.

End DiscountFacts.

(** * More of the code *)

Module StoreMore.

(** The previous rate a successful update has found is positive. *)
Lemma update_ok_previous db now b t p src m db' prev :
  update_exchange_rate db now b t p src m = Ok db' ->
  rate <$> select_current db now b t = Some prev ->
  Qle_bool prev 0 = false.
Proof.
  unfold update_exchange_rate. intros H Hprev. inv_ok H.
  unfold insert_history in Hstep2. inv_ok Hstep2.
  rewrite Hprev in Hstep5. apply check_ok in Hstep5.
  now apply negb_true_iff in Hstep5.
Qed.

(** X1.  [CurrencyUtils.updateExchangeRate] succeeds only for a rate from
    0.000000005 up to, not including, 10000000: what rounds to zero or less
    at eight decimals is refused by the positivity constraint, what needs
    more than seven integer digits by the column type.  (The rate is a
    finite number: JSON has no other, and the null that stands for NaN or
    an infinity is refused by NOT NULL.) *)
Theorem update_accepts_only_storable_rates st db_now b t rate src m st' :
  updateExchangeRate st db_now b t rate src m = Ok st' ->
  (1 # 200000000 <= rate)%Q /\ (rate < 10000000)%Q.
Proof.
  intros [Hdb _]%updateExchangeRate_ok.
  apply update_ok_inv in Hdb as (ch & cl & stored & _ & _ & Hst & Hpos & _).
  destruct (to_decimal_units _ _ _ _ Hst) as (n & Hfit & Hv & Herr).
  change (pow10 15) with 1000000000000000 in Hfit.
  change (inject_Z (pow10 8)) with 100000000%Q in Herr.
  assert (Hn : 1 <= n).
  { destruct (Z_lt_le_dec n 1) as [Hlt|]; [|assumption]. exfalso.
    assert (Hle : Qle_bool stored 0 = true); [|congruence].
    apply Qle_bool_iff. rewrite Hv. unfold Qle. cbn. lia. }
  apply Qabs_Qle_condition in Herr as [Hlo Hhi].
  assert (H1 : (1 <= inject_Z n)%Q)
    by (change 1%Q with (inject_Z 1); rewrite <- Zle_Qle; exact Hn).
  assert (H2 : (inject_Z n <= 999999999999999)%Q).
  { change 999999999999999%Q with (inject_Z 999999999999999).
    rewrite <- Zle_Qle. lia. }
  split; lra.
Qed.

Lemma update_accepts_only_storable_rates_witness :
  (1 # 200000000 <= 0.85)%Q /\ (0.85 < 10000000)%Q.
Proof.
  apply (update_accepts_only_storable_rates initial_state 10 "USD" "EUR" 0.85%Q
           "api" false st_once).
  vm_compute. reflexivity.
Defined.

(** A rate of 0.000000004 rounds to zero and is refused. *)
Example update_refuses_tiny_rate :
  updateExchangeRate initial_state 10 "USD" "EUR" 0.000000004%Q "api" false
  = Err (check_violation "exchange_rates_rate_positive").
Proof. vm_compute. reflexivity. Qed.

(** X2.  A successful update stores the rate within 0.000000005 of the one
    asked for and appends one history entry with that stored rate and the
    previous current rate of the pair.  The entry is recorded at the UTC
    wall clock of the call read in the time zone of the session.  When
    there was a previous rate its change percentage is within 0.0000505 of
    (rate - previous) / previous * 100; with no previous rate both history
    fields are NULL. *)
Theorem update_records_within_tolerance db now b t p src m db' :
  update_exchange_rate db now b t p src m = Ok db' ->
  exists h,
    exchange_rate_history db' = exchange_rate_history db ++ [h] /\
    h_base_currency h = b /\ h_target_currency h = t /\
    recorded_at h = time_zone db now /\
    (Qabs (h_rate h - p) <= 1 # 200000000)%Q /\
    previous_rate h = rate <$> select_current db now b t /\
    match previous_rate h with
    | Some prev =>
        exists c, change_percentage h = Some c /\
                  (Qabs (c - ((p - prev) / prev) * 100) <= 101 # 2000000)%Q
    | None => change_percentage h = None
    end.
Proof.
  intros H.
  pose proof H as (ch & cl & stored & Hch & _ & Hst & _ & _ & Hhist & _)%update_ok_inv.
  eexists. split; [exact Hhist|]. cbn.
  split; [reflexivity|]. split; [reflexivity|]. split; [reflexivity|].
  split; [apply (to_decimal_error _ _ _ _ Hst)|]. split; [reflexivity|].
  destruct (rate <$> select_current db now b t) as [prev|] eqn:Hprev.
  - pose proof (update_ok_previous _ _ _ _ _ _ _ _ _ H Hprev) as Hpos.
    destruct (compute_change_some _ _ _ Hpos Hch) as (c & Hc & ->).
    exists c. split; [reflexivity|]. apply (stored_change_error _ _ _ Hc).
  - cbn in Hch. now injection Hch as <-.
Qed.

Lemma update_records_within_tolerance_witness :
  exists h,
    exchange_rate_history db_colombo_twice
      = exchange_rate_history db_colombo_once ++ [h] /\
    h_base_currency h = "USD" /\ h_target_currency h = "EUR" /\
    recorded_at h = 40000 - 19800 /\
    (Qabs (h_rate h - 0.9) <= 1 # 200000000)%Q /\
    previous_rate h = rate <$> select_current db_colombo_once 40000 "USD" "EUR" /\
    match previous_rate h with
    | Some prev =>
        exists c, change_percentage h = Some c /\
                  (Qabs (c - ((0.9 - prev) / prev) * 100) <= 101 # 2000000)%Q
    | None => change_percentage h = None
    end.
Proof.
  apply (update_records_within_tolerance db_colombo_once 40000 "USD" "EUR" 0.9%Q
           "manual" true).
  vm_compute. reflexivity.
Defined.

End StoreMore.

Module TableFacts.
Import CurrencyQueries Ledger.

Lemma filter_andb {A} (f g : A -> bool) (l : list A) :
  List.filter (fun x => f x && g x) l = List.filter g (List.filter f l).
Proof.
  induction l as [|x l IH]; cbn; [reflexivity|].
  destruct (f x); cbn; [destruct (g x)|]; now rewrite IH.
Qed.

(** The UPDATE leaves the rows of every other pair as they are. *)
Lemma close_current_other now b t rows rows' b2 t2 :
  close_current now b t rows = Ok rows' ->
  String.eqb b2 b && String.eqb t2 t = false ->
  List.filter (for_pair b2 t2) rows' = List.filter (for_pair b2 t2) rows.
Proof.
  intros H E. revert rows' H.
  induction rows as [|r rows IH]; intros rows' H; cbn in H.
  - now injection H as <-.
  - inv_ok H. injection H as <-. cbn [List.filter]. rewrite (IH _ Hstep0).
    destruct (for_pair b t r && is_current now r) eqn:Hsel.
    + apply andb_true_iff in Hsel as [Hp _].
      apply close_row_ok in Hstep as (_ & Hb & Ht & _).
      assert (Hr : for_pair b2 t2 r = false).
      { apply (for_pair_eq b t) in Hp as [Hb' Ht']. unfold for_pair.
        now rewrite Hb', Ht', (String.eqb_sym b b2), (String.eqb_sym t t2). }
      assert (Ha : for_pair b2 t2 a = false).
      { unfold for_pair in *. now rewrite Hb, Ht. }
      now rewrite Hr, Ha.
    + now injection Hstep as <-.
Qed.

Lemma select_current_other db now b t p src m db' b2 t2 now' :
  update_exchange_rate db now b t p src m = Ok db' ->
  String.eqb b2 b && String.eqb t2 t = false ->
  select_current db' now' b2 t2 = select_current db now' b2 t2.
Proof.
  intros (ch & closed & stored & _ & Hclose & _ & _ & Hrows & _)%update_ok_inv E.
  unfold select_current. rewrite !filter_andb, Hrows, List.filter_app.
  rewrite (close_current_other _ _ _ _ _ _ _ Hclose E).
  cbn [List.filter]. rewrite for_pair_new_row, E. cbn. now rewrite app_nil_r.
Qed.

(** X3.  Updates of different pairs are independent: a successful update
    of (b, t) leaves the current record of every other pair as it was, at
    every instant, and so the answer of [get_current_exchange_rate] for
    every pair other than (b, t) and its reverse (t, b). *)
Theorem update_leaves_other_pairs db now b t p src m db' :
  update_exchange_rate db now b t p src m = Ok db' ->
  forall b2 t2 now',
    (b2, t2) <> (b, t) ->
    select_current db' now' b2 t2 = select_current db now' b2 t2 /\
    ((b2, t2) <> (t, b) ->
     get_current_exchange_rate db' now' b2 t2
       = get_current_exchange_rate db now' b2 t2).
Proof.
  intros H b2 t2 now' Hne.
  assert (E : forall x y, (x, y) <> (b, t) ->
                          String.eqb x b && String.eqb y t = false).
  { intros x y Hxy. destruct (String.eqb x b) eqn:Ex; [|reflexivity].
    destruct (String.eqb y t) eqn:Ey; [|reflexivity].
    apply String.eqb_eq in Ex, Ey. subst. contradiction. }
  split; [now apply (select_current_other _ _ _ _ _ _ _ _ _ _ _ H), E|].
  intros Hrev. unfold get_current_exchange_rate.
  rewrite (select_current_other _ _ _ _ _ _ _ _ b2 t2 now' H (E _ _ Hne)).
  rewrite (select_current_other _ _ _ _ _ _ _ _ t2 b2 now' H); [reflexivity|].
  apply E. intros [= -> ->]. now apply Hrev.
Qed.

Lemma update_leaves_other_pairs_witness :
  select_current db_twice 30 "USD" "GBP" = select_current db_once 30 "USD" "GBP" /\
  get_current_exchange_rate db_twice 30 "USD" "GBP"
    = get_current_exchange_rate db_once 30 "USD" "GBP".
Proof.
  destruct (update_leaves_other_pairs db_once 20 "USD" "EUR" 0.9%Q "manual" true
              db_twice ltac:(vm_compute; reflexivity) "USD" "GBP" 30
              ltac:(discriminate)) as [Hsel Hrate].
  split; [exact Hsel | apply Hrate; discriminate].
Defined.

(** X4.  After a successful update of a pair, a second update of that pair
    at the same or an earlier database instant is refused: the row it
    would close would end no later than it starts. *)
Theorem update_needs_later_instant db now1 now2 b t p1 src1 m1 p2 src2 m2 db1 :
  update_exchange_rate db now1 b t p1 src1 m1 = Ok db1 ->
  now2 <= now1 ->
  exists e, update_exchange_rate db1 now2 b t p2 src2 m2 = Err e.
Proof.
  intros H1 Hle.
  destruct (update_exchange_rate db1 now2 b t p2 src2 m2) as [db2|e] eqn:H2;
    [|eauto].
  pose proof (update_twice_later _ _ _ _ _ _ _ _ _ _ _ _ _ H1 H2). lia.
Qed.

Lemma update_needs_later_instant_witness :
  exists e, update_exchange_rate db_once 10 "USD" "EUR" 0.9%Q "manual" true = Err e.
Proof.
  apply (update_needs_later_instant empty_db 10 10 "USD" "EUR" 0.85%Q "api" false
           0.9%Q "manual" true db_once); [vm_compute; reflexivity | lia].
Defined.

End TableFacts.

Module LedgerFacts.
Import Ledger.

Lemma same_rate_record_refl r : same_rate_record r r.
Proof. repeat split. Qed.

Lemma same_rate_record_trans r1 r2 r3 :
  same_rate_record r1 r2 -> same_rate_record r2 r3 -> same_rate_record r1 r3.
Proof.
  unfold same_rate_record. intros (?&?&?&?&?&?) (?&?&?&?&?&?).
  repeat split; congruence.
Qed.

(** The UPDATE keeps every row; it only sets [effective_to]. *)
Lemma close_current_persist now b t rows rows' :
  close_current now b t rows = Ok rows' ->
  length rows' = length rows /\
  forall r, In r rows ->
    exists r', In r' rows' /\ same_rate_record r r' /\
               (effective_to r' = None -> effective_to r = None).
Proof.
  revert rows'. induction rows as [|r0 rows IH]; intros rows' H; cbn in H.
  - injection H as <-. split; [reflexivity | intros r []].
  - inv_ok H. injection H as <-. destruct (IH _ Hstep0) as [Hlen Hall].
    split; [cbn; now rewrite Hlen|].
    intros r [<-|Hin].
    + exists a. split; [now left|].
      destruct (for_pair b t r0 && is_current now r0).
      * unfold close_row in Hstep. inv_ok Hstep. injection Hstep as <-.
        split; [repeat split | discriminate].
      * injection Hstep as <-. split; [apply same_rate_record_refl | auto].
    + destruct (Hall r Hin) as (r' & Hin' & Hsame). exists r'. split; [now right | exact Hsame].
Qed.

(** One successful update: one more row in each table, no row lost. *)
Lemma update_step_tables db now b t p src m db' :
  update_exchange_rate db now b t p src m = Ok db' ->
  (exists h, exchange_rate_history db' = exchange_rate_history db ++ [h]) /\
  length (exchange_rates db') = S (length (exchange_rates db)) /\
  forall r, In r (exchange_rates db) ->
    exists r', In r' (exchange_rates db') /\ same_rate_record r r' /\
               (effective_to r' = None -> effective_to r = None).
Proof.
  intros (ch & closed & stored & _ & Hclose & _ & _ & Hrows & Hhist & _)%update_ok_inv.
  destruct (close_current_persist _ _ _ _ _ Hclose) as [Hlen Hall].
  split; [eauto|]. rewrite Hrows. split.
  - rewrite length_app, Hlen. cbn. lia.
  - intros r Hin. destruct (Hall r Hin) as (r' & Hin' & Hsame).
    exists r'. split; [apply in_or_app; now left | exact Hsame].
Qed.

(** X5.  Supersession, not deletion: over any run of updates the history
    only grows at its end, by at most one entry per call; the rate table
    grows by exactly as many rows; and every rate row that was there is
    still there with the same pair, rate, source and start, and is not
    reopened once closed. *)
Theorem tables_only_grow (calls : list UpdateCall) : forall db,
  exists suffix,
    exchange_rate_history (run_updates db calls)
      = exchange_rate_history db ++ suffix /\
    (length suffix <= length calls)%nat /\
    length (exchange_rates (run_updates db calls))
      = (length (exchange_rates db) + length suffix)%nat /\
    forall r, In r (exchange_rates db) ->
      exists r', In r' (exchange_rates (run_updates db calls)) /\
                 same_rate_record r r' /\
                 (effective_to r' = None -> effective_to r = None).
Proof.
  induction calls as [|c calls IH]; intros db.
  - exists []. cbn. rewrite app_nil_r. repeat split; try lia.
    intros r Hin. exists r. split; [exact Hin|].
    split; [apply same_rate_record_refl | auto].
  - cbn [run_updates fold_left]. fold (run_updates (apply_update db c) calls).
    destruct (IH (apply_update db c)) as (suffix & Hh & Hlen & Hrows & Hall).
    unfold apply_update in *.
    destruct (update_exchange_rate db (u_now c) (u_base c) (u_target c)
                (u_rate c) (u_source c) (u_manual c)) as [db1|e] eqn:E.
    + destruct (update_step_tables _ _ _ _ _ _ _ _ E) as ([h Hh1] & Hlen1 & Hall1).
      exists (h :: suffix). rewrite Hh, Hh1, <- app_assoc. cbn.
      repeat split; [lia | lia |].
      intros r Hin. destruct (Hall1 r Hin) as (r1 & Hin1 & Hs1 & Hn1).
      destruct (Hall r1 Hin1) as (r2 & Hin2 & Hs2 & Hn2).
      exists r2. split; [exact Hin2|].
      split; [eapply same_rate_record_trans; eassumption | auto].
    + exists suffix. cbn. repeat split; try assumption. lia.
Qed.

Lemma chained_app_one prev hs h :
  chained prev hs ->
  previous_rate h = match last hs with
                    | Some x => Some (h_rate x)
                    | None => prev
                    end ->
  chained prev (hs ++ [h]).
Proof.
  revert prev. induction hs as [|a hs IH]; intros prev; cbn [chained app].
  - intros _ Hp. cbn in Hp. auto.
  - intros [Ha Hc] Hp. split; [exact Ha|]. apply IH; [exact Hc|].
    rewrite last_cons in Hp. destruct (last hs); exact Hp.
Qed.

(** A successful update of a well formed store keeps the ledger in step
    with the rate table. *)
Lemma update_ledger db now b t p src m db' :
  store_ok db now -> ledger_inv db ->
  update_exchange_rate db now b t p src m = Ok db' ->
  ledger_inv db'.
Proof.
  intros (Hinv & Hpast & _) Hled H b2 t2.
  destruct (update_open_records _ _ _ _ _ _ _ _ b2 t2 H) as (stored & Hst & Hopen).
  pose proof H as (ch & cl & stored' & _ & _ & Hst' & _ & _ & Hhist & _)%update_ok_inv.
  assert (stored' = stored) by congruence. subst stored'.
  destruct (Hled b2 t2) as [Hchain Hlast].
  unfold pair_history in *. rewrite Hhist, List.filter_app. cbn [List.filter].
  unfold CurrencyQueries.history_for_pair at 2 4. cbn.
  rewrite (String.eqb_sym b b2), (String.eqb_sym t t2), Hopen.
  destruct (String.eqb b2 b && String.eqb t2 t) eqn:E.
  - apply andb_true_iff in E as [->%String.eqb_eq ->%String.eqb_eq].
    split.
    + apply chained_app_one; [exact Hchain|]. cbn.
      rewrite (select_current_open _ _ _ _ Hpast Hinv), <- Hlast.
      now destruct (last _).
    + now rewrite last_snoc.
  - rewrite app_nil_r. split; assumption.
Qed.

Lemma ledger_inv_empty : ledger_inv empty_db.
Proof. intros b t. cbn. auto. Qed.

Lemma run_updates_ledger calls : forall db now,
  store_ok db now -> ledger_inv db -> chronological now calls ->
  ledger_inv (run_updates db calls).
Proof.
  induction calls as [|c calls IH]; intros db now Hok Hled Hchrono; [exact Hled|].
  destruct Hchrono as [Hle Hrest]. cbn.
  apply (store_ok_later _ _ _ Hok) in Hle.
  unfold apply_update. destruct update_exchange_rate eqn:E.
  - apply (IH _ (u_now c)); [| |exact Hrest].
    + eapply update_store_ok; eassumption.
    + eapply update_ledger; eassumption.
  - apply (IH _ (u_now c)); assumption.
Qed.

(** X6.  The history is in step with the rate table: in every store that
    updates at successive instants build from the empty one, the history
    entries of each pair form a chain (the first has no previous rate,
    each later one names the rate of the entry before it), and the last
    entry carries the rate of the pair's active record. *)
Theorem history_is_a_chain (now : Z) (calls : list UpdateCall) :
  chronological now calls ->
  ledger_inv (run_updates empty_db calls).
Proof.
  apply run_updates_ledger; [apply store_ok_empty | apply ledger_inv_empty].
Qed.

Lemma history_is_a_chain_witness :
  ledger_inv (run_updates empty_db [usd_eur_085; usd_eur_090]).
Proof.
  apply (history_is_a_chain 0 [usd_eur_085; usd_eur_090]).
  cbn. lia.
Defined.

End LedgerFacts.

Module AmountFacts.
Import Amounts.

Lemma to_decimal_comp (p s : nat) (q q' : Q) :
  (q == q')%Q -> to_decimal p s q = to_decimal p s q'.
Proof.
  intros E. unfold to_decimal.
  assert (E' : (q * inject_Z (pow10 s) == q' * inject_Z (pow10 s))%Q)
    by now rewrite E.
  now rewrite (round_half_away_comp _ _ E').
Qed.

(** X7.  [convert_currency_amount] between equal codes, or between codes
    with no current rate in either direction, multiplies by 1.0: the
    result is the amount coerced to DECIMAL(12,2), so an amount of at most
    two decimals below 10^10 comes back unchanged. *)
Theorem convert_amount_at_par db now a f t :
  f = t \/ (select_current db now f t = None /\ select_current db now t f = None) ->
  convert_currency_amount db now a f t = to_decimal 12 2 a /\
  forall n, (a == n # 100)%Q -> Z.abs n < 10 ^ 12 ->
    exists v, convert_currency_amount db now a f t = Ok v /\ (v == a)%Q.
Proof.
  intros Hpar.
  assert (Hrate : get_current_exchange_rate db now f t = Ok 1%Q).
  { unfold get_current_exchange_rate. destruct Hpar as [->|[-> ->]].
    - now rewrite String.eqb_refl.
    - now destruct (String.eqb f t). }
  assert (E : convert_currency_amount db now a f t = to_decimal 12 2 a).
  { unfold convert_currency_amount. rewrite Hrate. cbn [mbind result_bind].
    change (to_decimal 15 8 1) with (Ok 1%Q). cbn [mbind result_bind].
    apply to_decimal_comp, Qmult_1_r. }
  split; [exact E|]. intros n Ha Hfit. rewrite E, (to_decimal_comp _ _ _ _ Ha).
  destruct (to_decimal_exact 12 2 n Hfit) as (v & Hv & Heq).
  exists v. split; [exact Hv | now rewrite Ha].
Qed.

Lemma convert_amount_at_par_witness :
  exists v, convert_currency_amount db_once 15 12.5%Q "GBP" "JPY" = Ok v /\
            (v == 12.5)%Q.
Proof.
  apply (proj2 (convert_amount_at_par db_once 15 12.5%Q "GBP" "JPY"
                  (or_intror (conj eq_refl eq_refl))) 1250).
  - reflexivity.
  - reflexivity.
Defined.

(** With USD to EUR at 0.85, 19.99 USD are 16.99 EUR (16.9915 rounded),
    and 19.99 EUR are 23.52 USD through the reverse rate 1.17647059. *)
Example convert_amount_example :
  (exists v, convert_currency_amount db_once 15 19.99%Q "USD" "EUR" = Ok v /\
             (v == 16.99)%Q) /\
  (exists v, convert_currency_amount db_once 15 19.99%Q "EUR" "USD" = Ok v /\
             (v == 23.52)%Q).
Proof. split; eexists; split; vm_compute; reflexivity. Qed.

End AmountFacts.

(** ** Ordered queries *)

Module OrderingFacts.
Import Ordering.

Section Order.

Context {A : Type} (leb : A -> A -> bool).
Hypothesis leb_total : forall x y, leb x y = false -> leb y x = true.

Lemma insert_by_perm x l : Permutation (insert_by leb x l) (x :: l).
Proof.
  induction l as [|y l IH]; cbn; [reflexivity|].
  destruct (leb x y); [reflexivity|]. rewrite IH. apply perm_swap.
Qed.

Lemma order_by_perm l : Permutation (order_by leb l) l.
Proof.
  induction l as [|x l IH]; cbn; [reflexivity|].
  rewrite insert_by_perm. now apply perm_skip.
Qed.

Lemma insert_by_sorted x l :
  Sorted (fun a b => leb a b = true) l ->
  Sorted (fun a b => leb a b = true) (insert_by leb x l).
Proof.
  induction 1 as [|y l Hs IH Hhd]; cbn; [repeat constructor|].
  destruct (leb x y) eqn:E.
  - constructor; [now constructor | now constructor].
  - constructor; [exact IH|].
    destruct Hhd as [|z l Hyz]; cbn; [constructor; auto|].
    destruct (leb x z); constructor; auto.
Qed.

Lemma order_by_sorted l : Sorted (fun a b => leb a b = true) (order_by leb l).
Proof.
  induction l as [|x l IH]; cbn; [constructor | now apply insert_by_sorted].
Qed.

(** What is smaller than nothing in the list goes to its end. *)
Lemma insert_by_last x l :
  (forall y, In y l -> leb x y = false) -> insert_by leb x l = l ++ [x].
Proof.
  induction l as [|y l IH]; intros H; cbn; [reflexivity|].
  rewrite (H y (or_introl eq_refl)), IH; [reflexivity|].
  intros z Hz. apply H. now right.
Qed.

End Order.

Lemma Sorted_firstn {A} (R : A -> A -> Prop) (n : nat) (l : list A) :
  Sorted R l -> Sorted R (firstn n l).
Proof.
  intros H. revert n. induction H as [|x l Hs IH Hhd]; intros [|n]; cbn;
    try constructor; [apply IH|].
  destruct Hhd as [|y l Hxy]; [destruct n; constructor|].
  destruct n; cbn; constructor. exact Hxy.
Qed.

(** Keys that no two elements share: each key selects at most one. *)
Lemma NoDup_of_unique_keys {A} (key : A -> string) (l : list A) :
  (forall k, (length (List.filter (fun x => String.eqb (key x) k) l) <= 1)%nat) ->
  List.NoDup (map key l).
Proof.
  induction l as [|x l IH]; intros H; cbn; constructor.
  - intros Hin. apply in_map_iff in Hin as (y & Heq & Hy).
    specialize (H (key x)). cbn in H. rewrite String.eqb_refl in H. cbn in H.
    assert (Hy' : In y (List.filter (fun z => String.eqb (key z) (key x)) l)).
    { apply List.filter_In. split; [exact Hy | now apply String.eqb_eq]. }
    destruct (List.filter _ l); [destruct Hy' | cbn in H; lia].
  - apply IH. intros k. specialize (H k). cbn in H.
    destruct (String.eqb (key x) k); cbn in H; lia.
Qed.

End OrderingFacts.

(** ** [CurrencyUtils]: the queries *)

Module QueryFacts.
Import Ordering OrderingFacts CurrencyQueries Ledger.

Lemma target_leb_total r1 r2 : target_leb r1 r2 = false -> target_leb r2 r1 = true.
Proof.
  unfold target_leb. intros H.
  destruct (String.leb_total (target_currency r1) (target_currency r2));
    congruence.
Qed.

Lemma open_for_base_target b t rows :
  List.filter (fun r => String.eqb (target_currency r) t)
              (List.filter (open_for_base b) rows)
  = List.filter (is_open b t) rows.
Proof.
  rewrite <- TableFacts.filter_andb. apply List.filter_ext. intros r.
  unfold open_for_base, is_open, for_pair.
  destruct (String.eqb (base_currency r) b), (String.eqb (target_currency r) t),
    (effective_to r); reflexivity.
Qed.

(** Reading a pair whose active record is [r], past the cache. *)
Lemma read_direct st now db_now b t r :
  b <> t -> cache_miss st now b t -> store_ok (db st) db_now ->
  active_record (db st) b t r ->
  fst (getCurrentExchangeRate st now db_now b t) = Schema.rate r.
Proof.
  intros Hne Hmiss (Hinv & Hpast & Hvalid) Hr.
  rewrite (getCurrentExchangeRate_miss _ _ _ _ _ Hne Hmiss).
  unfold get_current_exchange_rate. apply String.eqb_neq in Hne. rewrite Hne.
  rewrite (select_current_open _ _ _ _ Hpast Hinv),
          (active_record_open _ _ _ _ Hinv Hr). cbn.
  destruct (Hvalid r (proj1 Hr)) as [Hpos _].
  now rewrite (Qlt_0_neq0 _ Hpos).
Qed.

(** X8.  [getAllCurrentRates(base)] returns exactly the records of that
    base whose [effective_to] is NULL, in ascending order of target; in a
    store with at most one active record per pair no target appears
    twice. *)
Theorem all_current_rates_one_per_target (st : State) (b : string) :
  supersession_inv (db st) ->
  exists rows,
    getAllCurrentRates st b = Ok (map to_exchange_rate rows) /\
    Permutation rows (List.filter (open_for_base b) (exchange_rates (db st))) /\
    Sorted (fun r1 r2 => String.leb (target_currency r1) (target_currency r2) = true)
           rows /\
    List.NoDup (map targetCurrency (map to_exchange_rate rows)).
Proof.
  intros Hinv.
  exists (order_by target_leb (List.filter (open_for_base b) (exchange_rates (db st)))).
  split; [reflexivity|]. split; [apply order_by_perm|].
  split; [apply (order_by_sorted _ target_leb_total)|].
  rewrite map_map. cbn.
  eapply Permutation_NoDup.
  - apply Permutation_map. symmetry. apply order_by_perm.
  - apply NoDup_of_unique_keys. intros t.
    rewrite open_for_base_target. apply Hinv.
Qed.

Lemma all_current_rates_one_per_target_witness :
  exists rows,
    getAllCurrentRates st_updated "USD" = Ok (map to_exchange_rate rows) /\
    Permutation rows (List.filter (open_for_base "USD")
                                  (exchange_rates (db st_updated))) /\
    Sorted (fun r1 r2 => String.leb (target_currency r1) (target_currency r2) = true)
           rows /\
    List.NoDup (map targetCurrency (map to_exchange_rate rows)).
Proof.
  apply (all_current_rates_one_per_target st_updated "USD").
  apply (run_updates_inv [usd_eur_085; usd_eur_090] empty_db).
  intros b t. cbn. lia.
Defined.

(** X9.  The rate table agrees with the conversions: in a well formed
    store, each entry [getAllCurrentRates(base)] lists for a target other
    than the base carries the rate [getCurrentExchangeRate(base, target)]
    returns, unless the cache still holds a younger entry for the pair. *)
Theorem listed_rate_is_rate_in_use st now db_now b rates e :
  store_ok (db st) db_now ->
  getAllCurrentRates st b = Ok rates -> In e rates ->
  targetCurrency e <> b ->
  cache_miss st now b (targetCurrency e) ->
  fst (getCurrentExchangeRate st now db_now b (targetCurrency e)) = rate e.
Proof.
  intros Hok [= <-] Hin Hne Hmiss.
  apply in_map_iff in Hin as (r & <- & Hin).
  apply (Permutation_in _ (order_by_perm _ _)) in Hin.
  apply List.filter_In in Hin as [Hin Hopen].
  cbn in *. apply read_direct with (db_now := db_now); auto.
  split; [exact Hin|].
  unfold open_for_base in Hopen. unfold is_open, for_pair.
  apply andb_true_iff in Hopen as [-> ->]. now rewrite String.eqb_refl.
Qed.

Lemma listed_rate_is_rate_in_use_witness :
  fst (getCurrentExchangeRate st_once 0 15 "USD" "EUR") = (17 # 20)%Q.
Proof.
  apply (listed_rate_is_rate_in_use st_once 0 15 "USD"
           [ to_exchange_rate (new_row "USD" "EUR" (17 # 20)%Q "api" false 10) ]
           (to_exchange_rate (new_row "USD" "EUR" (17 # 20)%Q "api" false 10))).
  - apply (store_ok_later _ 10); [|lia].
    apply (update_store_ok empty_db 10 "USD" "EUR" 0.85%Q "api" false);
      [apply store_ok_empty | vm_compute; reflexivity].
  - vm_compute. reflexivity.
  - now left.
  - discriminate.
  - exact I.
Defined.

End QueryFacts.

(** ** [getExchangeRateHistory] *)

Module HistoryFacts.
Import Ordering OrderingFacts CurrencyQueries Ledger.

Lemma newer_leb_total h1 h2 : newer_leb h1 h2 = false -> newer_leb h2 h1 = true.
Proof. unfold newer_leb. intros H. apply Z.leb_gt in H. apply Z.leb_le. lia. Qed.

Lemma Sorted_weaken {A} (R R' : A -> A -> Prop) (l : list A) :
  (forall x y, R x y -> R' x y) -> Sorted R l -> Sorted R' l.
Proof.
  intros Himp. induction 1 as [|x l Hs IH Hhd]; constructor; [exact IH|].
  destruct Hhd; constructor; auto.
Qed.

Lemma In_firstn {A} (x : A) (n : nat) (l : list A) : In x (firstn n l) -> In x l.
Proof.
  revert n. induction l as [|y l IH]; intros [|n]; cbn; try easy.
  intros [->|H]; [now left | right; eauto].
Qed.

Lemma length_firstn_le {A} (n : nat) (l : list A) : (length (firstn n l) <= n)%nat.
Proof.
  revert n. induction l as [|y l IH]; intros [|n]; cbn; try lia.
  specialize (IH n). lia.
Qed.

(** X10.  [getExchangeRateHistory(base, target, limit)] returns at most
    [limit] entries, every one an entry of the history table for that very
    pair, newest first; when the pair has no more than [limit] entries it
    returns all of them. *)
Theorem history_query (st : State) (b t : string) (limit : nat) :
  exists rows,
    getExchangeRateHistory st b t limit = Ok (map to_history rows) /\
    (length rows <= limit)%nat /\
    (forall h, In h rows ->
       In h (exchange_rate_history (db st)) /\
       h_base_currency h = b /\ h_target_currency h = t) /\
    Sorted (fun h1 h2 => recorded_at h2 <= recorded_at h1) rows /\
    ((length (pair_history (db st) b t) <= limit)%nat ->
     Permutation rows (pair_history (db st) b t)).
Proof.
  unfold getExchangeRateHistory. fold (pair_history (db st) b t).
  eexists. split; [reflexivity|]. split; [apply length_firstn_le|].
  split; [|split].
  - intros h Hin%In_firstn.
    apply (Permutation_in _ (order_by_perm _ _)) in Hin.
    apply List.filter_In in Hin as [Hin Hp]. split; [exact Hin|].
    unfold history_for_pair in Hp.
    now apply andb_true_iff in Hp as [?%String.eqb_eq ?%String.eqb_eq].
  - apply Sorted_firstn.
    apply (Sorted_weaken (fun h1 h2 => newer_leb h1 h2 = true));
      [|apply (order_by_sorted _ newer_leb_total)].
    intros h1 h2 H. now apply Z.leb_le in H.
  - intros Hlen. rewrite firstn_all2; [apply order_by_perm|].
    now rewrite (Permutation_length (order_by_perm _ _)).
Qed.

Lemma history_query_witness :
  exists rows,
    getExchangeRateHistory st_updated "USD" "EUR" 1 = Ok (map to_history rows) /\
    (length rows <= 1)%nat /\
    (forall h, In h rows ->
       In h (exchange_rate_history (db st_updated)) /\
       h_base_currency h = "USD" /\ h_target_currency h = "EUR") /\
    Sorted (fun h1 h2 => recorded_at h2 <= recorded_at h1) rows /\
    ((length (pair_history (db st_updated) "USD" "EUR") <= 1)%nat ->
     Permutation rows (pair_history (db st_updated) "USD" "EUR")).
Proof. apply (history_query st_updated "USD" "EUR" 1). Defined.

Lemma StronglySorted_snoc {A} (R : A -> A -> Prop) (l : list A) (z : A) :
  StronglySorted R l -> (forall x, In x l -> R x z) -> StronglySorted R (l ++ [z]).
Proof.
  induction 1 as [|x l Hs IH Hall]; intros Hz; cbn.
  - repeat constructor.
  - constructor; [apply IH; intros y Hy; apply Hz; now right|].
    apply Forall_app. split; [exact Hall|].
    constructor; [apply Hz; now left | constructor].
Qed.

Lemma StronglySorted_last {A} (R : A -> A -> Prop) (l : list A) (z : A) :
  StronglySorted R l -> last l = Some z ->
  forall x, In x l -> x = z \/ R x z.
Proof.
  intros Hs Hlast. apply last_Some in Hlast as [l' ->].
  intros x [Hin|[<-|[]]]%in_app_or; [right | now left].
  clear -Hs Hin. induction l' as [|y l' IH]; [destruct Hin|].
  cbn in Hs. apply StronglySorted_inv in Hs as [Hs Hall].
  destruct Hin as [<-|Hin]; [|auto].
  rewrite List.Forall_forall in Hall. apply Hall, in_or_app. right. now left.
Qed.

Lemma run_updates_time_zone calls : forall db,
  time_zone (run_updates db calls) = time_zone db.
Proof.
  induction calls as [|c calls IH]; intros db; [reflexivity|].
  change (time_zone (run_updates (apply_update db c) calls) = time_zone db).
  rewrite IH. unfold apply_update.
  destruct update_exchange_rate eqn:E; [|reflexivity].
  eapply update_time_zone, E.
Qed.

Lemma store_ok_empty_in zone now : store_ok (empty_db_in zone) now.
Proof. repeat split; cbn; try easy. intros b t. cbn. lia. Qed.

Lemma ledger_inv_empty_in zone : ledger_inv (empty_db_in zone).
Proof. intros b t. cbn. auto. Qed.

(** A successful update of a well formed store keeps the dates of the
    ledger in step with the rate table. *)
Lemma update_dated db now b t p src m db' :
  increasing (time_zone db) ->
  store_ok db now -> dated_inv db ->
  update_exchange_rate db now b t p src m = Ok db' ->
  dated_inv db'.
Proof.
  intros Hzone (Hinv & Hpast & _) Hdated H b2 t2.
  destruct (update_open_records _ _ _ _ _ _ _ _ b2 t2 H) as (stored & Hst & Hopen).
  pose proof H as (ch & cl & stored' & _ & Hclose & _ & _ & _ & Hhist & _)%update_ok_inv.
  rewrite (update_time_zone _ _ _ _ _ _ _ _ H).
  destruct (Hdated b2 t2) as [Hsorted Hlast].
  unfold pair_history in *. rewrite Hhist, List.filter_app. cbn [List.filter].
  unfold history_for_pair at 2 4. cbn.
  rewrite (String.eqb_sym b b2), (String.eqb_sym t t2), Hopen.
  destruct (String.eqb b2 b && String.eqb t2 t) eqn:E.
  - apply andb_true_iff in E as [->%String.eqb_eq ->%String.eqb_eq].
    split; [|now rewrite last_snoc].
    apply StronglySorted_snoc; [exact Hsorted|]. intros x Hx. cbn.
    destruct (last (List.filter (history_for_pair b t) (exchange_rate_history db)))
      as [z|] eqn:Hz.
    + assert (Hzn : recorded_at z < time_zone db now).
      { cbn in Hlast.
        destruct (open_records db b t) as [|r0 rest] eqn:Ho; [discriminate|].
        cbn in Hlast. injection Hlast as ->.
        assert (Hr0 : In r0 (open_records db b t)) by (rewrite Ho; now left).
        apply List.filter_In in Hr0 as [Hin0 Hopen0].
        unfold is_open in Hopen0. apply andb_true_iff in Hopen0 as [Hp0 Hnull].
        apply Hzone.
        apply (close_current_checked _ _ _ _ _ Hclose r0 Hin0 Hp0).
        unfold is_current. now destruct (effective_to r0). }
      destruct (StronglySorted_last _ _ _ Hsorted Hz x Hx) as [->|Hlt]; lia.
    + apply last_None in Hz. rewrite Hz in Hx. destruct Hx.
  - rewrite app_nil_r. split; assumption.
Qed.

Lemma run_updates_dated calls : forall db now,
  increasing (time_zone db) ->
  store_ok db now -> dated_inv db -> chronological now calls ->
  dated_inv (run_updates db calls).
Proof.
  induction calls as [|c calls IH]; intros db now Hzone Hok Hd Hchrono; [exact Hd|].
  destruct Hchrono as [Hle Hrest]. cbn.
  apply (store_ok_later _ _ _ Hok) in Hle.
  unfold apply_update. destruct update_exchange_rate eqn:E.
  - apply (IH _ (u_now c)); [| | |exact Hrest].
    + now rewrite (update_time_zone _ _ _ _ _ _ _ _ E).
    + eapply update_store_ok; eassumption.
    + eapply update_dated; eassumption.
  - apply (IH _ (u_now c)); assumption.
Qed.

(** Entries recorded at increasing instants come back reversed. *)
Lemma order_by_newer_rev (hs : list HistoryRow) :
  StronglySorted (fun h1 h2 => recorded_at h1 < recorded_at h2) hs ->
  order_by newer_leb hs = rev hs.
Proof.
  induction 1 as [|h hs Hs IH Hall]; [reflexivity|].
  change (order_by newer_leb (h :: hs))
    with (insert_by newer_leb h (order_by newer_leb hs)).
  rewrite IH. cbn [rev]. apply insert_by_last.
  intros y Hy%in_rev. rewrite List.Forall_forall in Hall.
  unfold newer_leb. apply Z.leb_gt. now apply Hall.
Qed.

(** X11.  The newest history entry is the rate in force: in a store that
    updates at successive instants build from the empty one, in a session
    whose time zone sets no clock back, for a pair with an active record
    [getExchangeRateHistory(base, target, 1)] returns exactly one entry.
    It has the rate of that record, and as its date the UTC wall clock of
    the record's start read in the time zone of the session: the start
    itself in a UTC session, the start less the offset of the zone
    otherwise. *)
Theorem newest_history_is_active_rate st zone now calls b t r :
  db st = run_updates (empty_db_in zone) calls -> chronological now calls ->
  increasing zone ->
  active_record (db st) b t r ->
  exists h,
    getExchangeRateHistory st b t 1 = Ok [h] /\
    hRate h = Schema.rate r /\ recordedAt h = zone (effective_from r) /\
    hBaseCurrency h = b /\ hTargetCurrency h = t.
Proof.
  intros Hdb Hchrono Hzone Hr.
  assert (Hok : store_ok (run_updates (empty_db_in zone) calls)
                         (last_instant now calls))
    by (apply run_updates_store_ok; [apply store_ok_empty_in | exact Hchrono]).
  assert (Hled : ledger_inv (run_updates (empty_db_in zone) calls))
    by (eapply LedgerFacts.run_updates_ledger;
        [apply store_ok_empty_in | apply ledger_inv_empty_in | exact Hchrono]).
  assert (Hdat : dated_inv (run_updates (empty_db_in zone) calls)).
  { eapply run_updates_dated;
      [exact Hzone | apply store_ok_empty_in | | exact Hchrono].
    intros b' t'. cbn. split; [constructor | reflexivity]. }
  assert (Htz : time_zone (db st) = zone)
    by (rewrite Hdb; apply run_updates_time_zone).
  rewrite <- Hdb in Hok, Hled, Hdat.
  destruct Hok as (Hinv & _).
  pose proof (active_record_open _ _ _ _ Hinv Hr) as Hopen.
  destruct (Hled b t) as [_ Hrate]. destruct (Hdat b t) as [Hsorted Hdate].
  rewrite Hopen in Hrate, Hdate. cbn in Hrate, Hdate.
  destruct (last (pair_history (db st) b t)) as [z|] eqn:Hz; [|discriminate].
  cbn in Hrate, Hdate. injection Hrate as Hrate. injection Hdate as Hdate.
  rewrite Htz in Hdate.
  exists (to_history z).
  unfold getExchangeRateHistory. fold (pair_history (db st) b t).
  rewrite (order_by_newer_rev _ Hsorted).
  pose proof Hz as [l' Hl']%last_Some. rewrite Hl', rev_unit. cbn.
  repeat split; try assumption.
  - assert (Hin : In z (pair_history (db st) b t))
      by (rewrite Hl'; apply in_or_app; right; now left).
    apply List.filter_In in Hin as [_ Hp]. unfold history_for_pair in Hp.
    now apply andb_true_iff in Hp as [?%String.eqb_eq _].
  - assert (Hin : In z (pair_history (db st) b t))
      by (rewrite Hl'; apply in_or_app; right; now left).
    apply List.filter_In in Hin as [_ Hp]. unfold history_for_pair in Hp.
    now apply andb_true_iff in Hp as [_ ?%String.eqb_eq].
Qed.

Lemma newest_history_is_active_rate_witness :
  exists h,
    getExchangeRateHistory st_colombo "USD" "EUR" 1 = Ok [h] /\
    hRate h = (9 # 10)%Q /\ recordedAt h = 40000 - 19800 /\
    hBaseCurrency h = "USD" /\ hTargetCurrency h = "EUR".
Proof.
  apply (newest_history_is_active_rate st_colombo (fixed_offset 19800) 0
           [colombo_085; colombo_090]
           "USD" "EUR" (new_row "USD" "EUR" (9 # 10)%Q "manual" true 40000)).
  - vm_compute. reflexivity.
  - cbn. lia.
  - intros w1 w2. unfold fixed_offset. lia.
  - split; [vm_compute; right; left; reflexivity | reflexivity].
Defined.

End HistoryFacts.

(** ** [isRateStale] *)

Module StaleFacts.
Import CurrencyQueries.

Section WithGetTime.

Variable getTime : Z -> Z.



End WithGetTime.



End StaleFacts.

(** ** [isValidCurrency], [getCurrencyByCode], [getCurrencySymbol] *)

Module RegistryFacts.
Import CurrencyQueries.

Lemma existsb_find {A} (f : A -> bool) (l : list A) :
  existsb f l = true <-> List.find f l <> None.
Proof.
  induction l as [|x l IH]; cbn; [easy|].
  destruct (f x); cbn; [easy | exact IH].
Qed.

(** X14.  [isValidCurrency] and [getCurrencyByCode] agree: a code is valid
    exactly when [getCurrencyByCode] finds a configuration, which is
    exactly when [currency_config] has an active row with that code; a
    configuration that is found has the code asked for and is active. *)
Theorem valid_iff_found (st : State) (x : string) :
  exists valid found,
    isValidCurrency st x = Ok valid /\
    getCurrencyByCode st x = Ok found /\
    (valid = true <-> found <> None) /\
    (valid = true <->
     exists r, In r (currency_config (db st)) /\ is_active r = true /\
               Schema.code r = x) /\
    (forall c, found = Some c -> code c = x /\ isActive c = true).
Proof.
  unfold isValidCurrency, getCurrencyByCode, getSupportedCurrencies.
  fold (active_currencies st). cbn [mbind result_bind].
  eexists _, _. split; [reflexivity|]. split; [reflexivity|].
  split; [apply existsb_find|]. split.
  - rewrite existsb_exists. split.
    + intros (c & Hin & Heq). apply in_map_iff in Hin as (r & <- & Hin).
      apply in_ordered_active in Hin as [Hin Hact].
      exists r. apply String.eqb_eq in Heq. auto.
    + intros (r & Hin & Hact & Hcode). exists (to_config r). split.
      * apply in_map, in_ordered_active. auto.
      * cbn. now apply String.eqb_eq.
  - intros c Hfind. apply List.find_some in Hfind as [Hin Heq].
    apply in_map_iff in Hin as (r & <- & Hin).
    apply in_ordered_active in Hin as [_ Hact].
    apply String.eqb_eq in Heq. auto.
Qed.

Lemma valid_iff_found_witness :
  exists valid found,
    isValidCurrency st_config "CHF" = Ok valid /\
    getCurrencyByCode st_config "CHF" = Ok found /\
    (valid = true <-> found <> None) /\
    (valid = true <->
     exists r, In r (currency_config (db st_config)) /\ is_active r = true /\
               Schema.code r = "CHF") /\
    (forall c, found = Some c -> code c = "CHF" /\ isActive c = true).
Proof. apply (valid_iff_found st_config "CHF"). Defined.

(** X15.  [getCurrencySymbol] returns the symbol of the active currency
    with that code when it has a symbol that is not empty, and the code
    itself otherwise (unknown or inactive code, empty symbol); so for a
    code that is not empty it never returns the empty string. *)
Theorem symbol_or_code (st : State) (x : string) :
  exists s,
    getCurrencySymbol st x = Ok s /\
    (x <> "" -> s <> "") /\
    (isValidCurrency st x = Ok false -> s = x) /\
    (forall c, getCurrencyByCode st x = Ok (Some c) ->
               s = if String.eqb (symbol c) "" then x else symbol c).
Proof.
  unfold getCurrencySymbol, isValidCurrency, getCurrencyByCode,
    getSupportedCurrencies.
  cbn [mbind result_bind].
  set (currencies := map to_config _).
  pose proof (existsb_find (fun c => String.eqb (code c) x) currencies) as Hiff.
  destruct (List.find _ currencies) as [c|] eqn:Hfind.
  - eexists. split; [reflexivity|]. repeat split.
    + intros Hx. destruct (String.eqb (symbol c) "") eqn:E; [exact Hx|].
      now apply String.eqb_neq in E.
    + intros [= Hex]. destruct Hiff as [_ Hiff].
      specialize (Hiff ltac:(discriminate)). congruence.
    + now intros c' [= <-].
  - eexists. split; [reflexivity|]. repeat split; [auto | discriminate].
Qed.

Lemma symbol_or_code_witness :
  getCurrencySymbol st_config "CHF" = Ok "CHF" /\
  getCurrencySymbol st_config "USD" = Ok "$" /\
  getCurrencySymbol st_config "XXX" = Ok "XXX".
Proof.
  split; [|split].
  - destruct (symbol_or_code st_config "CHF") as (s & -> & _ & _ & Hs).
    f_equal. apply (Hs (to_config {| Schema.code := "CHF";
      Schema.name := "Swiss Franc"; Schema.symbol := "CHF";
      symbol_position := after; decimal_places := 2; is_active := true;
      is_base_currency := false |})). reflexivity.
  - destruct (symbol_or_code st_config "USD") as (s & -> & _ & _ & Hs).
    f_equal. apply (Hs (to_config {| Schema.code := "USD";
      Schema.name := "US Dollar"; Schema.symbol := "$";
      symbol_position := before; decimal_places := 2; is_active := true;
      is_base_currency := true |})). reflexivity.
  - destruct (symbol_or_code st_config "XXX") as (s & -> & _ & Hs & _).
    f_equal. apply Hs. reflexivity.
Defined.

End RegistryFacts.

(** ** The cache and the batch conversion *)

Module CacheFacts.
Import CurrencyQueries Ledger.

Lemma getCurrentExchangeRate_db st now db_now b t :
  db (snd (getCurrentExchangeRate st now db_now b t)) = db st.
Proof.
  unfold getCurrentExchangeRate.
  destruct (String.eqb b t); [reflexivity|].
  destruct (cachedRates st !! cacheKey b t) as [c|];
    [destruct (_ <? _); [reflexivity|]|];
    destruct get_current_exchange_rate; reflexivity.
Qed.

(** X16.  [batchConvert] answers item by item, in the order given: the
    i-th conversion carries the amount, the codes and the time of the i-th
    item, an item between equal codes comes back at the rate 1.0 with its
    amount unchanged, and the database is left as it was. *)
Theorem batch_convert_in_order (items : list (Tick * BatchItem)) : forall st,
  Forall2 (fun c p =>
             originalAmount c = amount (snd p) /\
             fromCurrency c = itemFrom (snd p) /\
             toCurrency c = itemTo (snd p) /\
             timestamp c = client_now (fst p) /\
             (itemFrom (snd p) = itemTo (snd p) ->
              exchangeRate c = 1%Q /\ convertedAmount c = amount (snd p)))
          (fst (batchConvert st items)) items /\
  db (snd (batchConvert st items)) = db st.
Proof.
  induction items as [|[tk item] items IH]; intros st; cbn;
    [split; [constructor | reflexivity]|].
  unfold convertCurrency.
  pose proof (getCurrentExchangeRate_db st (client_now tk) (server_now tk)
                (itemFrom item) (itemTo item)) as Hdb.
  destruct (getCurrentExchangeRate st (client_now tk) (server_now tk)
              (itemFrom item) (itemTo item)) as [rate st1] eqn:E.
  destruct (IH st1) as [Hall Hdb1].
  destruct (batchConvert st1 items) as [cs st2]. cbn in *.
  split; [|congruence].
  constructor; [|exact Hall]. cbn.
  split; [reflexivity|]. split; [reflexivity|]. split; [reflexivity|].
  split; [reflexivity|].
  intros Heq. rewrite Heq in E. unfold getCurrentExchangeRate in E.
  rewrite String.eqb_refl in E. injection E as <- _.
  split; [reflexivity | apply Qmult_1_r_eq].
Qed.

Lemma batch_convert_in_order_witness :
  Forall2 (fun c p =>
             originalAmount c = amount (snd p) /\
             fromCurrency c = itemFrom (snd p) /\
             toCurrency c = itemTo (snd p) /\
             timestamp c = client_now (fst p) /\
             (itemFrom (snd p) = itemTo (snd p) ->
              exchangeRate c = 1%Q /\ convertedAmount c = amount (snd p)))
          (fst (batchConvert st_once
                  [ ({| client_now := 0; server_now := 15 |},
                     {| amount := 100%Q; itemFrom := "USD"; itemTo := "EUR" |});
                    ({| client_now := 5; server_now := 16 |},
                     {| amount := 7%Q; itemFrom := "EUR"; itemTo := "EUR" |}) ]))
          [ ({| client_now := 0; server_now := 15 |},
             {| amount := 100%Q; itemFrom := "USD"; itemTo := "EUR" |});
            ({| client_now := 5; server_now := 16 |},
             {| amount := 7%Q; itemFrom := "EUR"; itemTo := "EUR" |}) ] /\
  db (snd (batchConvert st_once
             [ ({| client_now := 0; server_now := 15 |},
                {| amount := 100%Q; itemFrom := "USD"; itemTo := "EUR" |});
               ({| client_now := 5; server_now := 16 |},
                {| amount := 7%Q; itemFrom := "EUR"; itemTo := "EUR" |}) ]))
  = db st_once.
Proof. apply batch_convert_in_order. Defined.



(** X18.  After [clearCache] every pair is read from the database: the
    next [getCurrentExchangeRate] of distinct codes returns what the remote
    procedure answers now (1.0 for an answer of zero or an error), whatever
    the cache held before; the database itself is not touched. *)
Theorem clear_cache_forces_lookup st now db_now b t :
  b <> t ->
  fst (getCurrentExchangeRate (clearCache st) now db_now b t) =
    match get_current_exchange_rate (db st) db_now b t with
    | Ok data => if Qeq_bool data 0 then 1%Q else data
    | Err _ => 1%Q
    end /\
  db (clearCache st) = db st /\
  forall k, cachedRates (clearCache st) !! k = None.
Proof.
  intros Hne. split; [|split; [reflexivity | intros k; apply lookup_empty]].
  rewrite getCurrentExchangeRate_miss; [reflexivity | exact Hne |].
  unfold cache_miss. cbn. now rewrite lookup_empty.
Qed.

Lemma clear_cache_forces_lookup_witness :
  fst (getCurrentExchangeRate st_then_updated 1000 11 "EUR" "USD") = 1%Q /\
  fst (getCurrentExchangeRate (clearCache st_then_updated) 1000 11 "EUR" "USD")
    = (117647059 # 100000000)%Q.
Proof.
  split; [vm_compute; reflexivity|].
  rewrite (proj1 (clear_cache_forces_lookup st_then_updated 1000 11 "EUR" "USD"
                    ltac:(discriminate))).
  vm_compute. reflexivity.
Defined.

End CacheFacts.

(** ** Rates stay positive *)

Module PositiveFacts.
Import Ledger.

Lemma newest_In rows r : newest rows = Some r -> In r rows.
Proof.
  revert r. induction rows as [|r0 rows IH]; intros r; cbn; [discriminate|].
  destruct (newest rows) as [r'|].
  - destruct (_ <? _); intros [= <-]; [right; now apply IH | now left].
  - intros [= <-]. now left.
Qed.

Lemma select_current_In db now b t r :
  select_current db now b t = Some r -> In r (exchange_rates db).
Proof.
  intros H%newest_In. now apply List.filter_In in H as [H _].
Qed.

Lemma round_half_away_nonneg (x : Q) : (0 <= x)%Q -> 0 <= round_half_away x.
Proof.
  intros H. unfold round_half_away.
  assert (E : Qle_bool 0 x = true) by now apply Qle_bool_iff.
  rewrite E. change 0 with (Qfloor 0). apply Qfloor_resp_le. lra.
Qed.

Lemma to_decimal_nonneg (p s : nat) (q v : Q) :
  (0 <= q)%Q -> to_decimal p s q = Ok v -> (0 <= v)%Q.
Proof.
  intros Hq. unfold to_decimal. destruct (_ <? _); [|discriminate].
  intros [= <-]. rewrite Qred_correct.
  assert (Hx : (0 <= q * inject_Z (pow10 s))%Q).
  { apply Qmult_le_0_compat; [exact Hq|].
    change 0%Q with (inject_Z 0). rewrite <- Zle_Qle.
    pose proof (pow10_pos s). lia. }
  apply round_half_away_nonneg in Hx. unfold Qle. cbn. lia.
Qed.

(** What the class makes of an answer of the remote procedure. *)
Lemma answer_positive db now b t :
  valid_rates db ->
  (0 < match get_current_exchange_rate db now b t with
       | Ok data => if Qeq_bool data 0 then 1 else data
       | Err _ => 1
       end)%Q.
Proof.
  intros Hvalid.
  assert (Hnn : forall data, (0 <= data)%Q ->
            (0 < (if Qeq_bool data 0 then 1 else data))%Q).
  { intros data Hd. destruct (Qeq_bool data 0) eqn:E; [reflexivity|].
    apply Qeq_bool_neq in E. apply Qle_lteq in Hd as [Hd|Hd]; [exact Hd|].
    now destruct E. }
  unfold get_current_exchange_rate.
  destruct (String.eqb b t); [reflexivity|].
  destruct (select_current db now b t) as [r|] eqn:Hd.
  - apply Hnn, Qlt_le_weak, (Hvalid r). eapply select_current_In, Hd.
  - destruct (select_current db now t b) as [r|] eqn:Hr; [|reflexivity].
    destruct (Hvalid r (select_current_In _ _ _ _ _ Hr)) as [Hpos _].
    rewrite (Qlt_0_neq0 _ Hpos).
    destruct (to_decimal 15 8 (1 / Schema.rate r)) as [v|e] eqn:Hv; [|reflexivity].
    apply Hnn. apply (to_decimal_nonneg _ _ _ _) in Hv; [exact Hv|].
    apply Qlt_le_weak. unfold Qdiv. rewrite Qmult_1_l. now apply Qinv_lt_0_compat.
Qed.

Lemma update_valid_rates db now b t p src m db' :
  valid_rates db -> update_exchange_rate db now b t p src m = Ok db' ->
  valid_rates db'.
Proof.
  intros Hvalid (ch & closed & stored & _ & Hclose & Hst & Hpos & Hrows & _)%update_ok_inv.
  intros r. rewrite Hrows. intros [Hin|[<-|[]]]%in_app_or.
  - destruct (close_current_rows _ _ _ _ _ Hclose r Hin) as (r0 & Hin0 & -> & _).
    now apply Hvalid.
  - cbn. split; [|eapply to_decimal_15_8_bound; eassumption].
    apply Qnot_le_lt. intros Hle. apply Qle_bool_iff in Hle. congruence.
Qed.

(** X19.  Conversions never multiply by zero or by a negative number: when
    every stored rate is a positive DECIMAL(15,8) and every cached rate is
    positive, [getCurrentExchangeRate] returns a positive number for every
    pair and leaves both facts true, and so does a successful
    [updateExchangeRate]; both hold of the initial state. *)
Theorem rates_stay_positive (st : State) :
  valid_rates (db st) -> cache_positive st ->
  (forall now db_now b t,
     (0 < fst (getCurrentExchangeRate st now db_now b t))%Q /\
     valid_rates (db (snd (getCurrentExchangeRate st now db_now b t))) /\
     cache_positive (snd (getCurrentExchangeRate st now db_now b t))) /\
  (forall db_now b t rate src m st',
     updateExchangeRate st db_now b t rate src m = Ok st' ->
     valid_rates (db st') /\ cache_positive st').
Proof.
  intros Hvalid Hcache. split.
  - intros now db_now b t.
    pose proof (answer_positive (db st) db_now b t Hvalid) as Hans.
    unfold getCurrentExchangeRate.
    destruct (String.eqb b t); [cbn; split; [reflexivity | split; assumption]|].
    assert (Hfetch :
      let fetch :=
        match get_current_exchange_rate (db st) db_now b t with
        | Ok data =>
            let rate := if Qeq_bool data 0 then 1%Q else data in
            (rate,
             {| db := db st;
                cachedRates :=
                  <[cacheKey b t := {| cached_rate := rate;
                                       cached_timestamp := now |}]>
                    (cachedRates st) |})
        | Err _ => (1%Q, st)
        end in
      (0 < fst fetch)%Q /\ valid_rates (db (snd fetch)) /\ cache_positive (snd fetch)).
    { destruct (get_current_exchange_rate (db st) db_now b t) as [data|e]; cbn;
        [|split; [reflexivity | split; assumption]].
      split; [exact Hans | split; [exact Hvalid |]].
      intros k c. cbn. destruct (decide (k = cacheKey b t)) as [->|Hk].
      - rewrite lookup_insert_eq. now intros [= <-].
      - rewrite lookup_insert_ne by congruence. apply Hcache. }
    destruct (cachedRates st !! cacheKey b t) as [c|] eqn:Hc; [|exact Hfetch].
    destruct (_ <? _); [|exact Hfetch].
    cbn. split; [eapply Hcache; exact Hc | split; [exact Hvalid | exact Hcache]].
  - intros db_now b t rate src m st' [Hdb Hc]%updateExchangeRate_ok.
    split; [eapply update_valid_rates; eassumption|].
    intros k c. rewrite Hc. intros Hk.
    apply lookup_delete_Some in Hk as [_ Hk]. eapply Hcache, Hk.
Qed.

Lemma rates_stay_positive_witness :
  (0 < fst (getCurrentExchangeRate initial_state 0 5 "EUR" "USD"))%Q /\
  valid_rates (db st_then_updated) /\ cache_positive st_then_updated.
Proof.
  assert (Hv0 : valid_rates (db initial_state)) by (intros r []).
  assert (Hc0 : cache_positive initial_state).
  { intros k c. cbn. rewrite lookup_empty. discriminate. }
  destruct (rates_stay_positive initial_state Hv0 Hc0) as [Hread _].
  destruct (Hread 0 5 "EUR" "USD") as (Hpos & Hv1 & Hc1).
  split; [exact Hpos|].
  apply (proj2 (rates_stay_positive st_early_read Hv1 Hc1)
           10 "USD" "EUR" 0.85%Q "api" false).
  vm_compute. reflexivity.
Defined.

End PositiveFacts.

(** ** The exported functions and the rate service *)

Module ServiceFacts.
Import Exports ExchangeRateService.

Lemma detached_update st db_now b t rate src m :
  cachedRates (snd (updateExchangeRate_on undefined st db_now b t rate src m))
    = cachedRates st /\
  db (snd (updateExchangeRate_on undefined st db_now b t rate src m))
    = apply_update (db st)
        {| u_now := db_now; u_base := b; u_target := t; u_rate := rate;
           u_source := src; u_manual := m |}.
Proof.
  unfold updateExchangeRate_on, apply_update. cbn.
  destruct update_exchange_rate; split; reflexivity.
Qed.

Lemma rates_loop rates : forall clock i st src,
  db (updateRatesInDatabase clock i st rates src)
    = run_updates (db st) (calls_of clock i rates src) /\
  cachedRates (updateRatesInDatabase clock i st rates src) = cachedRates st.
Proof.
  induction rates as [|[t rate] rates IH]; intros clock i st src; [split; reflexivity|].
  cbn [updateRatesInDatabase calls_of].
  destruct (detached_update st (clock i) "USD" t rate src false) as [Hc Hdb].
  destruct (IH clock (S i)
              (snd (updateExchangeRate_on undefined st (clock i) "USD" t rate src false))
              src) as [IHdb IHc].
  split; [|now rewrite IHc].
  rewrite IHdb, Hdb. reflexivity.
Qed.

Lemma calls_chronological rates : forall clock i now src,
  (forall k, clock k <= clock (S k)) -> now <= clock i ->
  chronological now (calls_of clock i rates src).
Proof.
  induction rates as [|[t rate] rates IH]; intros clock i now src Hmono Hnow;
    [exact I|].
  cbn. split; [exact Hnow|]. apply IH; [exact Hmono | apply Hmono].
Qed.

(** X20.  [updateManualRate] goes through the exported
    [updateExchangeRate], which runs without its class: it never completes
    normally.  When the database refuses the rate nothing changes; when the
    database accepts it the new rate is stored and the call then fails with
    a TypeError, and the cache is the one from before the call in either
    case. *)
Theorem manual_update_never_returns (st : State) (db_now : Z)
    (b t : string) (rate : number) :
  cachedRates (snd (updateManualRate st db_now b t rate)) = cachedRates st /\
  match update_exchange_rate (db st) db_now b t rate "manual" true with
  | Ok db' =>
      fst (updateManualRate st db_now b t rate) = Thrown TypeError /\
      db (snd (updateManualRate st db_now b t rate)) = db'
  | Err e =>
      updateManualRate st db_now b t rate = (Thrown (Raised e), st)
  end.
Proof.
  unfold updateManualRate, updateExchangeRate_on.
  destruct update_exchange_rate; cbn; repeat split; reflexivity.
Qed.

(** X21.  A manual rate set through the service is not seen while the old
    cache entry of the pair is fresh: a read within the cache duration of
    the entry returns the cached rate, whatever the database now holds. *)
Theorem manual_update_leaves_stale_rate (st : State) (db_now now db_now' : Z)
    (b t : string) (rate : number) (cached : CacheEntry) :
  String.eqb b t = false ->
  cachedRates st !! cacheKey b t = Some cached ->
  now - cached_timestamp cached < CACHE_DURATION ->
  fst (getCurrentExchangeRate (snd (updateManualRate st db_now b t rate))
         now db_now' b t) = cached_rate cached.
Proof.
  intros Hbt Hc Hfresh.
  destruct (detached_update st db_now b t rate "manual" true) as [Hcache _].
  fold (updateManualRate st db_now b t rate) in Hcache.
  unfold getCurrentExchangeRate. rewrite Hbt. cbv zeta. rewrite Hcache, Hc.
  apply Z.ltb_lt in Hfresh. rewrite Hfresh. reflexivity.
Qed.

Lemma manual_update_leaves_stale_rate_witness :
  fst (getCurrentExchangeRate
         (snd (updateManualRate st_early_read 10 "EUR" "USD" 2%Q))
         20 20 "EUR" "USD") = 1%Q /\
  get_current_exchange_rate
    (db (snd (updateManualRate st_early_read 10 "EUR" "USD" 2%Q)))
    20 "EUR" "USD" = Ok 2%Q.
Proof.
  split.
  - apply (manual_update_leaves_stale_rate st_early_read 10 20 20 "EUR" "USD" 2%Q
             {| cached_rate := 1%Q; cached_timestamp := 0 |});
      vm_compute; reflexivity.
  - vm_compute. reflexivity.
Defined.

(** X22.  The loop of [updateRatesInDatabase] is a run of
    [update_exchange_rate] calls in which a refused call is skipped, and it
    never touches the cache.  With a database clock that does not go back,
    on a store that successive updates have produced, the store it leaves
    has at most one active record per pair, only positive rates that fit
    the column, and a history of each pair that is a chain ending at the
    active rate. *)
Theorem rates_loop_keeps_store (clock : nat -> Z) (st : State)
    (rates : list (string * number)) (source : string) (now : Z) :
  store_ok (db st) now -> Ledger.ledger_inv (db st) ->
  (forall k, clock k <= clock (S k)) -> now <= clock 0%nat ->
  db (updateRatesInDatabase clock 0 st rates source)
    = run_updates (db st) (calls_of clock 0 rates source) /\
  cachedRates (updateRatesInDatabase clock 0 st rates source) = cachedRates st /\
  store_ok (db (updateRatesInDatabase clock 0 st rates source))
           (last_instant now (calls_of clock 0 rates source)) /\
  Ledger.ledger_inv (db (updateRatesInDatabase clock 0 st rates source)).
Proof.
  intros Hok Hled Hmono Hnow.
  destruct (rates_loop rates clock 0%nat st source) as [Hdb Hc].
  pose proof (calls_chronological rates clock 0%nat now source Hmono Hnow) as Hch.
  rewrite Hdb. split; [reflexivity|]. split; [exact Hc|]. split.
  - now apply run_updates_store_ok.
  - now apply (LedgerFacts.run_updates_ledger _ _ now).
Qed.

Lemma rates_loop_keeps_store_witness :
  let st' := updateRatesInDatabase (fun k => 10 + Z.of_nat k) 0 initial_state
               [("EUR", 0.85%Q); ("XXX", 0%Q); ("GBP", 0.73%Q)] "api" in
  length (exchange_rates (db st')) = 2%nat /\
  store_ok (db st') 12 /\ Ledger.ledger_inv (db st').
Proof.
  assert (H := rates_loop_keeps_store (fun k => 10 + Z.of_nat k) initial_state
                 [("EUR", 0.85%Q); ("XXX", 0%Q); ("GBP", 0.73%Q)] "api" 0
                 (store_ok_empty 0) LedgerFacts.ledger_inv_empty
                 ltac:(intros k; cbv beta; lia) ltac:(cbn; lia)).
  destruct H as (_ & _ & Hok & Hled).
  cbv zeta. split; [vm_compute; reflexivity|]. split; [exact Hok | exact Hled].
Defined.

(** X23.  [updateExchangeRates] leaves the [isUpdating] flag as it found it
    and never touches the cache.  Called while an update is in progress it
    returns false and changes nothing.  Otherwise it returns true exactly
    when the provider is 'manual' or the provider call yielded rates, and
    the answer does not depend on what the database did with them; the time
    of the last update is set on true and kept on false. *)
Theorem refresh_outcome (svc : Service) (st : State)
    (fetched : option (list (string * number))) (clock : nat -> Z) (now : Z) :
  let r := updateExchangeRates svc st fetched clock now in
  isUpdating (snd (fst r)) = isUpdating svc /\
  cachedRates (snd r) = cachedRates st /\
  (isUpdating svc = true -> r = (false, svc, st)) /\
  (isUpdating svc = false ->
     (fst (fst r) = true <->
      provider svc = manual \/ exists rates, fetched = Some rates)) /\
  (forall st2 clock2 now2,
     fst (fst (updateExchangeRates svc st2 fetched clock2 now2)) = fst (fst r)) /\
  lastUpdateTime (snd (fst r))
    = (if fst (fst r) then Some now else lastUpdateTime svc).
Proof.
  unfold updateExchangeRates.
  destruct (isUpdating svc) eqn:Hup; cbv zeta.
  - repeat split; try reflexivity; try assumption; discriminate.
  - assert (Hrates : forall rates : option (list (string * number)),
              (exists l, rates = Some l) \/ rates = None).
    { intros [l|]; [left; now exists l | now right]. }
    destruct (provider svc) eqn:Hp; [destruct fetched as [l|] .. |];
      cbn [fst snd isUpdating lastUpdateTime].
    all: split; [reflexivity|].
    all: split; [apply rates_loop|].
    all: split; [discriminate|].
    all: split; [intros _; split|split; [intros; reflexivity | reflexivity]].
    all: try (intros _; right; eexists; reflexivity).
    all: try (intros _; left; reflexivity).
    all: try reflexivity.
    all: try discriminate.
    all: intros [H|[l H]]; discriminate.
Qed.

End ServiceFacts.

(** ** The provider's reads *)

Module ProviderFacts.
Import Exports CurrencyProvider.

(** X24.  The provider's [getCurrentRate] and [convertAmount] call the
    exported functions without their class.  [getCurrentRate] answers 1 for
    a currency against itself and fails with a TypeError for every other
    pair; [convertAmount] fails with a TypeError for every input; neither
    reaches the cache or the database. *)
Theorem provider_reads_fail (st : State) (now db_now : Z)
    (amount : number) (b t : string) :
  getCurrentRate st now db_now b t
    = ((if String.eqb b t then Returned 1%Q else Thrown TypeError), st) /\
  convertAmount st now db_now amount b t = (Thrown TypeError, st).
Proof.
  unfold getCurrentRate, convertAmount, getCurrentExchangeRate_on,
    convertCurrency_on.
  destruct (String.eqb b t); split; reflexivity.
Qed.

End ProviderFacts.

(** ** The reducer *)

Module ReducerFacts.
Import CurrencyQueries CurrencyContext.

Lemma with_rate_match base target n r :
  pair_of r = (base, target) ->
  with_rate base target n r
    = {| CurrencyQueries.baseCurrency := CurrencyQueries.baseCurrency r;
         targetCurrency := targetCurrency r;
         rate := n;
         source := source r;
         isManualOverride := isManualOverride r;
         effectiveFrom := effectiveFrom r;
         effectiveTo := effectiveTo r |}.
Proof.
  unfold pair_of, with_rate. intros [= -> ->]. now rewrite !String.eqb_refl.
Qed.

Lemma with_rate_other base target n r :
  pair_of r <> (base, target) -> with_rate base target n r = r.
Proof.
  unfold pair_of, with_rate. intros Hne.
  destruct (String.eqb _ base) eqn:E1; [|reflexivity].
  destruct (String.eqb _ target) eqn:E2; [|reflexivity].
  apply String.eqb_eq in E1, E2. destruct Hne. now rewrite E1, E2.
Qed.

Lemma pair_dec (p q : string * string) : p = q \/ p <> q.
Proof.
  destruct p as [a b], q as [c d].
  destruct (String.eqb_spec a c) as [->|Ha]; [|right; congruence].
  destruct (String.eqb_spec b d) as [->|Hb]; [now left | right; congruence].
Qed.

Lemma with_rate_pair base target n r :
  pair_of (with_rate base target n r) = pair_of r.
Proof.
  destruct (pair_dec (pair_of r) (base, target)) as [H|H].
  - now rewrite with_rate_match.
  - now rewrite with_rate_other.
Qed.

Lemma with_rate_idem base target n r :
  with_rate base target n (with_rate base target n r) = with_rate base target n r.
Proof.
  destruct (pair_dec (pair_of r) (base, target)) as [H|H].
  - rewrite (with_rate_match _ _ _ r H). rewrite with_rate_match; [reflexivity|].
    exact H.
  - rewrite (with_rate_other _ _ _ r H). exact (with_rate_other _ _ _ r H).
Qed.

(** X25.  The action UPDATE_EXCHANGE_RATE rewrites the rate list in place:
    the list keeps its pairs in their order, every entry of the named pair
    carries the new rate and keeps its other fields, every other entry is
    untouched, and a second dispatch of the same action changes nothing.
    When the list has no entry of the pair the state stays as it is: the
    action never adds one. *)
Theorem reducer_update_rate (state : CurrencyState)
    (base target : string) (new_rate : number) :
  let state' := currencyReducer state (UPDATE_EXCHANGE_RATE base target new_rate) in
  map pair_of (exchangeRates state') = map pair_of (exchangeRates state) /\
  Forall2 (fun r r' =>
             if decide (pair_of r = (base, target))
             then rate r' = new_rate /\ source r' = source r /\
                  isManualOverride r' = isManualOverride r /\
                  effectiveFrom r' = effectiveFrom r /\
                  effectiveTo r' = effectiveTo r
             else r' = r)
          (exchangeRates state) (exchangeRates state') /\
  currencyReducer state' (UPDATE_EXCHANGE_RATE base target new_rate) = state' /\
  ((forall r, In r (exchangeRates state) -> pair_of r <> (base, target)) ->
   state' = state).
Proof.
  destruct state as [sc bc dc rates il em lu]. cbn.
  split; [|split; [|split]].
  - rewrite map_map. apply map_ext. intros r. apply with_rate_pair.
  - induction rates as [|r rates IH]; cbn; constructor; [|exact IH].
    destruct (decide (pair_of r = (base, target))) as [H|H].
    + rewrite (with_rate_match _ _ _ r H). cbn. repeat split; reflexivity.
    + now apply with_rate_other.
  - f_equal. rewrite map_map. apply map_ext. intros r. apply with_rate_idem.
  - intros Hnone. f_equal.
    induction rates as [|r rates IH]; [reflexivity|]. cbn.
    rewrite with_rate_other by (apply Hnone; now left).
    f_equal. apply IH. intros r' Hr'. apply Hnone. now right.
Qed.

End ReducerFacts.
